(** * Line Reversal Control Protocol: a shallow embedding of
    [7 - line reversal/line-reversal.py] and the properties of its
    session engine.

    Python [bytes] are lists of [Byte.byte]; the reassembly buffer and the
    outbound buffer are lists of tokens (each token a [bytes]); the global
    [sessions] dict is an association list in insertion order, which is the
    order a Python dict iterates in; the datagram transport is the list of
    datagrams handed to [sendto]; an exception leaves the mutations done
    before it in place and is reported in the outcome. *)

From Stdlib Require Import ZArith List Lia Strings.Byte Strings.String Decimal.
From stdpp Require Import base decidable option list.
Import ListNotations.

#[local] Open Scope Z_scope.
#[local] Open Scope list_scope.

(** ** Bytes *)

Definition bytes := list byte.

#[global] Instance byte_eq_dec : EqDecision byte := Byte.byte_eq_dec.
#[global] Arguments byte_eq_dec : simpl never.

(** [bs "abc"] is the Python literal [b'abc']. *)
Definition bs (s : string) : bytes := list_byte_of_string s.

Definition SLASH : byte := x2f.      (* 47, b'/' *)
Definition BACKSLASH : byte := x5c.  (* 92 *)
Definition LF : byte := x0a.         (* 10, b'\n' *)

Definition NEWLINE : bytes := [LF].                       (* b'\n' *)
Definition EMPTY : bytes := [].                           (* b'' *)
Definition B_SLASH : bytes := [SLASH].                    (* b'/' *)
Definition B_CONNECT : bytes := Eval cbv in bs "connect".
Definition B_DATA : bytes := Eval cbv in bs "data".
Definition B_CLOSE : bytes := Eval cbv in bs "close".
Definition B_ACK : bytes := Eval cbv in bs "ack".
Definition P_ACK : bytes := Eval cbv in bs "/ack/".       (* b'/ack/' *)
Definition P_DATA : bytes := Eval cbv in bs "/data/".     (* b'/data/' *)
Definition P_CLOSE : bytes := Eval cbv in bs "/close/".   (* b'/close/' *)
Definition S_ZERO : bytes := Eval cbv in bs "/0/".        (* b'/0/' *)

(** ** Python primitives used by the program *)

Module Py.

Inductive exn :=
  IndexError | ValueError | KeyError | OverflowError | MemoryError.

(** [sys.maxsize]: the largest index-sized integer of a 64-bit build. *)
Definition maxsize : Z := 2 ^ 63 - 1.

(** The longest list the interpreter agrees to build: a list of more than
    [maxsize // 8] slots (eight bytes each) is refused with [MemoryError]
    whatever memory the host has. *)
Definition max_list_len : Z := maxsize / 8.

(** [n * [x]] for an integer [n]. The count is first converted to an
    index-sized integer, [OverflowError] outside [-maxsize-1 .. maxsize];
    a count of zero or less gives the empty list; a count above
    [max_list_len] is refused with [MemoryError]. *)
Definition repeat {A} (n : Z) (x : A) : exn + list A :=
  if decide (- maxsize - 1 <= n <= maxsize) then
    if decide (n <= max_list_len) then inr (replicate (Z.to_nat n) x)
    else inl MemoryError
  else inl OverflowError.

(** [l += m] for two lists: nothing happens for an empty [m]; otherwise
    [l] is resized, which is refused with [MemoryError] once the list would
    be longer than [max_list_len], and [m] is copied behind it. (The resize
    rounds its request up by a few slots, so the interpreter can refuse a
    few slots earlier than the model.) *)
Definition iadd {A} (l m : list A) : exn + list A :=
  match m with
  | [] => inr l
  | _ :: _ =>
      if decide (Z.of_nat (length l + length m) <= max_list_len)
      then inr (l ++ m)
      else inl MemoryError
  end.

(** [l[start:stop]] for non-negative bounds. *)
Definition slice {A} (start stop : nat) (l : list A) : list A :=
  drop start (take stop l).

(** [b.partition(sep)] when [sep] occurs: the text before and after its
    first occurrence. *)
Fixpoint partition (sep : byte) (b : bytes) : option (bytes * bytes) :=
  match b with
  | [] => None
  | c :: r =>
      if decide (c = sep) then Some ([], r)
      else match partition sep r with
           | Some (p, q) => Some (c :: p, q)
           | None => None
           end
  end.

(** [b.split(sep, maxsplit)] for a one-byte separator. *)
Fixpoint split (sep : byte) (maxsplit : nat) (b : bytes) : list bytes :=
  match maxsplit with
  | O => [b]
  | S m =>
      match partition sep b with
      | None => [b]
      | Some (p, q) => p :: split sep m q
      end
  end.

(** [Py_ISSPACE]: tab, line feed, vertical tab, form feed, carriage
    return and space. *)
Definition is_space (c : byte) : bool :=
  let n := Byte.to_N c in
  ((9 <=? n) && (n <=? 13) || (n =? 32))%N.

Definition digit_val (c : byte) : option Z :=
  let n := Byte.to_N c in
  if ((48 <=? n) && (n <=? 57))%N then Some (Z.of_N n - 48) else None.

Fixpoint lstrip (b : bytes) : bytes :=
  match b with
  | c :: r => if is_space c then lstrip r else b
  | [] => []
  end.

Definition strip (b : bytes) : bytes := rev (lstrip (rev (lstrip b))).

(** The digits after the first one: a digit, or one underscore followed
    by a digit. *)
Fixpoint more_digits (acc : Z) (b : bytes) : option Z :=
  match b with
  | [] => Some acc
  | c :: r =>
      if decide (c = x5f) then
        match r with
        | d :: r' =>
            match digit_val d with
            | Some v => more_digits (acc * 10 + v) r'
            | None => None
            end
        | [] => None
        end
      else
        match digit_val c with
        | Some v => more_digits (acc * 10 + v) r
        | None => None
        end
  end.

Definition digits (b : bytes) : option Z :=
  match b with
  | c :: r =>
      match digit_val c with
      | Some v => more_digits v r
      | None => None
      end
  | [] => None
  end.

(** CPython refuses decimal strings of more than 4300 digits
    ([sys.int_info.default_max_str_digits]). *)
Definition max_str_digits : nat := 4300.

Definition count_digits (b : bytes) : nat :=
  length (filter (fun c => is_Some (digit_val c)) b).

(** [int(b)] on bytes, base ten: surrounding white space, an optional
    sign, digits with single underscores between them. [None] is
    [ValueError]. *)
Definition int (b : bytes) : option Z :=
  let body := strip b in
  let '(sign, ds) :=
    match body with
    | c :: r =>
        if decide (c = x2b) then (1, r)
        else if decide (c = x2d) then (-1, r)
        else (1, body)
    | [] => (1, body)
    end in
  if decide (max_str_digits < count_digits ds)%nat then None
  else match digits ds with
       | Some v => Some (sign * v)
       | None => None
       end.

Fixpoint uint_bytes (d : Decimal.uint) : bytes :=
  match d with
  | Nil => []
  | D0 r => x30 :: uint_bytes r
  | D1 r => x31 :: uint_bytes r
  | D2 r => x32 :: uint_bytes r
  | D3 r => x33 :: uint_bytes r
  | D4 r => x34 :: uint_bytes r
  | D5 r => x35 :: uint_bytes r
  | D6 r => x36 :: uint_bytes r
  | D7 r => x37 :: uint_bytes r
  | D8 r => x38 :: uint_bytes r
  | D9 r => x39 :: uint_bytes r
  end.

(** [str(n).encode()] for a non-negative [n]. *)
Definition str (n : nat) : bytes := uint_bytes (Nat.to_uint n).

(** [l[i] = v] with Python's negative indices; [None] is [IndexError]. *)
Definition setitem {A} (l : list A) (i : Z) (v : A) : option (list A) :=
  let n := Z.of_nat (length l) in
  if decide (0 <= i < n) then Some (<[Z.to_nat i := v]> l)
  else if decide (- n <= i < 0) then Some (<[Z.to_nat (n + i) := v]> l)
  else None.

(** [l.index(x)]; [None] is [ValueError]. *)
Fixpoint index (x : bytes) (l : list bytes) : option nat :=
  match l with
  | [] => None
  | y :: r =>
      if decide (y = x) then Some O
      else match index x r with
           | Some i => Some (S i)
           | None => None
           end
  end.

(** [re.split(br'(\\?.)', data)]: the pattern is an optional backslash
    followed by one byte that is not a line feed ([.] without DOTALL), so
    a backslash before a line feed or at the end matches alone and a line
    feed is never matched; the result alternates the text between matches
    ([pending], here only line feeds) with the matched groups. *)
Fixpoint re_split (pending : bytes) (data : bytes) : list bytes :=
  match data with
  | [] => [pending]
  | c :: rest =>
      if decide (c = LF) then re_split (pending ++ [c]) rest
      else if decide (c = BACKSLASH) then
        match rest with
        | d :: rest' =>
            if decide (d = LF) then pending :: [c] :: re_split [] rest
            else pending :: [c; d] :: re_split [] rest'
        | [] => pending :: [c] :: re_split [] rest
        end
      else pending :: [c] :: re_split [] rest
  end.

End Py.

(** [[x for x in re.split(br'(\\?.)', data) if x]] *)
Definition split_data (data : bytes) : list bytes :=
  filter (fun x => x <> EMPTY) (Py.re_split [] data).

(** ** Sessions *)

Definition Addr : Type := (string * Z)%type.     (* tuple[str, int] *)

(** A datagram handed to [transport.sendto]. *)
Definition packet : Type := (bytes * Addr)%type.

(** The dataclass [Session]. Its [transport] field is the one datagram
    endpoint of the process; what a session sends through it is collected
    with what the engine sends. *)
Record Session := mkSession {
  id : bytes;
  addr : Addr;
  data : list bytes;
  cursor : nat;
  send_cursor : nat;
  acked_until : Z;
  is_closed : bool;
  send_buffer : list bytes
}.

(** [Session(session_id, transport, addr)] with the dataclass defaults. *)
Definition new_session (session_id : bytes) (a : Addr) : Session :=
  mkSession session_id a [] 0 0 0 false [].

Definition set_data (d : list bytes) (s : Session) : Session :=
  mkSession (id s) (addr s) d (cursor s) (send_cursor s) (acked_until s)
            (is_closed s) (send_buffer s).
Definition set_cursor (c : nat) (s : Session) : Session :=
  mkSession (id s) (addr s) (data s) c (send_cursor s) (acked_until s)
            (is_closed s) (send_buffer s).
Definition set_send_cursor (c : nat) (s : Session) : Session :=
  mkSession (id s) (addr s) (data s) (cursor s) c (acked_until s)
            (is_closed s) (send_buffer s).
Definition set_acked_until (n : Z) (s : Session) : Session :=
  mkSession (id s) (addr s) (data s) (cursor s) (send_cursor s) n
            (is_closed s) (send_buffer s).
Definition set_is_closed (b : bool) (s : Session) : Session :=
  mkSession (id s) (addr s) (data s) (cursor s) (send_cursor s)
            (acked_until s) b (send_buffer s).
Definition set_send_buffer (b : list bytes) (s : Session) : Session :=
  mkSession (id s) (addr s) (data s) (cursor s) (send_cursor s)
            (acked_until s) (is_closed s) b.

(** The loop of [add_data]: [self.data[i] = data[i - pos]] for [i] from
    [pos] on; the first failing assignment raises [IndexError]. *)
Fixpoint write_all (buf : list bytes) (i : Z) (toks : list bytes)
  : list bytes * option Py.exn :=
  match toks with
  | [] => (buf, None)
  | t :: rest =>
      match Py.setitem buf i t with
      | Some buf' => write_all buf' (i + 1) rest
      | None => (buf, Some Py.IndexError)
      end
  end.

(** [Session.add_data]: pad with empty slots up to [pos + len(data)]
    (a count of zero or less pads nothing), then write the tokens. The
    padding line raises before anything is written when the count is not
    index-sized ([OverflowError]) or the padded list would exceed what the
    interpreter builds ([MemoryError]); the session is then as it was.
    A host that runs out of memory below that limit raises the same
    [MemoryError] at the same line; the model has the interpreter's own
    limit only. *)
Definition add_data (pos : Z) (toks : list bytes) (s : Session)
  : Session * option Py.exn :=
  let new_max_size := pos + Z.of_nat (length toks) in
  match Py.repeat (new_max_size - Z.of_nat (length (data s))) EMPTY with
  | inl x => (s, Some x)
  | inr pad =>
      match Py.iadd (data s) pad with
      | inl x => (s, Some x)
      | inr padded =>
          let '(buf, e) := write_all padded pos toks in
          (set_data buf s, e)
      end
  end.

(** The pair [add_data] returns once the padding line has gone through. *)
Definition written (p : Z) (toks : list bytes) (s : Session)
  : Session * option Py.exn :=
  let pad := Z.to_nat (p + Z.of_nat (length toks) - Z.of_nat (length (data s))) in
  let w := write_all (data s ++ replicate pad EMPTY) p toks in
  (set_data (fst w) s, snd w).

(** A list the interpreter can hold. *)
Definition fits {A} (l : list A) : Prop :=
  Z.of_nat (length l) <= Py.max_list_len.

Definition CHUNK_SIZE : nat := 512.

(** The chunks [iter(lambda: tuple(islice(it, n)), ())] yields, each with
    the running [cursor]; the iteration stops at the first empty chunk.
    [fuel] bounds the number of chunks. *)
Fixpoint chunks (fuel : nat) (n : nat) (cur : nat) (it : list bytes)
  : list (nat * list bytes) :=
  match fuel with
  | O => []
  | S f =>
      match take n it with
      | [] => []
      | sl => (cur, sl) :: chunks f n (cur + n) (drop n it)
      end
  end.

(** The datagram [send_data] builds for one chunk. *)
Definition data_datagram (sid : bytes) (cur : nat) (sl : list bytes) : bytes :=
  P_DATA ++ sid ++ B_SLASH ++ Py.str cur ++ B_SLASH ++ concat sl ++ B_SLASH.

(** [Session.send_data]: the datagrams sent, in order. *)
Definition send_data (s : Session) : list packet :=
  if is_closed s then []
  else
    map (fun '(cur, sl) => (data_datagram (id s) cur sl, addr s))
        (chunks (S (length (send_buffer s))) CHUNK_SIZE 0 (send_buffer s)).

(** One iteration of the loop of [handle_data] at index [i]. *)
Definition handle_index (acc : Session * list packet) (i : nat)
  : Session * list packet :=
  let '(s, out) := acc in
  if decide (data s !! i = Some NEWLINE) then
    let line := Py.slice (cursor s) i (data s) in
    let s1 := set_send_buffer (send_buffer s ++ rev line) s in
    let s2 := set_send_buffer (send_buffer s1 ++ [NEWLINE]) s1 in
    let out' := out ++ send_data s2 in
    let s3 := set_cursor (i + 1) s2 in
    let s4 := set_send_cursor (send_cursor s3 + length line + 1) s3 in
    (s4, out')
  else (s, out).

(** [Session.handle_data]; [range(self.cursor, len(self.data))] is fixed
    when the loop starts. *)
Definition handle_data (s : Session) : Session * list packet :=
  if decide (EMPTY ∈ data s) then (s, [])
  else
    foldl handle_index (s, [])
          (seq (cursor s) (length (data s) - cursor s)).

(** ** The session table *)

Definition Sessions : Type := list (bytes * Session).

(** [sessions[k]], [None] when [k not in sessions]. *)
Fixpoint lookup (k : bytes) (t : Sessions) : option Session :=
  match t with
  | [] => None
  | (k', s) :: r => if decide (k' = k) then Some s else lookup k r
  end.

(** The session object under [k] after a mutation: the entry is replaced
    in place and keeps its rank. *)
Fixpoint store (k : bytes) (s : Session) (t : Sessions) : Sessions :=
  match t with
  | [] => []
  | (k', s') :: r =>
      if decide (k' = k) then (k', s) :: r else (k', s') :: store k s r
  end.

(** [sessions[k] = s] for a key that is absent: a new last entry. *)
Definition insert_new (k : bytes) (s : Session) (t : Sessions) : Sessions :=
  t ++ [(k, s)].

(** [maybe_retransmit]: the datagrams one tick of the timer sends. *)
Definition maybe_retransmit (t : Sessions) : list packet :=
  flat_map (fun '(_, s) => if is_closed s then [] else send_data s) t.

(** ** The protocol engine *)

(** What handling one datagram leaves behind: the session table, the
    datagrams sent (in order), and the exception if one escaped. *)
Record Outcome := mkOutcome {
  table : Sessions;
  sent : list packet;
  raised : option Py.exn
}.

Definition returns (t : Sessions) (out : list packet) : Outcome :=
  mkOutcome t out None.
Definition raises (e : Py.exn) (t : Sessions) (out : list packet) : Outcome :=
  mkOutcome t out (Some e).

Definition ack_datagram (sid : bytes) (n : nat) : bytes :=
  P_ACK ++ sid ++ B_SLASH ++ Py.str n ++ B_SLASH.
Definition ack0_datagram (sid : bytes) : bytes := P_ACK ++ sid ++ S_ZERO.
Definition close_datagram (sid : bytes) : bytes := P_CLOSE ++ sid ++ B_SLASH.

(** The branch [if msg_type == b'connect']. *)
Definition on_connect (rest : bytes) (a : Addr) (t : Sessions) : Outcome :=
  match Py.split SLASH 1 rest with
  | [session_id] =>
      match Py.int session_id with
      | None => raises Py.ValueError t []
      | Some n =>
          if decide (n > 2 ^ 31) then returns t []
          else
            let t' :=
              match lookup session_id t with
              | None => insert_new session_id (new_session session_id a) t
              | Some _ => t
              end in
            returns t' [(ack0_datagram session_id, a)]
      end
  | _ => raises Py.ValueError t []
  end.

(** The branch [if msg_type == b'data']. *)
Definition on_data (rest : bytes) (a : Addr) (t : Sessions) : Outcome :=
  match Py.split SLASH 2 rest with
  | [session_id; pos; payload] =>
      match lookup session_id t with
      | None => returns t [(close_datagram session_id, a)]
      | Some s =>
          if is_closed s then returns t [(close_datagram session_id, a)]
          else
            let toks := split_data payload in
            if decide (B_SLASH ∈ toks) then returns t []
            else
              match Py.int pos with
              | None => raises Py.ValueError t []
              | Some p =>
                  let '(s1, e) := add_data p toks s in
                  match e with
                  | Some x => raises x (store session_id s1 t) []
                  | None =>
                      let '(s2, out) := handle_data s1 in
                      let n :=
                        match Py.index EMPTY (data s2) with
                        | Some i => i
                        | None => length (data s2)
                        end in
                      returns (store session_id s2 t)
                              (out ++ [(ack_datagram session_id n, a)])
                  end
              end
      end
  | _ => raises Py.ValueError t []
  end.

(** The branch [if msg_type == b'close']. *)
Definition on_close (rest : bytes) (a : Addr) (t : Sessions) : Outcome :=
  match Py.split SLASH 1 rest with
  | [session_id] =>
      match lookup session_id t with
      | None => raises Py.KeyError t []
      | Some s =>
          let s1 := set_is_closed true s in
          let '(s2, out) := handle_data s1 in
          returns (store session_id s2 t)
                  (out ++ [(close_datagram session_id, a)])
      end
  | _ => raises Py.ValueError t []
  end.

(** The branch [if msg_type == b'ack']. *)
Definition on_ack (rest : bytes) (a : Addr) (t : Sessions) : Outcome :=
  match Py.split SLASH 2 rest with
  | [session_id; until] =>
      match lookup session_id t with
      | None => raises Py.KeyError t []
      | Some s =>
          match Py.int until with
          | None => raises Py.ValueError t []
          | Some n =>
              let s1 := set_acked_until n s in
              returns (store session_id s1 t)
                      (if decide (acked_until s1 > Z.of_nat (length (data s1)))
                       then [(close_datagram session_id, a)] else [])
          end
      end
  | _ => raises Py.ValueError t []
  end.

(** The four [if msg_type == ...] of [datagram_received]; an unknown
    kind falls through all of them. *)
Definition dispatch (msg_type rest : bytes) (a : Addr) (t : Sessions)
  : Outcome :=
  if decide (msg_type = B_CONNECT) then on_connect rest a t
  else if decide (msg_type = B_DATA) then on_data rest a t
  else if decide (msg_type = B_CLOSE) then on_close rest a t
  else if decide (msg_type = B_ACK) then on_ack rest a t
  else returns t [].

(** [LRCP.datagram_received]. *)
Definition datagram_received (dgram : bytes) (a : Addr) (t : Sessions)
  : Outcome :=
  match head dgram, last dgram with
  | Some first, Some final =>
      if decide (first <> SLASH \/ final <> SLASH) then returns t []
      else
        match Py.split SLASH 1 (Py.slice 1 (length dgram - 1) dgram) with
        | [msg_type; rest] => dispatch msg_type rest a t
        | _ => raises Py.ValueError t []
        end
  | _, _ => raises Py.IndexError t []
  end.

(** What reaches the engine: a datagram, or a tick of [retransmit_task].
    An exception that escapes [datagram_received] is reported by the event
    loop, which goes on with the table as the handler left it. *)
Inductive event :=
| Datagram (dgram : bytes) (a : Addr)
| Tick.

Definition step (t : Sessions) (e : event) : Sessions * list packet :=
  match e with
  | Datagram d a =>
      let o := datagram_received d a t in (table o, sent o)
  | Tick => (t, maybe_retransmit t)
  end.

(** The table and the datagrams sent after a trace of events. *)
Definition run (t : Sessions) (es : list event) : Sessions * list packet :=
  foldl (fun '(t, out) e => let '(t', o) := step t e in (t', out ++ o))
        (t, []) es.

(** ** Datagrams as the peer writes them *)

(** [/KIND/ARGS/] *)
Definition frame (kind args : bytes) : bytes :=
  B_SLASH ++ kind ++ B_SLASH ++ args ++ B_SLASH.

(** Two fields joined by a slash. *)
Definition join2 (x y : bytes) : bytes := x ++ B_SLASH ++ y.

Definition connect_msg (sid : bytes) : bytes := frame B_CONNECT sid.
Definition data_msg (sid pos payload : bytes) : bytes :=
  frame B_DATA (join2 sid (join2 pos payload)).
Definition ack_msg (sid len : bytes) : bytes := frame B_ACK (join2 sid len).
Definition close_msg (sid : bytes) : bytes := frame B_CLOSE sid.

(** A datagram is dropped: nothing is sent and the table is as before. *)
Definition dropped (o : Outcome) (t : Sessions) : Prop :=
  sent o = [] /\ table o = t.

(** ** Notions used in the statements *)

(** The bytes [int] can read: white space, a sign, an underscore, a digit. *)
Definition int_char (c : byte) : bool :=
  Py.is_space c || bool_decide (c = x2b) || bool_decide (c = x2d)
  || bool_decide (c = x5f) || bool_decide (is_Some (Py.digit_val c)).

(** The cumulative length a data datagram is acknowledged with. *)
Definition ack_length (buf : list bytes) : nat :=
  match Py.index EMPTY buf with
  | Some i => i
  | None => length buf
  end.

(** The fields line extraction never assigns. *)
Definition same_frame (s s' : Session) : Prop :=
  id s' = id s /\ addr s' = addr s /\ data s' = data s /\
  acked_until s' = acked_until s /\ is_closed s' = is_closed s.

(** The operations the engine applies to a session object: storing an ack
    position; closing and extracting lines; writing tokens, with or
    without the line extraction that follows a successful write. *)
Inductive session_step : Session -> Session -> Prop :=
| step_ack (n : Z) (s : Session) :
    session_step s (set_acked_until n s)
| step_close (s : Session) :
    session_step s (fst (handle_data (set_is_closed true s)))
| step_write_failed (p : Z) (toks : list bytes) (s s1 : Session) (x : Py.exn) :
    EMPTY ∉ toks -> add_data p toks s = (s1, Some x) -> session_step s s1
| step_data (p : Z) (toks : list bytes) (s s1 : Session) :
    EMPTY ∉ toks -> add_data p toks s = (s1, None) ->
    session_step s (fst (handle_data s1)).

(** The table after a datagram: the same, one session object changed in
    place, or one fresh session appended by a connect. *)
Inductive table_step (a : Addr) (t : Sessions) : Sessions -> Prop :=
| table_same : table_step a t t
| table_store (k : bytes) (s s' : Session) :
    lookup k t = Some s -> session_step s s' -> table_step a t (store k s' t)
| table_new (k : bytes) (n : Z) :
    lookup k t = None -> Py.int k = Some n ->
    table_step a t (insert_new k (new_session k a) t).

Create HintDb lrcp.
#[local] Hint Constructors session_step table_step : lrcp.

(** Every key of the table reads as a number. *)
Definition keys_numeric (t : Sessions) : Prop :=
  forall k s, lookup k t = Some s -> Py.int k <> None.

(** A datagram of one of the four kinds in which a field the grammar
    calls an integer (SESSION, POS, LENGTH) is not read by [int]: the
    "non-numeric integer argument" of the error taxonomy. *)
Inductive non_numeric_argument : bytes -> Prop :=
| nn_connect (sid : bytes) :
    Py.int sid = None -> non_numeric_argument (connect_msg sid)
| nn_data_session (sid pos payload : bytes) :
    Py.int sid = None -> non_numeric_argument (data_msg sid pos payload)
| nn_data_pos (sid pos payload : bytes) :
    Py.int pos = None -> non_numeric_argument (data_msg sid pos payload)
| nn_ack_session (sid len : bytes) :
    Py.int sid = None -> non_numeric_argument (ack_msg sid len)
| nn_ack_length (sid len : bytes) :
    Py.int len = None -> non_numeric_argument (ack_msg sid len)
| nn_close (sid : bytes) :
    Py.int sid = None -> non_numeric_argument (close_msg sid).

(** ** Line extraction as the specification words it *)

(** The index of the next [\n] slot at or after [from]. *)
Definition next_newline (from : nat) (buf : list bytes) : option nat :=
  match Py.index NEWLINE (drop from buf) with
  | Some k => Some (from + k)%nat
  | None => None
  end.

(** For the newline found at [i]: the run [[cursor, i)] is reversed and
    appended with a trailing [\n] to the outbound buffer, and the cursor
    moves past the newline. *)
Definition extract_line (i : nat) (s : Session) : Session :=
  let line := Py.slice (cursor s) i (data s) in
  mkSession (id s) (addr s) (data s) (i + 1)
            (send_cursor s + length line + 1) (acked_until s) (is_closed s)
            (send_buffer s ++ rev line ++ [NEWLINE]).

(** Scan for the next newline at or after the cursor, extract the line,
    deliver the outbound buffer, and repeat until no newline is found. *)
Fixpoint spec_extract_lines (fuel : nat) (s : Session) (out : list packet)
  : Session * list packet :=
  match fuel with
  | O => (s, out)
  | S f =>
      match next_newline (cursor s) (data s) with
      | None => (s, out)
      | Some i =>
          let s' := extract_line i s in
          spec_extract_lines f s' (out ++ send_data s')
      end
  end.

(** ** Decoding as the specification words it *)



(** ** Growth of a session *)

(** [buf'] is at least as long as [buf] and every slot filled in [buf] is
    filled in [buf']. *)
Definition filled_preserved (buf buf' : list bytes) : Prop :=
  (length buf <= length buf')%nat /\
  forall i x, buf !! i = Some x -> x <> EMPTY ->
              exists y, buf' !! i = Some y /\ y <> EMPTY.

(** Nothing of [s] regresses in [s']: the read cursor, the filled slots,
    the outbound buffer. *)
Definition grows (s s' : Session) : Prop :=
  (cursor s <= cursor s')%nat /\
  filled_preserved (data s) (data s') /\
  exists more, send_buffer s' = send_buffer s ++ more.

(** Line extraction has nothing left to do: the buffer has an empty slot,
    or no newline slot at or after the cursor. *)
Definition settled (s : Session) : Prop :=
  EMPTY ∈ data s \/ NEWLINE ∉ drop (cursor s) (data s).

Definition all_settled (t : Sessions) : Prop :=
  forall k s, lookup k t = Some s -> settled s.

(** Every buffer of the table is one the interpreter holds. *)
Definition all_fit (t : Sessions) : Prop :=
  forall k s, lookup k t = Some s -> fits (data s).

(** ** The line-reversal service on a stream *)

(** The output for an input stream: every newline-terminated line with its
    slots in reverse order, followed by its newline; an unterminated tail
    gives nothing. [acc] is the line read so far, reversed. *)
Fixpoint reverse_lines (acc : list bytes) (l : list bytes) : list bytes :=
  match l with
  | [] => []
  | x :: r =>
      if decide (x = NEWLINE) then acc ++ [NEWLINE] ++ reverse_lines [] r
      else reverse_lines (x :: acc) r
  end.

(** The tokens [toks] are what the stream holds from position [p] on. *)
Definition fragment_of (stream : list bytes) (p : nat) (toks : list bytes)
  : Prop :=
  (p + length toks <= length stream)%nat /\
  forall j tok, toks !! j = Some tok -> stream !! (p + j)%nat = Some tok.

(** A data message, as its POS and DATA fields, carries the fragment of
    the stream at [p]. *)
Definition carries (stream : list bytes) (m : bytes * bytes) (p : nat) : Prop :=
  Py.int (fst m) = Some (Z.of_nat p) /\
  fragment_of stream p (split_data (snd m)).

(** Every position of the stream is carried by some message. *)
Definition covered (stream : list bytes) (msgs : list (bytes * bytes)) : Prop :=
  forall i, (i < length stream)%nat ->
    exists m p, m ∈ msgs /\ carries stream m p /\
                (p <= i < p + length (split_data (snd m)))%nat.

(** The outbound buffer [sb] is the output for the first [c] slots of the
    stream, and those end a line. *)
Definition at_boundary (stream : list bytes) (c : nat) (sb : list bytes)
  : Prop :=
  forall r, reverse_lines [] (take c stream ++ r) = sb ++ reverse_lines [] r.

(** An open session that has received fragments of [stream] only. *)
Definition tracks (stream : list bytes) (s : Session) : Prop :=
  (length (data s) <= length stream)%nat /\
  (forall i x, data s !! i = Some x -> x <> EMPTY -> stream !! i = Some x) /\
  (cursor s <= length (data s))%nat /\
  at_boundary stream (cursor s) (send_buffer s) /\
  settled s /\ is_closed s = false.

(** What an accepted data datagram does to the open session it names:
    the write, then line extraction. *)
Definition deliver (p : nat) (toks : list bytes) (s : Session) : Session :=
  fst (handle_data (fst (add_data (Z.of_nat p) toks s))).

(** The data datagrams of a list of messages for one session. *)
Definition data_events (sid : bytes) (a : Addr) (msgs : list (bytes * bytes))
  : list event :=
  map (fun m => Datagram (data_msg sid (fst m) (snd m)) a) msgs.

(** ** Further notions *)

(** The bookkeeping of a session agrees: the read cursor, the count of
    slots sent and the length of the outbound buffer are one number, inside
    the reassembly buffer. *)
Definition balanced (s : Session) : Prop :=
  cursor s = send_cursor s /\
  send_cursor s = length (send_buffer s) /\
  (cursor s <= length (data s))%nat.

(** What one datagram can do to a session that is already closed: nothing,
    store an ack position, or close it again. *)
Definition closed_step (s s' : Session) : Prop :=
  s' = s \/ (exists n, s' = set_acked_until n s) \/
  s' = fst (handle_data (set_is_closed true s)).

(** The peer's escaping of one logical byte: a slash or a backslash
    travels behind a backslash. *)
Definition escape_byte (c : byte) : bytes :=
  if decide (c = SLASH \/ c = BACKSLASH) then [BACKSLASH; c] else [c].

(** The escaped payload of a run of logical bytes. *)
Definition escape (l : bytes) : bytes := concat (map escape_byte l).

(** No two line feeds next to each other. *)
Definition no_adjacent_lf (l : bytes) : Prop :=
  forall i, l !! i = Some LF -> l !! S i <> Some LF.

(** ** The service on bytes *)

(** Line reversal on the bytes of a stream: the bytes up to each line
    feed, in reverse order, followed by a line feed; what follows the last
    line feed gives nothing yet. [line] is the line read so far. *)
Fixpoint spec_reverse_bytes (line : bytes) (input : bytes) : bytes :=
  match input with
  | [] => []
  | c :: rest =>
      if decide (c = LF) then rev line ++ [LF] ++ spec_reverse_bytes [] rest
      else spec_reverse_bytes (line ++ [c]) rest
  end.

(** Delivery on the bytes of the outbound buffer: pieces of [n] bytes, each
    with the index of its first byte. [fuel] bounds the number of
    pieces. *)
Fixpoint spec_pieces (fuel n off : nat) (out : bytes) : list (nat * bytes) :=
  match fuel with
  | O => []
  | S f =>
      match out with
      | [] => []
      | _ :: _ => (off, take n out) :: spec_pieces f n (off + n)%nat (drop n out)
      end
  end.

(** ** Splitting and framing *)

Lemma partition_app (sep : byte) (p q : bytes) :
  sep ∉ p -> Py.partition sep (p ++ sep :: q) = Some (p, q).
Proof.
  induction p as [|c p IH]; intros Hp; simpl.
  - destruct (decide (sep = sep)); [reflexivity|contradiction].
  - apply not_elem_of_cons in Hp as [Hc Hp].
    destruct (decide (c = sep)) as [->|_]; [contradiction|].
    now rewrite (IH Hp).
Qed.

Lemma partition_none (sep : byte) (b : bytes) :
  sep ∉ b -> Py.partition sep b = None.
Proof.
  induction b as [|c b IH]; intros Hb; simpl; [reflexivity|].
  apply not_elem_of_cons in Hb as [Hc Hb].
  destruct (decide (c = sep)) as [->|_]; [contradiction|].
  now rewrite (IH Hb).
Qed.

Lemma partition_some (sep : byte) (b p q : bytes) :
  Py.partition sep b = Some (p, q) -> b = p ++ sep :: q /\ sep ∉ p.
Proof.
  revert p q; induction b as [|c b IH]; intros p q; simpl; [discriminate|].
  destruct (decide (c = sep)) as [->|Hc].
  - intros [= <- <-]. split; [reflexivity|apply not_elem_of_nil].
  - destruct (Py.partition sep b) as [[p' q']|] eqn:E; [|discriminate].
    intros [= <- <-]. destruct (IH _ _ eq_refl) as [-> Hp].
    split; [reflexivity|]. apply not_elem_of_cons. split; [congruence|assumption].
Qed.

Lemma split1_fields (x y : bytes) :
  SLASH ∉ x -> Py.split SLASH 1 (join2 x y) = [x; y].
Proof.
  intros Hx. unfold join2, B_SLASH. simpl.
  now rewrite (partition_app SLASH x y Hx).
Qed.

Lemma split1_single (x : bytes) :
  SLASH ∉ x -> Py.split SLASH 1 x = [x].
Proof. intros Hx. simpl. now rewrite (partition_none SLASH x Hx). Qed.

Lemma split2_fields2 (x y : bytes) :
  SLASH ∉ x -> SLASH ∉ y -> Py.split SLASH 2 (join2 x y) = [x; y].
Proof.
  intros Hx Hy. unfold join2, B_SLASH. simpl.
  rewrite (partition_app SLASH x y Hx).
  now rewrite (partition_none SLASH y Hy).
Qed.

Lemma split2_fields3 (x y z : bytes) :
  SLASH ∉ x -> SLASH ∉ y ->
  Py.split SLASH 2 (join2 x (join2 y z)) = [x; y; z].
Proof.
  intros Hx Hy. unfold join2, B_SLASH. simpl.
  rewrite (partition_app SLASH x _ Hx).
  now rewrite (partition_app SLASH y z Hy).
Qed.

(** A framed datagram reaches the branch of its kind with its arguments. *)
Lemma frame_received (kind args : bytes) (a : Addr) (t : Sessions) :
  SLASH ∉ kind ->
  datagram_received (frame kind args) a t = dispatch kind args a t.
Proof.
  intros Hk. unfold datagram_received, frame, B_SLASH.
  assert (Hl : last ([SLASH] ++ kind ++ [SLASH] ++ args ++ [SLASH]) = Some SLASH).
  { replace ([SLASH] ++ kind ++ [SLASH] ++ args ++ [SLASH])
      with (([SLASH] ++ kind ++ [SLASH] ++ args) ++ [SLASH])
      by (now rewrite <- !app_assoc).
    apply last_snoc. }
  rewrite Hl. simpl head.
  destruct (decide (SLASH <> SLASH \/ SLASH <> SLASH)) as [[H|H]|_];
    [congruence|congruence|].
  assert (Hs : Py.slice 1 (length ([SLASH] ++ kind ++ [SLASH] ++ args ++ [SLASH]) - 1)
                 ([SLASH] ++ kind ++ [SLASH] ++ args ++ [SLASH])
               = join2 kind args).
  { unfold Py.slice, join2, B_SLASH.
    replace ([SLASH] ++ kind ++ [SLASH] ++ args ++ [SLASH])
      with (([SLASH] ++ kind ++ [SLASH] ++ args) ++ [SLASH])
      by (now rewrite <- !app_assoc).
    rewrite length_app. simpl length at 2.
    replace (length ([SLASH] ++ kind ++ [SLASH] ++ args) + 1 - 1)%nat
      with (length ([SLASH] ++ kind ++ [SLASH] ++ args)) by lia.
    rewrite take_app_length. reflexivity. }
  rewrite Hs, (split1_fields kind args Hk). reflexivity.
Qed.

(** ** What [int] accepts *)

Lemma more_digits_chars (n : nat) :
  forall b acc v, (length b <= n)%nat ->
    Py.more_digits acc b = Some v -> Forall (fun c => int_char c = true) b.
Proof.
  induction n as [|n IH]; intros [|c r] acc v Hlen; simpl; intros H;
    try constructor; simpl in Hlen; try lia.
  - destruct (decide (c = x5f)) as [->|Hc]; [reflexivity|].
    destruct (Py.digit_val c) eqn:Hd; [|discriminate].
    unfold int_char. rewrite Hd.
    rewrite (bool_decide_eq_true_2 (is_Some (Some z))) by eauto.
    now rewrite !orb_true_r.
  - destruct (decide (c = x5f)) as [->|Hc].
    + destruct r as [|d r']; [discriminate|].
      destruct (Py.digit_val d) eqn:Hd; [|discriminate].
      constructor.
      * unfold int_char. rewrite Hd.
        rewrite (bool_decide_eq_true_2 (is_Some (Some z))) by eauto.
        now rewrite !orb_true_r.
      * eapply IH; [|exact H]. simpl in Hlen; lia.
    + destruct (Py.digit_val c) eqn:Hd; [|discriminate].
      eapply IH; [|exact H]. lia.
Qed.

Lemma lstrip_chars (b : bytes) :
  Forall (fun c => int_char c = true) (Py.lstrip b) ->
  Forall (fun c => int_char c = true) b.
Proof.
  induction b as [|c r IH]; simpl; [trivial|].
  destruct (Py.is_space c) eqn:Hs; [|trivial].
  intros H. constructor; [|now apply IH].
  unfold int_char. now rewrite Hs.
Qed.

Lemma digits_chars (ds : bytes) (v : Z) :
  Py.digits ds = Some v -> Forall (fun c => int_char c = true) ds.
Proof.
  destruct ds as [|d ds]; simpl; [discriminate|].
  destruct (Py.digit_val d) eqn:Hd; [|discriminate].
  intros Hm. constructor.
  - unfold int_char. rewrite Hd.
    rewrite (bool_decide_eq_true_2 (is_Some (Some z))) by eauto.
    now rewrite !orb_true_r.
  - now apply (more_digits_chars (length ds) ds z v).
Qed.

Lemma int_chars (b : bytes) (n : Z) :
  Py.int b = Some n -> Forall (fun c => int_char c = true) b.
Proof.
  unfold Py.int. intros H.
  assert (Hbody : Forall (fun c => int_char c = true) (Py.strip b)).
  { revert H. destruct (Py.strip b) as [|c r] eqn:Eb; [simpl; discriminate|].
    destruct (decide (c = x2b)) as [->|H1];
      [|destruct (decide (c = x2d)) as [->|H2]];
      case_decide; try discriminate.
    - destruct (Py.digits r) eqn:Hd; [|discriminate].
      intros _. constructor; [reflexivity|]. eapply digits_chars; eauto.
    - destruct (Py.digits r) eqn:Hd; [|discriminate].
      intros _. constructor; [reflexivity|]. eapply digits_chars; eauto.
    - destruct (Py.digits (c :: r)) eqn:Hd; [|discriminate].
      intros _. eapply digits_chars; eauto. }
  unfold Py.strip in Hbody.
  apply lstrip_chars.
  apply Forall_rev in Hbody. rewrite rev_involutive in Hbody.
  apply lstrip_chars in Hbody.
  apply Forall_rev in Hbody. now rewrite rev_involutive in Hbody.
Qed.

(** A field that [int] reads holds no slash. *)
Lemma int_no_slash (b : bytes) (n : Z) : Py.int b = Some n -> SLASH ∉ b.
Proof.
  intros H Hin. apply int_chars in H.
  rewrite Forall_forall in H. specialize (H SLASH Hin).
  vm_compute in H. discriminate.
Qed.

(** ** The table *)

Lemma lookup_store_eq (k : bytes) (s s0 : Session) (t : Sessions) :
  lookup k t = Some s0 -> lookup k (store k s t) = Some s.
Proof.
  induction t as [|[k' s'] r IH]; simpl; [discriminate|].
  destruct (decide (k' = k)) as [->|Hk]; simpl.
  - intros _. destruct (decide (k = k)); [reflexivity|contradiction].
  - intros H. destruct (decide (k' = k)); [contradiction|]. now apply IH.
Qed.

Lemma lookup_store_ne (k k2 : bytes) (s : Session) (t : Sessions) :
  k <> k2 -> lookup k2 (store k s t) = lookup k2 t.
Proof.
  intros Hne. induction t as [|[k' s'] r IH]; simpl; [reflexivity|].
  destruct (decide (k' = k)) as [->|Hk]; simpl.
  - destruct (decide (k = k2)); [contradiction|reflexivity].
  - destruct (decide (k' = k2)); [reflexivity|exact IH].
Qed.

Lemma store_same (k : bytes) (s : Session) (t : Sessions) :
  lookup k t = Some s -> store k s t = t.
Proof.
  induction t as [|[k' s'] r IH]; simpl; [reflexivity|].
  destruct (decide (k' = k)) as [->|Hk].
  - now intros [= ->].
  - intros H. now rewrite IH.
Qed.

Lemma lookup_insert_new (k k2 : bytes) (s : Session) (t : Sessions) :
  lookup k2 (insert_new k s t)
  = match lookup k2 t with
    | Some x => Some x
    | None => if decide (k = k2) then Some s else None
    end.
Proof.
  unfold insert_new. induction t as [|[k' s'] r IH]; simpl; [reflexivity|].
  destruct (decide (k' = k2)); [reflexivity|exact IH].
Qed.

(** ** Dispatch on the message kind *)

Lemma kind_no_slash :
  (SLASH ∉ B_CONNECT) /\ (SLASH ∉ B_DATA) /\ (SLASH ∉ B_CLOSE) /\ (SLASH ∉ B_ACK).
Proof. repeat split; apply (bool_decide_unpack _); vm_compute; exact I. Qed.

Lemma connect_dispatch (sid : bytes) (a : Addr) (t : Sessions) :
  datagram_received (connect_msg sid) a t = on_connect sid a t.
Proof.
  unfold connect_msg. rewrite frame_received by apply kind_no_slash.
  unfold dispatch. destruct (decide (B_CONNECT = B_CONNECT)); [reflexivity|contradiction].
Qed.

Lemma data_dispatch (rest : bytes) (a : Addr) (t : Sessions) :
  datagram_received (frame B_DATA rest) a t = on_data rest a t.
Proof.
  rewrite frame_received by apply kind_no_slash.
  unfold dispatch.
  destruct (decide (B_DATA = B_CONNECT)) as [E|_]; [discriminate E|].
  destruct (decide (B_DATA = B_DATA)); [reflexivity|contradiction].
Qed.

Lemma close_dispatch (sid : bytes) (a : Addr) (t : Sessions) :
  datagram_received (close_msg sid) a t = on_close sid a t.
Proof.
  unfold close_msg. rewrite frame_received by apply kind_no_slash.
  unfold dispatch.
  destruct (decide (B_CLOSE = B_CONNECT)) as [E|_]; [discriminate E|].
  destruct (decide (B_CLOSE = B_DATA)) as [E|_]; [discriminate E|].
  destruct (decide (B_CLOSE = B_CLOSE)); [reflexivity|contradiction].
Qed.

Lemma ack_dispatch (rest : bytes) (a : Addr) (t : Sessions) :
  datagram_received (frame B_ACK rest) a t = on_ack rest a t.
Proof.
  rewrite frame_received by apply kind_no_slash.
  unfold dispatch.
  destruct (decide (B_ACK = B_CONNECT)) as [E|_]; [discriminate E|].
  destruct (decide (B_ACK = B_DATA)) as [E|_]; [discriminate E|].
  destruct (decide (B_ACK = B_CLOSE)) as [E|_]; [discriminate E|].
  destruct (decide (B_ACK = B_ACK)); [reflexivity|contradiction].
Qed.

(** ** Connect *)

(** What a connect with a readable session id does. *)
Lemma connect_received (sid : bytes) (n : Z) (a : Addr) (t : Sessions) :
  Py.int sid = Some n ->
  datagram_received (connect_msg sid) a t
  = if decide (n > 2 ^ 31) then returns t []
    else returns
           match lookup sid t with
           | None => insert_new sid (new_session sid a) t
           | Some _ => t
           end
           [(ack0_datagram sid, a)].
Proof.
  intros Hn. rewrite connect_dispatch. unfold on_connect.
  rewrite (split1_single sid (int_no_slash sid n Hn)), Hn. reflexivity.
Qed.

(** C7: a connect whose session id is in bounds is answered with
    [/ack/SESSION/0/] whether or not the session exists; an existing session
    is left exactly as it was (the table is unchanged), an absent one is
    created fresh as the last entry; connecting again changes nothing and
    gets the same answer. *)
Theorem C7_connect_acks_and_is_idempotent
  (sid : bytes) (n : Z) (a a' : Addr) (t : Sessions) :
  Py.int sid = Some n -> 0 <= n < 2 ^ 31 ->
  let o := datagram_received (connect_msg sid) a t in
  sent o = [(P_ACK ++ sid ++ S_ZERO, a)] /\ raised o = None /\
  (forall s, lookup sid t = Some s -> table o = t) /\
  (lookup sid t = None -> table o = t ++ [(sid, new_session sid a)]) /\
  (exists s, lookup sid (table o) = Some s) /\
  datagram_received (connect_msg sid) a' (table o)
  = returns (table o) [(P_ACK ++ sid ++ S_ZERO, a')].
Proof.
  intros Hn Hb o. subst o.
  rewrite !(connect_received sid n _ _ Hn).
  destruct (decide (n > 2 ^ 31)) as [Hgt|_]; [lia|].
  simpl. repeat split.
  - intros s Hs. now rewrite Hs.
  - intros Hs. now rewrite Hs.
  - destruct (lookup sid t) as [s|] eqn:Hs; [eauto|].
    exists (new_session sid a). rewrite lookup_insert_new, Hs.
    destruct (decide (sid = sid)); [reflexivity|contradiction].
  - destruct (lookup sid t) as [s|] eqn:Hs.
    + now rewrite Hs.
    + rewrite lookup_insert_new, Hs.
      destruct (decide (sid = sid)); [reflexivity|contradiction].
Qed.

Lemma C7_connect_witness :
  let sid := bs "12345" in
  let a : Addr := ("10.0.0.1"%string, 4000) in
  let o := datagram_received (connect_msg sid) a [] in
  sent o = [(bs "/ack/12345/0/", a)] /\
  datagram_received (connect_msg sid) a (table o)
  = returns (table o) [(bs "/ack/12345/0/", a)].
Proof.
  intros sid a o.
  destruct (C7_connect_acks_and_is_idempotent sid 12345 a a [])
    as (Hs & _ & _ & _ & _ & Hr); [reflexivity|lia|].
  split; [exact Hs|exact Hr].
Defined.

(** C4, at the bound: a connect whose session id is exactly 2^31 is not
    ignored; the comparison is [>], so the session is created and
    acknowledged. Negative ids pass the same comparison. *)
Theorem C4_connect_at_bound_creates_session (a : Addr) :
  let sid := bs "2147483648" in
  Py.int sid = Some (2 ^ 31) /\
  datagram_received (connect_msg sid) a []
  = returns [(sid, new_session sid a)] [(bs "/ack/2147483648/0/", a)] /\
  datagram_received (connect_msg (bs "-1")) a []
  = returns [(bs "-1", new_session (bs "-1") a)] [(bs "/ack/-1/0/", a)] /\
  dropped (datagram_received (connect_msg (bs "2147483649")) a []) [].
Proof. vm_compute. repeat split. Qed.

(** ** Ack *)

(** What an ack for a known session with a readable length does. *)
Lemma ack_received (sid len : bytes) (n : Z) (s : Session) (a : Addr)
  (t : Sessions) :
  SLASH ∉ sid -> Py.int len = Some n -> lookup sid t = Some s ->
  datagram_received (ack_msg sid len) a t
  = returns (store sid (set_acked_until n s) t)
            (if decide (n > Z.of_nat (length (data s)))
             then [(close_datagram sid, a)] else []).
Proof.
  intros Hsid Hn Hs. unfold ack_msg. rewrite ack_dispatch. unfold on_ack.
  rewrite (split2_fields2 sid len Hsid (int_no_slash len n Hn)), Hs, Hn.
  reflexivity.
Qed.

(** C1, at a session that received [hi] and has produced no output: an ack
    claiming one byte exceeds the zero bytes ever placed in the outbound
    buffer, yet no close is sent, because the claimed length is compared
    with the length of the reassembly buffer (two slots), not with the
    outbound one. The ack position is stored and the closed flag stays. *)
Theorem C1_ack_beyond_outbound_gets_no_close (a : Addr) :
  let t := fst (run [] [Datagram (connect_msg (bs "1")) a;
                        Datagram (data_msg (bs "1") (bs "0") (bs "hi")) a]) in
  exists s,
    lookup (bs "1") t = Some s /\
    send_buffer s = [] /\ send_cursor s = 0%nat /\ length (data s) = 2%nat /\
    datagram_received (ack_msg (bs "1") (bs "1")) a t
    = returns (store (bs "1") (set_acked_until 1 s) t) [] /\
    datagram_received (ack_msg (bs "1") (bs "3")) a t
    = returns (store (bs "1") (set_acked_until 3 s) t)
              [(bs "/close/1/", a)].
Proof. vm_compute. eexists. repeat split. Qed.

(** ** Data *)

(** A data datagram for a session that is absent or closed is answered
    with a close, whatever its other fields hold. *)
Lemma data_unknown_received (sid pos payload : bytes) (a : Addr) (t : Sessions) :
  SLASH ∉ sid -> SLASH ∉ pos ->
  (lookup sid t = None \/ exists s, lookup sid t = Some s /\ is_closed s = true) ->
  datagram_received (data_msg sid pos payload) a t
  = returns t [(close_datagram sid, a)].
Proof.
  intros Hsid Hpos Hs. unfold data_msg. rewrite data_dispatch. unfold on_data.
  rewrite (split2_fields3 sid pos payload Hsid Hpos).
  destruct Hs as [->|(s & -> & ->)]; reflexivity.
Qed.

(** A data datagram for an open session whose payload has no bare slash
    and whose position is readable. *)
Lemma data_open_received (sid pos payload : bytes) (p : Z) (s : Session)
  (a : Addr) (t : Sessions) :
  SLASH ∉ sid -> Py.int pos = Some p ->
  lookup sid t = Some s -> is_closed s = false ->
  B_SLASH ∉ split_data payload ->
  datagram_received (data_msg sid pos payload) a t
  = match add_data p (split_data payload) s with
    | (s1, Some x) => raises x (store sid s1 t) []
    | (s1, None) =>
        returns (store sid (fst (handle_data s1)) t)
                (snd (handle_data s1)
                 ++ [(ack_datagram sid (ack_length (data (fst (handle_data s1)))), a)])
    end.
Proof.
  intros Hsid Hp Hs Hopen Htok. unfold data_msg. rewrite data_dispatch.
  unfold on_data.
  rewrite (split2_fields3 sid pos payload Hsid (int_no_slash pos p Hp)), Hs, Hopen.
  destruct (decide (B_SLASH ∈ split_data payload)); [contradiction|].
  rewrite Hp. destruct (add_data p (split_data payload) s) as [s1 [x|]];
    [reflexivity|].
  destruct (handle_data s1) as [s2 out]. reflexivity.
Qed.

(** C10: the table is keyed by the text of the SESSION field. For two
    different texts that read as the same number, a connect under the first
    creates an entry the second does not find: data under the second text is
    answered with a close and changes nothing, and a connect under the
    second text adds a second, separate entry. *)
Theorem C10_session_key_is_the_text
  (sid1 sid2 pos payload : bytes) (n : Z) (a : Addr) (t : Sessions) :
  Py.int sid1 = Some n -> Py.int sid2 = Some n -> 0 <= n < 2 ^ 31 ->
  sid1 <> sid2 -> SLASH ∉ pos ->
  lookup sid1 t = None -> lookup sid2 t = None ->
  let t1 := table (datagram_received (connect_msg sid1) a t) in
  let t2 := table (datagram_received (connect_msg sid2) a t1) in
  lookup sid1 t1 = Some (new_session sid1 a) /\
  lookup sid2 t1 = None /\
  datagram_received (data_msg sid2 pos payload) a t1
  = returns t1 [(close_datagram sid2, a)] /\
  lookup sid1 t2 = Some (new_session sid1 a) /\
  lookup sid2 t2 = Some (new_session sid2 a) /\
  length t2 = S (S (length t)).
Proof.
  intros H1 H2 Hb Hne Hpos Hl1 Hl2 t1 t2.
  assert (Et1 : t1 = insert_new sid1 (new_session sid1 a) t).
  { subst t1. rewrite (connect_received sid1 n a t H1).
    destruct (decide (n > 2 ^ 31)); [lia|]. simpl. now rewrite Hl1. }
  assert (L11 : lookup sid1 t1 = Some (new_session sid1 a)).
  { rewrite Et1, lookup_insert_new, Hl1.
    destruct (decide (sid1 = sid1)); [reflexivity|contradiction]. }
  assert (L21 : lookup sid2 t1 = None).
  { rewrite Et1, lookup_insert_new, Hl2.
    destruct (decide (sid1 = sid2)); [contradiction|reflexivity]. }
  assert (Et2 : t2 = insert_new sid2 (new_session sid2 a) t1).
  { subst t2. rewrite (connect_received sid2 n a t1 H2).
    destruct (decide (n > 2 ^ 31)); [lia|]. simpl. now rewrite L21. }
  repeat split; try assumption.
  - apply data_unknown_received; [exact (int_no_slash sid2 n H2)|exact Hpos|].
    now left.
  - now rewrite Et2, lookup_insert_new, L11.
  - rewrite Et2, lookup_insert_new, L21.
    destruct (decide (sid2 = sid2)); [reflexivity|contradiction].
  - rewrite Et2, Et1. unfold insert_new. rewrite !length_app. simpl. lia.
Qed.

Lemma C10_session_key_witness :
  let a : Addr := ("10.0.0.1"%string, 4000) in
  let t1 := table (datagram_received (bs "/connect/7/") a []) in
  lookup (bs "7") t1 = Some (new_session (bs "7") a) /\
  datagram_received (bs "/data/07/0/x/") a t1
  = returns t1 [(bs "/close/07/", a)].
Proof.
  intros a t1.
  destruct (C10_session_key_is_the_text (bs "7") (bs "07") (bs "0") (bs "x")
              7 a [])
    as (Hl & _ & Hd & _); try reflexivity; try lia.
  - discriminate.
  - apply (bool_decide_unpack _). vm_compute. exact I.
  - split; [exact Hl|exact Hd].
Defined.

(** The same with a sign: [+7] and [7] are different sessions. *)
Example session_key_plus_sign :
  let a : Addr := ("10.0.0.1"%string, 4000) in
  let t1 := table (datagram_received (bs "/connect/+7/") a []) in
  Py.int (bs "+7") = Py.int (bs "7") /\
  datagram_received (bs "/data/7/0/x/") a t1
  = returns t1 [(bs "/close/7/", a)].
Proof. vm_compute. split; reflexivity. Qed.

(** ** Line extraction keeps the rest of the session *)

Lemma same_frame_refl (s : Session) : same_frame s s.
Proof. unfold same_frame; tauto. Qed.

Lemma same_frame_trans (s1 s2 s3 : Session) :
  same_frame s1 s2 -> same_frame s2 s3 -> same_frame s1 s3.
Proof. unfold same_frame; intuition congruence. Qed.

Lemma handle_index_frame (acc : Session * list packet) (i : nat) :
  same_frame (fst acc) (fst (handle_index acc i)).
Proof.
  destruct acc as [s out]. unfold handle_index.
  destruct (decide (data s !! i = Some NEWLINE)); simpl;
    unfold same_frame; simpl; tauto.
Qed.

Lemma foldl_handle_index_frame (l : list nat) (acc : Session * list packet) :
  same_frame (fst acc) (fst (foldl handle_index acc l)).
Proof.
  revert acc; induction l as [|i l IH]; intros acc; simpl.
  - apply same_frame_refl.
  - eapply same_frame_trans; [apply handle_index_frame|apply IH].
Qed.

Lemma handle_data_frame (s : Session) : same_frame s (fst (handle_data s)).
Proof.
  unfold handle_data. destruct (decide (EMPTY ∈ data s)).
  - apply same_frame_refl.
  - apply (foldl_handle_index_frame _ (s, [])).
Qed.

(** ** The first empty slot *)

Lemma index_some (x : bytes) (l : list bytes) (i : nat) :
  Py.index x l = Some i <->
  l !! i = Some x /\ forall j, (j < i)%nat -> l !! j <> Some x.
Proof.
  revert i; induction l as [|y r IH]; intros i; simpl.
  - split; [discriminate|]. intros [H _]. discriminate.
  - destruct (decide (y = x)) as [->|Hy].
    + split.
      * intros [= <-]. split; [reflexivity|]. intros j Hj; lia.
      * intros [Hi Hmin]. destruct i as [|i]; [reflexivity|].
        exfalso. apply (Hmin 0%nat); [lia|reflexivity].
    + destruct (Py.index x r) as [k|] eqn:Hk.
      * split.
        -- intros [= <-]. destruct (proj1 (IH k) eq_refl) as [Hl Hmin].
           split; [exact Hl|]. intros [|j] Hj; simpl.
           ++ congruence.
           ++ apply Hmin. lia.
        -- intros [Hi Hmin]. destruct i as [|i]; simpl in Hi; [congruence|].
           assert (Some k = Some i) as [= ->]; [|reflexivity].
           apply IH. split; [exact Hi|].
           intros j Hj. apply (Hmin (S j)). lia.
      * split; [discriminate|]. intros [Hi Hmin].
        destruct i as [|i]; simpl in Hi; [congruence|].
        assert (None = Some i) as E; [|discriminate E].
        apply IH. split; [exact Hi|].
        intros j Hj. apply (Hmin (S j)). lia.
Qed.

Lemma index_none (x : bytes) (l : list bytes) :
  Py.index x l = None <-> x ∉ l.
Proof.
  induction l as [|y r IH]; simpl.
  - split; [intros _; apply not_elem_of_nil|reflexivity].
  - rewrite not_elem_of_cons. destruct (decide (y = x)) as [->|Hy].
    + split; [discriminate|]. intros [H _]. contradiction.
    + destruct (Py.index x r) as [k|].
      * split; [discriminate|]. intros [_ H]. apply IH in H. discriminate.
      * split; [|reflexivity]. intros _. split; [congruence|]. now apply IH.
Qed.

(** C6: a data datagram accepted on an open session (no bare slash, a
    readable position, the write succeeds) is answered last, after whatever
    line extraction sends, with one ack; its length is the index of the
    first empty slot of the buffer as written, when there is one, and the
    length of that buffer otherwise. *)
Theorem C6_data_is_acked_cumulatively
  (sid pos payload : bytes) (p : Z) (s s1 : Session) (a : Addr) (t : Sessions) :
  SLASH ∉ sid -> Py.int pos = Some p ->
  lookup sid t = Some s -> is_closed s = false ->
  B_SLASH ∉ split_data payload ->
  add_data p (split_data payload) s = (s1, None) ->
  let o := datagram_received (data_msg sid pos payload) a t in
  exists n s2,
    raised o = None /\
    sent o = snd (handle_data s1) ++ [(P_ACK ++ sid ++ B_SLASH ++ Py.str n ++ B_SLASH, a)] /\
    lookup sid (table o) = Some s2 /\ data s2 = data s1 /\
    (forall i, data s1 !! i = Some EMPTY ->
               (forall j, (j < i)%nat -> data s1 !! j <> Some EMPTY) -> n = i) /\
    (EMPTY ∉ data s1 -> n = length (data s1)).
Proof.
  intros Hsid Hp Hs Hopen Htok Hadd o. subst o.
  rewrite (data_open_received sid pos payload p s a t) by assumption.
  rewrite Hadd.
  destruct (handle_data_frame s1) as (_ & _ & Hdata & _).
  exists (ack_length (data (fst (handle_data s1)))), (fst (handle_data s1)).
  rewrite Hdata. simpl. repeat split.
  - now apply (lookup_store_eq sid _ s).
  - intros i Hi Hmin. unfold ack_length.
    rewrite (proj2 (index_some EMPTY (data s1) i)); [reflexivity|now split].
  - intros Hno. unfold ack_length.
    now rewrite (proj2 (index_none EMPTY (data s1)) Hno).
Qed.

Lemma C6_data_ack_witness :
  let a : Addr := ("10.0.0.1"%string, 4000) in
  let t := table (datagram_received (bs "/connect/1/") a []) in
  exists n s2,
    sent (datagram_received (bs "/data/1/2/cd/") a t)
    = [(P_ACK ++ bs "1" ++ B_SLASH ++ Py.str n ++ B_SLASH, a)] /\
    lookup (bs "1") (table (datagram_received (bs "/data/1/2/cd/") a t)) = Some s2 /\
    data s2 = [EMPTY; EMPTY; bs "c"; bs "d"] /\ n = 0%nat.
Proof.
  intros a t.
  destruct (C6_data_is_acked_cumulatively (bs "1") (bs "2") (bs "cd") 2
              (new_session (bs "1") a)
              (set_data [EMPTY; EMPTY; bs "c"; bs "d"] (new_session (bs "1") a))
              a t)
    as (n & s2 & _ & Hsent & Hl & Hd & Hfirst & _);
    try reflexivity.
  - apply (bool_decide_unpack _). vm_compute. exact I.
  - apply (bool_decide_unpack _). vm_compute. exact I.
  - exists n, s2. repeat split; try assumption.
    apply (Hfirst 0%nat); [reflexivity|intros j Hj; lia].
Defined.

(** ** How one datagram changes a session and the table *)

Lemma split_data_no_empty (payload : bytes) : EMPTY ∉ split_data payload.
Proof.
  unfold split_data. intros H. apply list_elem_of_filter in H as [H _].
  now apply H.
Qed.

Lemma on_connect_table (rest : bytes) (a : Addr) (t : Sessions) :
  table_step a t (table (on_connect rest a t)).
Proof.
  unfold on_connect.
  destruct (Py.split SLASH 1 rest) as [|sid [|? ?]]; simpl; auto with lrcp.
  destruct (Py.int sid) as [n|] eqn:Hn; simpl; auto with lrcp.
  destruct (decide (n > 2 ^ 31)); simpl; auto with lrcp.
  destruct (lookup sid t) eqn:Hs; eauto with lrcp.
Qed.

Lemma on_data_table (rest : bytes) (a : Addr) (t : Sessions) :
  table_step a t (table (on_data rest a t)).
Proof.
  unfold on_data.
  destruct (Py.split SLASH 2 rest) as [|sid [|pos [|payload [|? ?]]]];
    simpl; auto with lrcp.
  destruct (lookup sid t) as [s|] eqn:Hs; simpl; auto with lrcp.
  destruct (is_closed s); simpl; auto with lrcp.
  destruct (decide (B_SLASH ∈ split_data payload)); simpl; auto with lrcp.
  destruct (Py.int pos) as [p|]; simpl; auto with lrcp.
  destruct (add_data p (split_data payload) s) as [s1 [x|]] eqn:Hadd; simpl.
  - eapply table_store; [exact Hs|].
    eapply step_write_failed; [apply split_data_no_empty|exact Hadd].
  - destruct (handle_data s1) as [s2 out] eqn:Hh; simpl.
    eapply table_store; [exact Hs|].
    replace s2 with (fst (handle_data s1)) by now rewrite Hh.
    eapply step_data; [apply split_data_no_empty|exact Hadd].
Qed.

Lemma on_close_table (rest : bytes) (a : Addr) (t : Sessions) :
  table_step a t (table (on_close rest a t)).
Proof.
  unfold on_close.
  destruct (Py.split SLASH 1 rest) as [|sid [|? ?]]; simpl; auto with lrcp.
  destruct (lookup sid t) as [s|] eqn:Hs; simpl; auto with lrcp.
  destruct (handle_data (set_is_closed true s)) as [s2 out] eqn:Hh; simpl.
  eapply table_store; [exact Hs|].
  replace s2 with (fst (handle_data (set_is_closed true s))) by now rewrite Hh.
  apply step_close.
Qed.

Lemma on_ack_table (rest : bytes) (a : Addr) (t : Sessions) :
  table_step a t (table (on_ack rest a t)).
Proof.
  unfold on_ack.
  destruct (Py.split SLASH 2 rest) as [|sid [|len [|? ?]]];
    simpl; auto with lrcp.
  destruct (lookup sid t) as [s|] eqn:Hs; simpl; auto with lrcp.
  destruct (Py.int len) as [n|]; simpl; eauto with lrcp.
Qed.

Lemma received_table (d : bytes) (a : Addr) (t : Sessions) :
  table_step a t (table (datagram_received d a t)).
Proof.
  unfold datagram_received.
  destruct (head d), (last d); try exact (table_same a t).
  destruct (decide _); try exact (table_same a t).
  destruct (Py.split SLASH 1 (Py.slice 1 (length d - 1) d))
    as [|kind [|rest [|? ?]]]; try exact (table_same a t).
  unfold dispatch.
  destruct (decide (kind = B_CONNECT)); [apply on_connect_table|].
  destruct (decide (kind = B_DATA)); [apply on_data_table|].
  destruct (decide (kind = B_CLOSE)); [apply on_close_table|].
  destruct (decide (kind = B_ACK)); [apply on_ack_table|].
  exact (table_same a t).
Qed.

Lemma lookup_store_some (k k2 : bytes) (s s2 : Session) (t : Sessions) :
  lookup k2 (store k s t) = Some s2 -> exists s0, lookup k2 t = Some s0.
Proof.
  induction t as [|[k' s'] r IH]; simpl; [discriminate|].
  destruct (decide (k' = k)) as [->|Hk]; simpl.
  - destruct (decide (k = k2)); eauto.
  - destruct (decide (k' = k2)); eauto.
Qed.

Lemma table_step_keys (a : Addr) (t t' : Sessions) :
  table_step a t t' -> keys_numeric t -> keys_numeric t'.
Proof.
  intros [|k s s' Hs _|k n Hs Hn] Hk; [exact Hk| |].
  - intros k2 s2 H2. apply lookup_store_some in H2 as [s0 H0]. eapply Hk, H0.
  - intros k2 s2. rewrite lookup_insert_new.
    destruct (lookup k2 t) eqn:H2; [intros _; eapply Hk, H2|].
    destruct (decide (k = k2)) as [<-|]; [congruence|discriminate].
Qed.

Lemma step_keys (t : Sessions) (e : event) :
  keys_numeric t -> keys_numeric (fst (step t e)).
Proof.
  destruct e as [d a|]; simpl; [|trivial].
  apply (table_step_keys a), received_table.
Qed.

Lemma run_snoc (t : Sessions) (es : list event) (e : event) :
  run t (es ++ [e])
  = (fst (step (fst (run t es)) e),
     snd (run t es) ++ snd (step (fst (run t es)) e)).
Proof.
  unfold run. rewrite foldl_app. simpl.
  destruct (foldl _ (t, []) es) as [t1 out1]. simpl.
  destruct (step t1 e) as [t2 out2]. reflexivity.
Qed.

(** In every table the engine reaches from the empty one, the keys read
    as numbers: only a connect adds a key, after reading it. *)
Lemma reachable_keys_numeric (es : list event) :
  keys_numeric (fst (run [] es)).
Proof.
  induction es as [|e es IH] using rev_ind.
  - intros k s H. discriminate.
  - rewrite run_snoc. simpl. now apply step_keys.
Qed.

(** ** Framing errors and unknown sessions *)

Lemma split1_cases (b : bytes) :
  Py.split SLASH 1 b = [b] \/ exists p q, Py.split SLASH 1 b = [p; q].
Proof.
  simpl. destruct (Py.partition SLASH b) as [[p q]|]; eauto.
Qed.

Lemma split2_join (x r : bytes) :
  SLASH ∉ x -> Py.split SLASH 2 (join2 x r) = x :: Py.split SLASH 1 r.
Proof.
  intros Hx. unfold join2, B_SLASH. simpl.
  now rewrite (partition_app SLASH x r Hx).
Qed.

Lemma no_outer_slashes_dropped (d : bytes) (a : Addr) (t : Sessions) :
  head d <> Some SLASH \/ last d <> Some SLASH ->
  dropped (datagram_received d a t) t.
Proof.
  intros H. unfold datagram_received.
  destruct (head d) as [b|], (last d) as [b0|]; try (split; reflexivity).
  destruct (decide (b <> SLASH \/ b0 <> SLASH)) as [_|Hn];
    [split; reflexivity|].
  exfalso. apply Hn.
  destruct H as [H|H]; [left|right]; congruence.
Qed.

Lemma unknown_kind_dropped (kind args : bytes) (a : Addr) (t : Sessions) :
  SLASH ∉ kind ->
  kind <> B_CONNECT -> kind <> B_DATA -> kind <> B_CLOSE -> kind <> B_ACK ->
  dropped (datagram_received (frame kind args) a t) t.
Proof.
  intros Hk H1 H2 H3 H4. rewrite (frame_received kind args a t Hk).
  unfold dispatch.
  destruct (decide (kind = B_CONNECT)); [contradiction|].
  destruct (decide (kind = B_DATA)); [contradiction|].
  destruct (decide (kind = B_CLOSE)); [contradiction|].
  destruct (decide (kind = B_ACK)); [contradiction|].
  split; reflexivity.
Qed.

Lemma connect_non_numeric_dropped (sid : bytes) (a : Addr) (t : Sessions) :
  Py.int sid = None -> dropped (datagram_received (connect_msg sid) a t) t.
Proof.
  intros Hn. rewrite connect_dispatch. unfold on_connect.
  destruct (split1_cases sid) as [->|(p & q & ->)]; [|split; reflexivity].
  rewrite Hn. split; reflexivity.
Qed.

Lemma close_unknown_dropped (sid : bytes) (a : Addr) (t : Sessions) :
  lookup sid t = None -> dropped (datagram_received (close_msg sid) a t) t.
Proof.
  intros Hs. rewrite close_dispatch. unfold on_close.
  destruct (split1_cases sid) as [->|(p & q & ->)]; [|split; reflexivity].
  rewrite Hs. split; reflexivity.
Qed.

Lemma ack_unknown_dropped (sid len : bytes) (a : Addr) (t : Sessions) :
  SLASH ∉ sid -> lookup sid t = None ->
  dropped (datagram_received (ack_msg sid len) a t) t.
Proof.
  intros Hsid Hs. unfold ack_msg. rewrite ack_dispatch. unfold on_ack.
  rewrite (split2_join sid len Hsid).
  destruct (split1_cases len) as [->|(p & q & ->)]; [|split; reflexivity].
  rewrite Hs. split; reflexivity.
Qed.

Lemma ack_non_numeric_dropped (sid len : bytes) (a : Addr) (t : Sessions) :
  SLASH ∉ sid -> Py.int len = None ->
  dropped (datagram_received (ack_msg sid len) a t) t.
Proof.
  intros Hsid Hn. unfold ack_msg. rewrite ack_dispatch. unfold on_ack.
  rewrite (split2_join sid len Hsid).
  destruct (split1_cases len) as [->|(p & q & ->)]; [|split; reflexivity].
  destruct (lookup sid t); [|split; reflexivity].
  rewrite Hn. split; reflexivity.
Qed.

Lemma data_pos_non_numeric_dropped (sid pos payload : bytes) (s : Session)
  (a : Addr) (t : Sessions) :
  SLASH ∉ sid -> SLASH ∉ pos -> Py.int pos = None ->
  lookup sid t = Some s -> is_closed s = false ->
  dropped (datagram_received (data_msg sid pos payload) a t) t.
Proof.
  intros Hsid Hpos Hn Hs Hopen. unfold data_msg. rewrite data_dispatch.
  unfold on_data.
  rewrite (split2_fields3 sid pos payload Hsid Hpos), Hs, Hopen.
  destruct (decide (B_SLASH ∈ split_data payload)); [split; reflexivity|].
  rewrite Hn. split; reflexivity.
Qed.

(** Whatever is answered or changes the table is a framed datagram of one
    of the four kinds. *)
Lemma answered_is_framed (d : bytes) (a : Addr) (t : Sessions) :
  ~ dropped (datagram_received d a t) t ->
  exists kind args,
    d = frame kind args /\
    (kind = B_CONNECT \/ kind = B_DATA \/ kind = B_CLOSE \/ kind = B_ACK).
Proof.
  unfold datagram_received. intros Hnd.
  destruct (head d) as [b|] eqn:Hh;
    [|exfalso; apply Hnd; split; reflexivity].
  destruct (last d) as [b0|] eqn:Hl;
    [|exfalso; apply Hnd; split; reflexivity].
  destruct (decide (b <> SLASH \/ b0 <> SLASH)) as [|Hs];
    [exfalso; apply Hnd; split; reflexivity|].
  assert (b = SLASH) as ->
    by (destruct (decide (b = SLASH)); [assumption|exfalso; apply Hs; now left]).
  assert (b0 = SLASH) as ->
    by (destruct (decide (b0 = SLASH)); [assumption|exfalso; apply Hs; now right]).
  destruct (Py.split SLASH 1 (Py.slice 1 (length d - 1) d))
    as [|kind [|rest [|? ?]]] eqn:Hsp;
    try (exfalso; apply Hnd; split; reflexivity).
  simpl in Hsp.
  destruct (Py.partition SLASH (Py.slice 1 (length d - 1) d))
    as [[p q]|] eqn:Hp; [|discriminate Hsp].
  injection Hsp as -> ->.
  apply partition_some in Hp as [Hinner _].
  apply last_Some in Hl as [l' ->].
  destruct l' as [|c l''].
  - simpl in Hinner. destruct kind; discriminate Hinner.
  - simpl in Hh. injection Hh as ->.
    assert (Hsl : Py.slice 1 (length ((SLASH :: l'') ++ [SLASH]) - 1)
                    ((SLASH :: l'') ++ [SLASH]) = l'').
    { unfold Py.slice. rewrite length_app. simpl length.
      replace (S (length l'') + 1 - 1)%nat with (length (SLASH :: l''))
        by (simpl; lia).
      rewrite take_app_length. reflexivity. }
    rewrite Hsl in Hinner. subst l''.
    exists kind, rest. split.
    + unfold frame, B_SLASH. simpl. now rewrite <- !app_assoc.
    + unfold dispatch in Hnd.
      destruct (decide (kind = B_CONNECT)); [now left|].
      destruct (decide (kind = B_DATA)); [now right; left|].
      destruct (decide (kind = B_CLOSE)); [now right; right; left|].
      destruct (decide (kind = B_ACK)); [now right; right; right|].
      exfalso. apply Hnd. split; reflexivity.
Qed.

(** C3 as stated fails: a data datagram whose SESSION is not a number is
    answered (with a close), not dropped. *)
Lemma C3_non_numeric_session_is_answered :
  ~ (forall d a t, non_numeric_argument d ->
                   dropped (datagram_received d a t) t).
Proof.
  intros H.
  destruct (H (data_msg (bs "abc") (bs "0") (bs "x"))
              ("10.0.0.1"%string, 4000) []) as [Hsent _].
  - apply nn_data_session. reflexivity.
  - vm_compute in Hsent. discriminate Hsent.
Qed.

(** C3, amended: a datagram without the outer slashes or of an unknown
    kind is dropped, and so is a connect whose SESSION is not a number, an
    ack whose LENGTH is not a number, and a data datagram for an open
    session whose POS is not a number; a data datagram for an unknown
    session is answered with [/close/SESSION/] and changes nothing, whatever
    its SESSION and POS hold; a close or an ack for an unknown session is
    dropped, so it creates no session; and no table the engine reaches holds
    a key that is not a number. Only a datagram [/KIND/ARGS/] of one of the
    four kinds is ever answered or changes the table. *)
Theorem C3_framing_errors_and_unknown_sessions (a : Addr) (t : Sessions) :
  (forall d, ~ dropped (datagram_received d a t) t ->
     exists kind args, d = frame kind args /\
       (kind = B_CONNECT \/ kind = B_DATA \/ kind = B_CLOSE \/ kind = B_ACK)) /\
  (forall d, head d <> Some SLASH \/ last d <> Some SLASH ->
     dropped (datagram_received d a t) t) /\
  (forall kind args, SLASH ∉ kind ->
     kind <> B_CONNECT -> kind <> B_DATA -> kind <> B_CLOSE -> kind <> B_ACK ->
     dropped (datagram_received (frame kind args) a t) t) /\
  (forall sid, Py.int sid = None ->
     dropped (datagram_received (connect_msg sid) a t) t) /\
  (forall sid len, SLASH ∉ sid -> Py.int len = None ->
     dropped (datagram_received (ack_msg sid len) a t) t) /\
  (forall sid pos payload s, SLASH ∉ sid -> SLASH ∉ pos ->
     Py.int pos = None -> lookup sid t = Some s -> is_closed s = false ->
     dropped (datagram_received (data_msg sid pos payload) a t) t) /\
  (forall sid pos payload, SLASH ∉ sid -> SLASH ∉ pos ->
     lookup sid t = None ->
     datagram_received (data_msg sid pos payload) a t
     = returns t [(P_CLOSE ++ sid ++ B_SLASH, a)]) /\
  (forall sid, lookup sid t = None ->
     dropped (datagram_received (close_msg sid) a t) t) /\
  (forall sid len, SLASH ∉ sid -> lookup sid t = None ->
     dropped (datagram_received (ack_msg sid len) a t) t) /\
  (forall es sid, Py.int sid = None -> lookup sid (fst (run [] es)) = None).
Proof.
  split; [intros d; apply answered_is_framed|].
  repeat split.
  1,2: now apply no_outer_slashes_dropped.
  1,2: now apply unknown_kind_dropped.
  1,2: now apply connect_non_numeric_dropped.
  1,2: now apply ack_non_numeric_dropped.
  1,2: now eapply data_pos_non_numeric_dropped; eauto.
  - intros sid pos payload Hsid Hpos Hs.
    apply data_unknown_received; auto.
  - now apply close_unknown_dropped.
  - now apply close_unknown_dropped.
  - now apply ack_unknown_dropped.
  - now apply ack_unknown_dropped.
  - intros es sid Hn.
    destruct (lookup sid (fst (run [] es))) as [s|] eqn:Hs; [|reflexivity].
    exfalso. exact (reachable_keys_numeric es sid s Hs Hn).
Qed.

Lemma C3_framing_errors_witness :
  let a : Addr := ("10.0.0.1"%string, 4000) in
  let t := [(bs "1", new_session (bs "1") a)] in
  dropped (datagram_received (bs "connect/1/") a t) t /\
  dropped (datagram_received (bs "/bogus/1/") a t) t /\
  dropped (datagram_received (bs "/connect/abc/") a t) t /\
  dropped (datagram_received (bs "/ack/1/xyz/") a t) t /\
  dropped (datagram_received (bs "/data/1/xyz/hello/") a t) t /\
  datagram_received (bs "/data/abc/xyz/hello/") a t
  = returns t [(bs "/close/abc/", a)] /\
  dropped (datagram_received (bs "/close/5/") a t) t /\
  dropped (datagram_received (bs "/ack/5/0/") a t) t.
Proof.
  intros a t.
  destruct (C3_framing_errors_and_unknown_sessions a t)
    as (_ & H1 & H2 & H3 & H4 & H5 & H6 & H7 & H8 & _).
  assert (Hno : forall b : bytes, bool_decide (SLASH ∉ b) = true -> SLASH ∉ b)
    by (intros b Hb; exact (bool_decide_eq_true_1 _ Hb)).
  refine (conj _ (conj _ (conj _ (conj _ (conj _ (conj _ (conj _ _))))))).
  - apply (H1 (bs "connect/1/")). left. discriminate.
  - apply (H2 (bs "bogus") (bs "1")); try discriminate.
    apply Hno. reflexivity.
  - apply (H3 (bs "abc")). reflexivity.
  - apply (H4 (bs "1") (bs "xyz")); [apply Hno|]; reflexivity.
  - apply (H5 (bs "1") (bs "xyz") (bs "hello") (new_session (bs "1") a));
      try reflexivity; apply Hno; reflexivity.
  - apply (H6 (bs "abc") (bs "xyz") (bs "hello"));
      try reflexivity; apply Hno; reflexivity.
  - apply (H7 (bs "5")). reflexivity.
  - apply (H8 (bs "5") (bs "0")); [apply Hno|]; reflexivity.
Defined.

(** ** Outbound delivery *)

#[local] Open Scope nat_scope.

Lemma CHUNK_SIZE_pos : 0 < CHUNK_SIZE.
Proof. unfold CHUNK_SIZE. lia. Qed.

(** The [k]-th chunk is the slice that starts at [k * n], paired with that
    start counted from the initial cursor; there is one while the start is
    inside the buffer, so the fuel is never what ends the iteration. *)
Lemma chunks_lookup (fuel n : nat) :
  0 < n -> forall (k cur : nat) (it : list bytes),
  length it < fuel ->
  chunks fuel n cur it !! k
  = if decide (k * n < length it)
    then Some (cur + k * n, Py.slice (k * n) (k * n + n) it)
    else None.
Proof.
  intros Hn. induction fuel as [|f IH]; intros k cur it Hf; [lia|].
  simpl chunks. destruct (take n it) as [|x sl] eqn:Ht.
  - apply take_nil_inv in Ht as [->| ->]; [lia|].
    simpl. destruct (decide (k * n < 0)); [lia|]. apply lookup_nil.
  - assert (Hlen : 0 < length it).
    { destruct it; [rewrite take_nil in Ht; discriminate|simpl; lia]. }
    destruct k as [|k].
    + simpl. destruct (decide (0 < length it)); [|lia].
      unfold Py.slice. simpl. now rewrite Nat.add_0_r, Ht.
    + change (((cur, x :: sl) :: chunks f n (cur + n) (drop n it)) !! S k)
        with (chunks f n (cur + n) (drop n it) !! k).
      rewrite IH by (rewrite length_drop; lia).
      rewrite length_drop.
      destruct (decide (k * n < length it - n)),
               (decide (S k * n < length it)); try lia; [|reflexivity].
      f_equal. f_equal; [lia|].
      unfold Py.slice. rewrite take_drop_commute, drop_drop.
      replace (n + (k * n + n)) with (S k * n + n) by lia.
      replace (n + k * n) with (S k * n) by lia. reflexivity.
Qed.

(** Together the chunks are the whole buffer. *)
Lemma chunks_concat (fuel n : nat) :
  0 < n -> forall (cur : nat) (it : list bytes),
  length it < fuel ->
  concat (map snd (chunks fuel n cur it)) = it.
Proof.
  intros Hn. induction fuel as [|f IH]; intros cur it Hf; [lia|].
  simpl chunks. destruct (take n it) as [|x sl] eqn:Ht.
  - apply take_nil_inv in Ht as [->| ->]; [lia|reflexivity].
  - assert (Hlen : 0 < length it).
    { destruct it; [rewrite take_nil in Ht; discriminate|simpl; lia]. }
    cbn [map snd concat]. rewrite IH by (rewrite length_drop; lia).
    rewrite <- Ht. apply take_drop.
Qed.

Lemma send_data_lookup (s : Session) (k : nat) :
  is_closed s = false ->
  send_data s !! k
  = if decide (k * CHUNK_SIZE < length (send_buffer s))
    then Some (data_datagram (id s) (k * CHUNK_SIZE)
                 (Py.slice (k * CHUNK_SIZE) (k * CHUNK_SIZE + CHUNK_SIZE)
                           (send_buffer s)),
               addr s)
    else None.
Proof.
  intros Hopen. unfold send_data. rewrite Hopen, list_lookup_fmap.
  rewrite (chunks_lookup _ CHUNK_SIZE CHUNK_SIZE_pos) by lia.
  destruct (decide _); reflexivity.
Qed.

Lemma maybe_retransmit_flat (t : Sessions) :
  maybe_retransmit t = flat_map (fun e => send_data (snd e)) t.
Proof.
  unfold maybe_retransmit. induction t as [|[k s] r IH]; [reflexivity|].
  simpl. rewrite IH. f_equal.
  unfold send_data. destruct (is_closed s); reflexivity.
Qed.

(** ** The loop of [handle_data] and the scan it implements *)

Lemma next_newline_some (from i : nat) (buf : list bytes) :
  from <= i -> buf !! i = Some NEWLINE ->
  (forall j, from <= j < i -> buf !! j <> Some NEWLINE) ->
  next_newline from buf = Some i.
Proof.
  intros Hle Hi Hmin. unfold next_newline.
  rewrite (proj2 (index_some NEWLINE (drop from buf) (i - from))).
  - f_equal. lia.
  - split.
    + rewrite lookup_drop. now replace (from + (i - from)) with i by lia.
    + intros j Hj. rewrite lookup_drop. apply Hmin. lia.
Qed.

Lemma next_newline_none (from : nat) (buf : list bytes) :
  (forall j, from <= j -> buf !! j <> Some NEWLINE) ->
  next_newline from buf = None.
Proof.
  intros Hno. unfold next_newline.
  rewrite (proj2 (index_none NEWLINE (drop from buf))); [reflexivity|].
  intros Hin. apply list_elem_of_lookup in Hin as [j Hj].
  rewrite lookup_drop in Hj. apply (Hno (from + j)); [lia|exact Hj].
Qed.

Lemma next_newline_inv (from : nat) (buf : list bytes) (i : nat) :
  next_newline from buf = Some i ->
  from <= i /\ buf !! i = Some NEWLINE /\
  forall j, from <= j < i -> buf !! j <> Some NEWLINE.
Proof.
  unfold next_newline.
  destruct (Py.index NEWLINE (drop from buf)) as [k|] eqn:Hk; [|discriminate].
  intros [= <-]. apply index_some in Hk as [Hk Hmin].
  rewrite lookup_drop in Hk. repeat split; [lia|exact Hk|].
  intros j Hj. specialize (Hmin (j - from)). rewrite lookup_drop in Hmin.
  replace (from + (j - from)) with j in Hmin by lia. apply Hmin. lia.
Qed.

Lemma next_newline_none_inv (from : nat) (buf : list bytes) :
  next_newline from buf = None -> NEWLINE ∉ drop from buf.
Proof.
  unfold next_newline.
  destruct (Py.index NEWLINE (drop from buf)) as [k|] eqn:Hk; [discriminate|].
  intros _. now apply index_none.
Qed.

(** One turn of the loop at a newline is one extraction. *)
Lemma handle_index_newline (s : Session) (out : list packet) (i : nat) :
  data s !! i = Some NEWLINE ->
  handle_index (s, out) i
  = (extract_line i s, out ++ send_data (extract_line i s)).
Proof.
  intros Hi. unfold handle_index.
  destruct (decide (data s !! i = Some NEWLINE)); [|contradiction].
  unfold extract_line, send_data. simpl. now rewrite <- !app_assoc.
Qed.

Lemma handle_index_other (s : Session) (out : list packet) (i : nat) :
  data s !! i <> Some NEWLINE -> handle_index (s, out) i = (s, out).
Proof.
  intros Hi. unfold handle_index.
  destruct (decide (data s !! i = Some NEWLINE)); [contradiction|reflexivity].
Qed.

(** The loop from index [j] on, when no newline lies between the cursor
    and [j], is the scan from the cursor. *)
Lemma loop_refines_scan (m : nat) :
  forall (s : Session) (j : nat) (out : list packet) (fuel : nat),
  j + m = length (data s) -> cursor s <= j ->
  (forall i, cursor s <= i < j -> data s !! i <> Some NEWLINE) ->
  length (data s) - cursor s <= fuel ->
  foldl handle_index (s, out) (seq j m) = spec_extract_lines fuel s out.
Proof.
  induction m as [|m IH]; intros s j out fuel Hjm Hc Hno Hfuel.
  - simpl. destruct fuel as [|f]; [reflexivity|]. simpl.
    rewrite next_newline_none; [reflexivity|].
    intros i Hi. destruct (decide (i < j)) as [Hlt|Hge]; [apply Hno; lia|].
    rewrite (proj2 (lookup_ge_None (data s) i)); [discriminate|lia].
  - cbn [seq foldl].
    destruct (decide (data s !! j = Some NEWLINE)) as [Hj|Hj].
    + rewrite (handle_index_newline s out j Hj).
      destruct fuel as [|f]; [lia|]. simpl spec_extract_lines.
      rewrite (next_newline_some (cursor s) j (data s) Hc Hj Hno).
      apply IH; simpl; try lia; intros i Hi; lia.
    + rewrite (handle_index_other s out j Hj).
      apply IH; try lia.
      intros i Hi. destruct (decide (i = j)) as [->|]; [exact Hj|].
      apply Hno. lia.
Qed.

(** [handle_data] on a buffer with an empty slot does nothing; otherwise it
    is the scan, with fuel to spare. *)
Lemma handle_data_scan (s : Session) (fuel : nat) :
  EMPTY ∉ data s -> length (data s) - cursor s <= fuel ->
  handle_data s = spec_extract_lines fuel s [].
Proof.
  intros Hfull Hfuel. unfold handle_data.
  destruct (decide (EMPTY ∈ data s)); [contradiction|].
  destruct (decide (cursor s <= length (data s))) as [Hc|Hc].
  - apply loop_refines_scan; try lia; intros i Hi; lia.
  - replace (length (data s) - cursor s) with 0 by lia. simpl.
    destruct fuel as [|f]; [reflexivity|]. simpl.
    rewrite next_newline_none; [reflexivity|].
    intros i Hi. rewrite (proj2 (lookup_ge_None (data s) i)); [discriminate|lia].
Qed.

Lemma handle_data_hole (s : Session) :
  EMPTY ∈ data s -> handle_data s = (s, []).
Proof.
  intros H. unfold handle_data.
  destruct (decide (EMPTY ∈ data s)); [reflexivity|contradiction].
Qed.

(** X18: delivery re-emits the whole outbound buffer from its start, in
    pieces counted in slots. For an open session [send_data] sends one data
    datagram per 512 slots: the [k]-th exists exactly while [512 k] is
    inside the buffer, carries the slots [[512 k, 512 k + 512)] and has the
    offset [512 k], counted from zero on every send; the pieces together
    are the whole buffer. A closed session sends nothing. A tick sends
    this, in table order, for every session and changes no session; each
    line extracted is followed by such a delivery of the buffer including
    the new line. *)
Theorem X18_delivery_resends_whole_buffer_in_slot_chunks :
  (forall s, is_closed s = true -> send_data s = []) /\
  (forall s k, is_closed s = false ->
     send_data s !! k
     = if decide (k * 512 < length (send_buffer s))
       then Some (P_DATA ++ id s ++ B_SLASH ++ Py.str (k * 512) ++ B_SLASH
                    ++ concat (Py.slice (k * 512) (k * 512 + 512)
                                        (send_buffer s)) ++ B_SLASH,
                  addr s)
       else None) /\
  (forall s,
     concat (map snd (chunks (S (length (send_buffer s))) 512 0 (send_buffer s)))
     = send_buffer s) /\
  (forall t, step t Tick = (t, flat_map (fun e => send_data (snd e)) t)) /\
  (forall s out i, data s !! i = Some NEWLINE ->
     snd (handle_index (s, out) i)
     = out ++ send_data
                (set_send_buffer
                   (send_buffer s ++ rev (Py.slice (cursor s) i (data s))
                                  ++ [NEWLINE]) s)).
Proof.
  repeat split.
  - intros s Hc. unfold send_data. now rewrite Hc.
  - intros s k Hopen. apply (send_data_lookup s k Hopen).
  - intros s. apply (chunks_concat _ CHUNK_SIZE CHUNK_SIZE_pos). lia.
  - intros t. simpl. now rewrite maybe_retransmit_flat.
  - intros s out i Hi. now rewrite (handle_index_newline s out i Hi).
Qed.

Lemma X18_delivery_witness :
  let a : Addr := ("10.0.0.1"%string, 4000%Z) in
  let s := mkSession (bs "1") a [] 0 0 0%Z false [bs "a"; NEWLINE] in
  send_data s !! 0 = Some (bs "/data/1/0/a" ++ [LF] ++ bs "/", a) /\
  send_data s !! 1 = None /\
  send_data (set_is_closed true s) = [].
Proof.
  intros a s.
  destruct X18_delivery_resends_whole_buffer_in_slot_chunks as (Hc & Hk & _).
  split; [|split].
  - exact (Hk s 0 eq_refl).
  - exact (Hk s 1 eq_refl).
  - apply Hc. reflexivity.
Defined.

(** ** Tokens *)

Lemma re_split_concat (n : nat) :
  forall data pending, length data <= n ->
  concat (Py.re_split pending data) = pending ++ data.
Proof.
  induction n as [|n IH]; intros [|c rest] pending Hlen;
    simpl in Hlen; try lia; simpl; try now rewrite app_nil_r.
  destruct (decide (c = LF)) as [->|Hc].
  - rewrite IH by lia. now rewrite <- app_assoc.
  - destruct (decide (c = BACKSLASH)) as [->|Hb].
    + destruct rest as [|d rest'].
      * simpl. reflexivity.
      * destruct (decide (d = LF)) as [->|Hd]; simpl.
        -- rewrite IH by (simpl in *; lia). reflexivity.
        -- rewrite IH by (simpl in *; lia). reflexivity.
    + simpl. rewrite IH by lia. reflexivity.
Qed.

Lemma concat_filter_nonempty (l : list bytes) :
  concat (filter (fun x => x <> EMPTY) l) = concat l.
Proof.
  induction l as [|x l IH]; [reflexivity|].
  rewrite filter_cons. destruct (decide (x <> EMPTY)) as [Hx|Hx]; simpl.
  - now rewrite IH.
  - rewrite IH. destruct x; [reflexivity|]. exfalso. apply Hx. discriminate.
Qed.

(** Nothing is collapsed or lost: the tokens are consecutive pieces of the
    payload. *)
Lemma split_data_concat (payload : bytes) :
  concat (split_data payload) = payload.
Proof.
  unfold split_data. rewrite concat_filter_nonempty.
  now rewrite (re_split_concat (length payload)).
Qed.







(** ** Writing into the reassembly buffer *)

Lemma filled_preserved_refl (buf : list bytes) : filled_preserved buf buf.
Proof. split; [lia|]. intros i x Hx Hne. eauto. Qed.

Lemma filled_preserved_trans (b1 b2 b3 : list bytes) :
  filled_preserved b1 b2 -> filled_preserved b2 b3 -> filled_preserved b1 b3.
Proof.
  intros [H1 F1] [H2 F2]. split; [lia|].
  intros i x Hx Hne. destruct (F1 i x Hx Hne) as (y & Hy & Hyne). eauto.
Qed.

Lemma filled_preserved_app (buf pad : list bytes) :
  filled_preserved buf (buf ++ pad).
Proof.
  split; [rewrite length_app; lia|].
  intros i x Hx Hne. exists x. split; [|exact Hne].
  rewrite lookup_app_l; [exact Hx|]. now apply lookup_lt_Some in Hx.
Qed.

Lemma insert_filled (buf : list bytes) (k : nat) (v : bytes) :
  v <> EMPTY -> filled_preserved buf (<[k:=v]> buf).
Proof.
  intros Hv. split; [rewrite length_insert; lia|].
  intros i x Hx Hne. destruct (decide (k = i)) as [->|Hk].
  - exists v. split; [|exact Hv].
    apply list_lookup_insert_eq. now apply lookup_lt_Some in Hx.
  - exists x. split; [|exact Hne]. now rewrite list_lookup_insert_ne.
Qed.

Lemma setitem_filled (buf buf' : list bytes) (i : Z) (v : bytes) :
  v <> EMPTY -> Py.setitem buf i v = Some buf' ->
  filled_preserved buf buf' /\ length buf' = length buf.
Proof.
  intros Hv. unfold Py.setitem.
  destruct (decide _); [|destruct (decide _); [|discriminate]];
    intros [= <-]; (split; [now apply insert_filled|apply length_insert]).
Qed.

Lemma write_all_filled (toks : list bytes) :
  forall (buf : list bytes) (i : Z),
  EMPTY ∉ toks ->
  filled_preserved buf (fst (write_all buf i toks)) /\
  length (fst (write_all buf i toks)) = length buf.
Proof.
  induction toks as [|v toks IH]; intros buf i Hne; simpl.
  - split; [apply filled_preserved_refl|reflexivity].
  - apply not_elem_of_cons in Hne as [Hv Hne].
    destruct (Py.setitem buf i v) as [buf'|] eqn:Hset; simpl.
    + destruct (setitem_filled buf buf' i v) as [Hf Hl]; [congruence|exact Hset|].
      destruct (IH buf' (i + 1)%Z Hne) as [Hf' Hl'].
      split; [eapply filled_preserved_trans; eauto|congruence].
    + split; [apply filled_preserved_refl|reflexivity].
Qed.

(** Inside the buffer, from a position counted from the start, the loop
    writes the tokens over the slots and cannot fail. *)
Lemma write_all_nat (toks : list bytes) :
  forall (buf : list bytes) (p : nat),
  p + length toks <= length buf ->
  write_all buf (Z.of_nat p) toks = (list_inserts p toks buf, None).
Proof.
  induction toks as [|v toks IH]; intros buf p Hlen; simpl; [reflexivity|].
  simpl in Hlen. unfold Py.setitem.
  destruct (decide (0 <= Z.of_nat p < Z.of_nat (length buf))%Z); [|lia].
  rewrite Nat2Z.id.
  replace (Z.of_nat p + 1)%Z with (Z.of_nat (S p)) by lia.
  rewrite IH by (rewrite length_insert; lia).
  f_equal. symmetry. apply list_insert_inserts_lt. lia.
Qed.

(** The loop fails at its first assignment or not at all, once the buffer
    reaches up to the end of the write. *)
Lemma write_all_ok (toks : list bytes) :
  forall (buf : list bytes) (i : Z),
  (- Z.of_nat (length buf) <= i)%Z ->
  (i + Z.of_nat (length toks) <= Z.of_nat (length buf))%Z ->
  snd (write_all buf i toks) = None.
Proof.
  induction toks as [|v toks IH]; intros buf i Hlo Hhi; simpl; [reflexivity|].
  simpl length in Hhi. unfold Py.setitem.
  destruct (decide (0 <= i < Z.of_nat (length buf))%Z).
  - apply IH; rewrite length_insert; lia.
  - destruct (decide (- Z.of_nat (length buf) <= i < 0)%Z); [|lia].
    apply IH; rewrite length_insert; lia.
Qed.

Lemma write_all_failed (toks : list bytes) (buf buf' : list bytes) (i : Z)
  (x : Py.exn) :
  (i + Z.of_nat (length toks) <= Z.of_nat (length buf))%Z ->
  write_all buf i toks = (buf', Some x) -> buf' = buf.
Proof.
  intros Hhi Hw.
  destruct (decide (- Z.of_nat (length buf) <= i)%Z) as [Hlo|Hlo].
  - pose proof (write_all_ok toks buf i Hlo Hhi) as Hok.
    rewrite Hw in Hok. discriminate Hok.
  - destruct toks as [|v toks]; simpl in Hw; [congruence|].
    unfold Py.setitem in Hw.
    destruct (decide (0 <= i < Z.of_nat (length buf))%Z); [lia|].
    destruct (decide (- Z.of_nat (length buf) <= i < 0)%Z); [lia|].
    congruence.
Qed.

Lemma setitem_length (buf buf' : list bytes) (i : Z) (v : bytes) :
  Py.setitem buf i v = Some buf' -> length buf' = length buf.
Proof.
  unfold Py.setitem.
  destruct (decide _); [|destruct (decide _); [|discriminate]];
    intros [= <-]; apply length_insert.
Qed.

Lemma write_all_length (toks : list bytes) :
  forall (buf : list bytes) (i : Z),
  length (fst (write_all buf i toks)) = length buf.
Proof.
  induction toks as [|v toks IH]; intros buf i; simpl; [reflexivity|].
  destruct (Py.setitem buf i v) as [buf'|] eqn:Hset; simpl; [|reflexivity].
  rewrite IH. exact (setitem_length buf buf' i v Hset).
Qed.

(** The loop raises nothing but [IndexError]. *)
Lemma write_all_exn (toks : list bytes) :
  forall (buf buf' : list bytes) (i : Z) (x : Py.exn),
  write_all buf i toks = (buf', Some x) -> x = Py.IndexError.
Proof.
  induction toks as [|v toks IH]; intros buf buf' i x; simpl; [congruence|].
  destruct (Py.setitem buf i v) as [b|]; [apply IH|congruence].
Qed.

(** ** The padding line and the write *)

Lemma max_list_len_value : Py.max_list_len = (2 ^ 60 - 1)%Z.
Proof. reflexivity. Qed.

Lemma maxsize_value : Py.maxsize = (2 ^ 63 - 1)%Z.
Proof. reflexivity. Qed.

(** [add_data] either stops at the padding line, the session untouched,
    or pads and writes. *)
Lemma add_data_unfold (p : Z) (toks : list bytes) (s : Session) :
  (exists x, add_data p toks s = (s, Some x) /\
             (x = Py.OverflowError \/ x = Py.MemoryError)) \/
  add_data p toks s = written p toks s.
Proof.
  unfold add_data, written, Py.repeat, Py.iadd.
  set (n := (p + Z.of_nat (length toks) - Z.of_nat (length (data s)))%Z).
  destruct (decide (- Py.maxsize - 1 <= n <= Py.maxsize)%Z) as [Hr|Hr];
    [|left; exists Py.OverflowError; split; [reflexivity|now left]].
  destruct (decide (n <= Py.max_list_len)%Z) as [Hm|Hm];
    [|left; exists Py.MemoryError; split; [reflexivity|now right]].
  destruct (replicate (Z.to_nat n) EMPTY) as [|e pad] eqn:Hpad.
  - right. rewrite app_nil_r.
    now destruct (write_all (data s) p toks) as [buf e].
  - destruct (decide _) as [Hf|Hf];
      [|left; exists Py.MemoryError; split; [reflexivity|now right]].
    right. now destruct (write_all (data s ++ e :: pad) p toks) as [buf x].
Qed.

(** The padding line goes through when the count is index-sized and the
    padded list, if there is anything to pad, is one the interpreter
    builds. *)
Lemma add_data_pads (p : Z) (toks : list bytes) (s : Session) :
  let n := (p + Z.of_nat (length toks) - Z.of_nat (length (data s)))%Z in
  (- Py.maxsize - 1 <= n)%Z ->
  (n <= 0 \/ p + Z.of_nat (length toks) <= Py.max_list_len)%Z ->
  add_data p toks s = written p toks s.
Proof.
  intros n Hlo Hhi.
  pose proof max_list_len_value as Hcap. pose proof maxsize_value as Hmax.
  unfold add_data, written, Py.repeat, Py.iadd. fold n.
  destruct (decide (- Py.maxsize - 1 <= n <= Py.maxsize)%Z) as [Hr|Hr]; [|lia].
  destruct (decide (n <= Py.max_list_len)%Z) as [Hm|Hm]; [|lia].
  destruct (replicate (Z.to_nat n) EMPTY) as [|e pad] eqn:Hpad.
  - rewrite app_nil_r. now destruct (write_all (data s) p toks) as [buf e].
  - assert (Hl : length (e :: pad) = Z.to_nat n)
      by (rewrite <- Hpad; apply length_replicate).
    destruct (decide _) as [Hf|Hf].
    + now destruct (write_all (data s ++ e :: pad) p toks) as [buf x].
    + exfalso. apply Hf. rewrite Hl. simpl in Hl. lia.
Qed.

(** When the padding line raises, the count was out of range: [add_data]
    with nothing to pad never stops there, given a buffer that fits. *)
Lemma add_data_stops (p : Z) (toks : list bytes) (s s1 : Session) (x : Py.exn) :
  add_data p toks s = (s1, Some x) -> x <> Py.IndexError ->
  let n := (p + Z.of_nat (length toks) - Z.of_nat (length (data s)))%Z in
  s1 = s /\
  (x = Py.OverflowError /\ (n < - Py.maxsize - 1 \/ Py.maxsize < n)%Z \/
   x = Py.MemoryError /\ (0 < n <= Py.maxsize)%Z /\
   (Py.max_list_len < p + Z.of_nat (length toks))%Z).
Proof.
  intros Hadd Hx n.
  pose proof max_list_len_value as Hcap. pose proof maxsize_value as Hmax.
  revert Hadd. unfold add_data, Py.repeat, Py.iadd. fold n.
  destruct (decide (- Py.maxsize - 1 <= n <= Py.maxsize)%Z) as [Hr|Hr];
    [|intros [= <- <-]; split; [reflexivity|left; split; [reflexivity|lia]]].
  destruct (decide (n <= Py.max_list_len)%Z) as [Hm|Hm];
    [|intros [= <- <-]; split; [reflexivity|right; split; [reflexivity|lia]]].
  destruct (replicate (Z.to_nat n) EMPTY) as [|e pad] eqn:Hpad.
  - destruct (write_all (data s) p toks) as [buf y] eqn:Hw. intros [= <- ->].
    apply write_all_exn in Hw. contradiction.
  - assert (Hl : length (e :: pad) = Z.to_nat n)
      by (rewrite <- Hpad; apply length_replicate).
    destruct (decide _) as [Hf|Hf].
    + destruct (write_all (data s ++ e :: pad) p toks) as [buf y] eqn:Hw.
      intros [= <- ->]. apply write_all_exn in Hw. contradiction.
    + intros [= <- <-]. split; [reflexivity|]. right.
      split; [reflexivity|]. rewrite Hl in Hf. simpl in Hl. lia.
Qed.

(** What [add_data] leaves of the session. *)
Lemma add_data_fields (p : Z) (toks : list bytes) (s : Session) :
  let s1 := fst (add_data p toks s) in
  id s1 = id s /\ addr s1 = addr s /\ cursor s1 = cursor s /\
  send_cursor s1 = send_cursor s /\ acked_until s1 = acked_until s /\
  is_closed s1 = is_closed s /\ send_buffer s1 = send_buffer s.
Proof.
  destruct (add_data_unfold p toks s) as [(x & -> & _)| ->]; simpl; tauto.
Qed.

(** A failed [add_data] has at most padded the buffer. *)
Lemma add_data_failed (p : Z) (toks : list bytes) (s s1 : Session) (x : Py.exn) :
  add_data p toks s = (s1, Some x) ->
  cursor s1 = cursor s /\
  exists k, data s1 = data s ++ replicate k EMPTY.
Proof.
  intros Hadd.
  destruct (add_data_unfold p toks s) as [(y & Hy & _)|Hw].
  - rewrite Hy in Hadd. injection Hadd as <- _.
    split; [reflexivity|]. exists 0. simpl. now rewrite app_nil_r.
  - rewrite Hw in Hadd. unfold written in Hadd.
    set (pad := Z.to_nat _) in Hadd.
    destruct (write_all (data s ++ replicate pad EMPTY) p toks)
      as [buf e] eqn:Hwa.
    simpl in Hadd. injection Hadd as <- ->. simpl.
    split; [reflexivity|]. exists pad.
    eapply write_all_failed; [|exact Hwa].
    rewrite length_app, length_replicate. lia.
Qed.

(** A write at a position counted from the start, into a buffer that fits
    and up to a length the interpreter builds, never fails. *)
Lemma add_data_nat (p : nat) (toks : list bytes) (s : Session) :
  fits (data s) -> (Z.of_nat (p + length toks) <= Py.max_list_len)%Z ->
  add_data (Z.of_nat p) toks s
  = (set_data
       (list_inserts p toks
          (data s ++ replicate (p + length toks - length (data s)) EMPTY)) s,
     None).
Proof.
  intros Hfit Hcap. unfold fits in Hfit.
  pose proof max_list_len_value as Hv. pose proof maxsize_value as Hmax.
  rewrite add_data_pads by lia. unfold written.
  replace (Z.to_nat (Z.of_nat p + Z.of_nat (length toks)
                     - Z.of_nat (length (data s))))
    with (p + length toks - length (data s)) by lia.
  rewrite write_all_nat; [reflexivity|].
  rewrite length_app, length_replicate. lia.
Qed.

(** A write that stays inside a buffer that fits never fails. *)
Lemma add_data_inside (p : nat) (toks : list bytes) (s : Session) :
  fits (data s) -> p + length toks <= length (data s) ->
  add_data (Z.of_nat p) toks s
  = (set_data (list_inserts p toks (data s)) s, None).
Proof.
  intros Hfit Hin. unfold fits in Hfit.
  rewrite add_data_nat by (unfold fits; lia).
  replace (p + length toks - length (data s)) with 0 by lia.
  simpl. now rewrite app_nil_r.
Qed.

(** [add_data] keeps the buffer one the interpreter holds. *)
Lemma add_data_fits (p : Z) (toks : list bytes) (s : Session) :
  fits (data s) -> fits (data (fst (add_data p toks s))).
Proof.
  intros Hfit. unfold fits in *.
  pose proof max_list_len_value as Hv.
  unfold add_data, Py.repeat, Py.iadd.
  set (n := (p + Z.of_nat (length toks) - Z.of_nat (length (data s)))%Z).
  destruct (decide (- Py.maxsize - 1 <= n <= Py.maxsize)%Z); [|exact Hfit].
  destruct (decide (n <= Py.max_list_len)%Z); [|exact Hfit].
  destruct (replicate (Z.to_nat n) EMPTY) as [|e pad] eqn:Hpad.
  - pose proof (write_all_length toks (data s) p) as Hl.
    destruct (write_all (data s) p toks) as [buf x]. simpl in *. lia.
  - destruct (decide _) as [Hf|Hf]; [|exact Hfit].
    pose proof (write_all_length toks (data s ++ e :: pad) p) as Hl.
    destruct (write_all (data s ++ e :: pad) p toks) as [buf x].
    simpl in *. rewrite length_app in Hl. simpl in Hl. lia.
Qed.

(** ** Line extraction only moves forward *)

Lemma grows_refl (s : Session) : grows s s.
Proof.
  repeat split; [lia|lia|eauto|exists []; now rewrite app_nil_r].
Qed.

Lemma grows_same_buffers (s s' : Session) :
  cursor s' = cursor s -> data s' = data s ->
  send_buffer s' = send_buffer s -> grows s s'.
Proof.
  intros Hc Hd Hb. unfold grows. rewrite Hc, Hd, Hb.
  split; [lia|]. split; [apply filled_preserved_refl|].
  exists []. now rewrite app_nil_r.
Qed.

Lemma grows_trans (s1 s2 s3 : Session) :
  grows s1 s2 -> grows s2 s3 -> grows s1 s3.
Proof.
  intros (C1 & F1 & m1 & B1) (C2 & F2 & m2 & B2).
  split; [lia|]. split; [eapply filled_preserved_trans; eauto|].
  exists (m1 ++ m2). now rewrite B2, B1, app_assoc.
Qed.

Lemma add_data_grows (p : Z) (toks : list bytes) (s : Session) :
  EMPTY ∉ toks -> grows s (fst (add_data p toks s)).
Proof.
  intros Hne.
  destruct (add_data_unfold p toks s) as [(x & -> & _)| ->];
    [apply grows_refl|].
  unfold written, grows. simpl. repeat split; [lia| | |].
  - rewrite (proj2 (write_all_filled toks _ p Hne)), length_app. lia.
  - intros i x Hx Hxne.
    destruct (write_all_filled toks
                (data s ++ replicate
                   (Z.to_nat (p + Z.of_nat (length toks)
                              - Z.of_nat (length (data s)))) EMPTY) p Hne)
      as [[_ Hf] _].
    apply (Hf i x); [|exact Hxne].
    rewrite lookup_app_l; [exact Hx|]. now apply lookup_lt_Some in Hx.
  - exists []. now rewrite app_nil_r.
Qed.

Lemma extract_line_grows (i : nat) (s : Session) :
  cursor s <= i -> grows s (extract_line i s).
Proof.
  intros Hi. unfold grows, extract_line. simpl.
  split; [lia|]. split; [apply filled_preserved_refl|eauto].
Qed.

Lemma scan_grows (fuel : nat) :
  forall (s : Session) (out : list packet),
  grows s (fst (spec_extract_lines fuel s out)).
Proof.
  induction fuel as [|f IH]; intros s out; simpl; [apply grows_refl|].
  destruct (next_newline (cursor s) (data s)) as [i|] eqn:Hn;
    [|apply grows_refl].
  apply next_newline_inv in Hn as (Hi & _).
  eapply grows_trans; [apply (extract_line_grows i s Hi)|apply IH].
Qed.

Lemma handle_data_grows (s : Session) : grows s (fst (handle_data s)).
Proof.
  destruct (decide (EMPTY ∈ data s)) as [H|H].
  - rewrite (handle_data_hole s H). apply grows_refl.
  - rewrite (handle_data_scan s (length (data s)) H) by lia. apply scan_grows.
Qed.

Lemma scan_data (fuel : nat) :
  forall (s : Session) (out : list packet),
  data (fst (spec_extract_lines fuel s out)) = data s.
Proof.
  induction fuel as [|f IH]; intros s out; simpl; [reflexivity|].
  destruct (next_newline (cursor s) (data s)) as [i|]; [|reflexivity].
  now rewrite IH.
Qed.

(** With enough fuel the scan stops because no newline is left. *)
Lemma scan_settles (fuel : nat) :
  forall (s : Session) (out : list packet),
  length (data s) - cursor s <= fuel ->
  next_newline (cursor (fst (spec_extract_lines fuel s out))) (data s) = None.
Proof.
  induction fuel as [|f IH]; intros s out Hfuel; simpl.
  - apply next_newline_none. intros j Hj.
    rewrite (proj2 (lookup_ge_None (data s) j)); [discriminate|lia].
  - destruct (next_newline (cursor s) (data s)) as [i|] eqn:Hn; [|exact Hn].
    pose proof (next_newline_inv _ _ _ Hn) as (Hi & Hl & _).
    apply lookup_lt_Some in Hl.
    apply (IH (extract_line i s)). simpl. lia.
Qed.

Lemma handle_data_settled (s : Session) : settled (fst (handle_data s)).
Proof.
  destruct (decide (EMPTY ∈ data s)) as [H|H].
  - rewrite (handle_data_hole s H). now left.
  - right. rewrite (handle_data_scan s (length (data s)) H) by lia.
    rewrite scan_data. apply next_newline_none_inv.
    apply scan_settles. lia.
Qed.

(** Once settled, line extraction changes nothing and sends nothing. *)
Lemma handle_data_noop (s : Session) : settled s -> handle_data s = (s, []).
Proof.
  intros [H|H]; [now apply handle_data_hole|].
  destruct (decide (EMPTY ∈ data s)) as [He|He]; [now apply handle_data_hole|].
  rewrite (handle_data_scan s (S (length (data s))) He) by lia. simpl.
  unfold next_newline. now rewrite (proj2 (index_none NEWLINE _) H).
Qed.

(** ** Every operation on a session *)

Lemma session_step_grows (s s' : Session) : session_step s s' -> grows s s'.
Proof.
  intros [n s0|s0|p toks s0 s1 x Hne Hadd|p toks s0 s1 Hne Hadd].
  - now apply grows_same_buffers.
  - eapply grows_trans; [|apply handle_data_grows].
    now apply grows_same_buffers.
  - replace s1 with (fst (add_data p toks s0)) by now rewrite Hadd.
    now apply add_data_grows.
  - eapply grows_trans; [|apply handle_data_grows].
    replace s1 with (fst (add_data p toks s0)) by now rewrite Hadd.
    now apply add_data_grows.
Qed.

Lemma session_step_settled (s s' : Session) :
  session_step s s' -> settled s -> settled s'.
Proof.
  intros [n s0|s0|p toks s0 s1 x Hne Hadd|p toks s0 s1 Hne Hadd] Hs.
  - exact Hs.
  - apply handle_data_settled.
  - destruct (add_data_failed p toks s0 s1 x Hadd) as [Hc [k Hd]].
    unfold settled. rewrite Hc, Hd.
    destruct k as [|k].
    + simpl. now rewrite app_nil_r.
    + left. apply elem_of_app. right. simpl. apply list_elem_of_here.
  - apply handle_data_settled.
Qed.

Lemma lookup_store_inv (k k2 : bytes) (s' x : Session) (t : Sessions) :
  lookup k2 (store k s' t) = Some x ->
  (k2 = k /\ x = s' /\ lookup k t <> None) \/ (k2 <> k /\ lookup k2 t = Some x).
Proof.
  intros H. destruct (decide (k2 = k)) as [->|Hne].
  - left. destruct (lookup k t) as [s0|] eqn:Hs.
    + rewrite (lookup_store_eq k s' s0 t Hs) in H. split; [reflexivity|].
      split; congruence.
    + apply lookup_store_some in H as [s0 H0]. congruence.
  - right. split; [exact Hne|].
    rewrite lookup_store_ne in H by congruence. exact H.
Qed.

Lemma table_step_settled (a : Addr) (t t' : Sessions) :
  table_step a t t' -> all_settled t -> all_settled t'.
Proof.
  intros [|k s s' Hs Hstep|k n Hs Hn] Hall; [exact Hall| |].
  - intros k2 x H2. apply lookup_store_inv in H2 as [(-> & -> & _)|[_ H2]].
    + eapply session_step_settled; [exact Hstep|]. eapply Hall, Hs.
    + eapply Hall, H2.
  - intros k2 x. rewrite lookup_insert_new.
    destruct (lookup k2 t) eqn:H2; [intros [= <-]; eapply Hall, H2|].
    destruct (decide (k = k2)); [|discriminate].
    intros [= <-]. right. simpl. apply not_elem_of_nil.
Qed.

Lemma reachable_settled (es : list event) : all_settled (fst (run [] es)).
Proof.
  induction es as [|e es IH] using rev_ind.
  - intros k s H. discriminate.
  - rewrite run_snoc. simpl. destruct e as [d a|]; simpl; [|exact IH].
    eapply table_step_settled; [apply received_table|exact IH].
Qed.

(** ** Buffers stay within what the interpreter holds *)

Lemma session_step_fits (s s' : Session) :
  session_step s s' -> fits (data s) -> fits (data s').
Proof.
  intros [n s0|s0|p toks s0 s1 x Hne Hadd|p toks s0 s1 Hne Hadd] Hs.
  - exact Hs.
  - destruct (handle_data_frame (set_is_closed true s0)) as (_ & _ & Hd & _).
    now rewrite Hd.
  - replace s1 with (fst (add_data p toks s0)) by now rewrite Hadd.
    now apply add_data_fits.
  - destruct (handle_data_frame s1) as (_ & _ & Hd & _). rewrite Hd.
    replace s1 with (fst (add_data p toks s0)) by now rewrite Hadd.
    now apply add_data_fits.
Qed.

Lemma table_step_fit (a : Addr) (t t' : Sessions) :
  table_step a t t' -> all_fit t -> all_fit t'.
Proof.
  intros [|k s s' Hs Hstep|k n Hs Hn] Hall; [exact Hall| |].
  - intros k2 x H2. apply lookup_store_inv in H2 as [(-> & -> & _)|[_ H2]].
    + eapply session_step_fits; [exact Hstep|]. eapply Hall, Hs.
    + eapply Hall, H2.
  - intros k2 x. rewrite lookup_insert_new.
    destruct (lookup k2 t) eqn:H2; [intros [= <-]; eapply Hall, H2|].
    destruct (decide (k = k2)); [|discriminate].
    intros [= <-]. unfold fits. simpl. pose proof max_list_len_value. lia.
Qed.

Lemma reachable_fit (es : list event) : all_fit (fst (run [] es)).
Proof.
  induction es as [|e es IH] using rev_ind.
  - intros k s H. discriminate.
  - rewrite run_snoc. simpl. destruct e as [d a|]; simpl; [|exact IH].
    eapply table_step_fit; [apply received_table|exact IH].
Qed.

Lemma table_step_grows (a : Addr) (t t' : Sessions) (k : bytes) (s : Session) :
  table_step a t t' -> lookup k t = Some s ->
  exists s', lookup k t' = Some s' /\ grows s s'.
Proof.
  intros [|k0 s0 s0' Hs0 Hstep|k0 n Hs0 Hn] Hs.
  - exists s. split; [exact Hs|apply grows_refl].
  - destruct (decide (k0 = k)) as [->|Hne].
    + exists s0'. split; [apply (lookup_store_eq k s0' s0 t Hs0)|].
      assert (s0 = s) as -> by congruence. now apply session_step_grows.
    + exists s. split; [now rewrite lookup_store_ne|apply grows_refl].
  - exists s. split; [|apply grows_refl].
    now rewrite lookup_insert_new, Hs.
Qed.

(** ** Redelivery *)

Lemma list_inserts_same (p : nat) (toks l : list bytes) :
  (forall j tok, toks !! j = Some tok -> l !! (p + j) = Some tok) ->
  list_inserts p toks l = l.
Proof.
  intros Hsame. apply list_eq. intros j.
  destruct (decide (j < p)) as [Hlt|Hge];
    [now apply list_lookup_inserts_lt|].
  destruct (decide (p + length toks <= j)) as [Hhi|Hin];
    [now apply list_lookup_inserts_ge|].
  destruct (lookup_lt_is_Some_2 toks (j - p)) as [tok Htok]; [lia|].
  pose proof (Hsame _ _ Htok) as Hl.
  replace (p + (j - p)) with j in Hl by lia.
  rewrite list_lookup_inserts; [congruence|lia|].
  now apply lookup_lt_Some in Hl.
Qed.

Lemma ack_length_le (buf : list bytes) : ack_length buf <= length buf.
Proof.
  unfold ack_length. destruct (Py.index EMPTY buf) as [i|] eqn:Hi; [|lia].
  apply index_some in Hi as [Hi _]. apply lookup_lt_Some in Hi. lia.
Qed.

Lemma set_data_same (s : Session) : set_data (data s) s = s.
Proof. now destruct s. Qed.

(** A data datagram whose tokens the buffer already holds, inside the
    acknowledged prefix, leaves a settled open session as it is and is
    answered with the ack alone. *)
Lemma redelivery_unchanged (sid pos payload : bytes) (p : nat) (s : Session)
  (a : Addr) (t : Sessions) :
  SLASH ∉ sid -> lookup sid t = Some s -> is_closed s = false -> settled s ->
  fits (data s) ->
  Py.int pos = Some (Z.of_nat p) -> B_SLASH ∉ split_data payload ->
  p + length (split_data payload) <= ack_length (data s) ->
  (forall j tok, split_data payload !! j = Some tok ->
                 data s !! (p + j) = Some tok) ->
  datagram_received (data_msg sid pos payload) a t
  = returns t [(ack_datagram sid (ack_length (data s)), a)].
Proof.
  intros Hsid Hs Hopen Hset Hfit Hp Hbare Hacked Hsame.
  rewrite (data_open_received sid pos payload (Z.of_nat p) s a t) by assumption.
  pose proof (ack_length_le (data s)) as Hle.
  rewrite add_data_inside by (try exact Hfit; lia).
  rewrite (list_inserts_same p _ _ Hsame), set_data_same.
  rewrite (handle_data_noop s Hset). simpl.
  now rewrite (store_same sid s t Hs).
Qed.

(** C9: whatever reaches the engine, a datagram of any content or a tick,
    every session of the table stays in it and does not regress: its read
    cursor does not decrease, its buffer does not shrink, a slot that was
    filled is filled afterwards, and the outbound buffer keeps what it held.
    In a table the engine has reached, redelivering to an open session a
    data datagram whose tokens the buffer already holds inside the
    acknowledged prefix changes nothing at all (not the buffer length, the
    cursor or the outbound buffer) and sends the ack alone, so no extracted
    line is sent again. *)
Theorem C9_slots_and_cursor_never_regress :
  (forall t e k s, lookup k t = Some s ->
     exists s', lookup k (fst (step t e)) = Some s' /\
       cursor s <= cursor s' /\
       length (data s) <= length (data s') /\
       (forall i x, data s !! i = Some x -> x <> EMPTY ->
                    exists y, data s' !! i = Some y /\ y <> EMPTY) /\
       (exists more, send_buffer s' = send_buffer s ++ more)) /\
  (forall es sid pos payload p s a,
     let t := fst (run [] es) in
     lookup sid t = Some s -> is_closed s = false ->
     Py.int pos = Some (Z.of_nat p) -> B_SLASH ∉ split_data payload ->
     p + length (split_data payload) <= ack_length (data s) ->
     (forall j tok, split_data payload !! j = Some tok ->
                    data s !! (p + j) = Some tok) ->
     datagram_received (data_msg sid pos payload) a t
     = returns t [(P_ACK ++ sid ++ B_SLASH ++ Py.str (ack_length (data s))
                     ++ B_SLASH, a)]).
Proof.
  split.
  - intros t e k s Hs. destruct e as [d a|]; simpl.
    + destruct (table_step_grows a t _ k s (received_table d a t) Hs)
        as (s' & Hs' & Hc & [Hl Hf] & Hb).
      exists s'. repeat split; assumption.
    + exists s. destruct (grows_refl s) as (Hc & [Hl Hf] & Hb).
      repeat split; assumption.
  - intros es sid pos payload p s a t Hs Hopen Hp Hbare Hacked Hsame.
    apply (redelivery_unchanged sid pos payload p s a t); try assumption.
    + destruct (Py.int sid) as [n|] eqn:Hn.
      * exact (int_no_slash sid n Hn).
      * exfalso. exact (reachable_keys_numeric es sid s Hs Hn).
    + exact (reachable_settled es sid s Hs).
    + exact (reachable_fit es sid s Hs).
Qed.

Lemma C9_redelivery_witness :
  let a : Addr := ("10.0.0.1"%string, 4000%Z) in
  let es := [Datagram (bs "/connect/1/") a;
             Datagram (bs "/data/1/0/ab" ++ [LF] ++ bs "cd/") a] in
  let t := fst (run [] es) in
  exists s,
    lookup (bs "1") t = Some s /\
    send_buffer s = [bs "b"; bs "a"; NEWLINE] /\
    datagram_received (bs "/data/1/0/ab" ++ [LF] ++ bs "/") a t
    = returns t [(bs "/ack/1/5/", a)].
Proof.
  intros a es t.
  destruct C9_slots_and_cursor_never_regress as [_ H].
  exists (mkSession (bs "1") a [bs "a"; bs "b"; NEWLINE; bs "c"; bs "d"]
                    3 3 0%Z false [bs "b"; bs "a"; NEWLINE]).
  split; [reflexivity|]. split; [reflexivity|].
  apply (H es (bs "1") (bs "0") (bs "ab" ++ [LF]) 0
           (mkSession (bs "1") a [bs "a"; bs "b"; NEWLINE; bs "c"; bs "d"]
                      3 3 0%Z false [bs "b"; bs "a"; NEWLINE]) a);
    try reflexivity.
  - apply (bool_decide_unpack _). vm_compute. exact I.
  - vm_compute. lia.
  - intros [|[|[|j]]] tok Hj; vm_compute in Hj |- *;
      try discriminate Hj; exact Hj.
Defined.

(** ** Reversed lines *)

Lemma reverse_lines_line (l : list bytes) :
  forall acc r, NEWLINE ∉ l ->
  reverse_lines acc (l ++ NEWLINE :: r)
  = rev l ++ acc ++ [NEWLINE] ++ reverse_lines [] r.
Proof.
  induction l as [|x l IH]; intros acc r Hno; simpl.
  - destruct (decide (NEWLINE = NEWLINE)); [reflexivity|contradiction].
  - apply not_elem_of_cons in Hno as [Hx Hno].
    destruct (decide (x = NEWLINE)); [congruence|].
    rewrite IH by assumption. now rewrite <- app_assoc.
Qed.

Lemma reverse_lines_tail (l : list bytes) :
  forall acc, NEWLINE ∉ l -> reverse_lines acc l = [].
Proof.
  induction l as [|x l IH]; intros acc Hno; simpl; [reflexivity|].
  apply not_elem_of_cons in Hno as [Hx Hno].
  destruct (decide (x = NEWLINE)); [congruence|]. now apply IH.
Qed.

Lemma at_boundary_output (stream : list bytes) (c : nat) (sb : list bytes) :
  at_boundary stream c sb -> sb = reverse_lines [] (take c stream).
Proof.
  intros H. specialize (H []). simpl in H. now rewrite !app_nil_r in H.
Qed.

(** A buffer without empty slot that holds slots of the stream only is a
    prefix of the stream. *)
Lemma full_buffer_is_prefix (stream buf : list bytes) :
  length buf <= length stream ->
  (forall i x, buf !! i = Some x -> x <> EMPTY -> stream !! i = Some x) ->
  EMPTY ∉ buf -> buf = take (length buf) stream.
Proof.
  intros Hlen Hsl Hfull. apply list_eq. intros i.
  destruct (buf !! i) as [x|] eqn:Hx.
  - rewrite lookup_take_lt by (apply lookup_lt_Some in Hx; lia).
    symmetry. apply (Hsl i x Hx). intros ->.
    apply Hfull. apply list_elem_of_lookup. eauto.
  - symmetry. apply lookup_take_ge. now apply lookup_ge_None in Hx.
Qed.

(** Extracting the line that ends at the next newline keeps the outbound
    buffer the output of what has been consumed. *)
Lemma extract_line_boundary (stream : list bytes) (s : Session) (i : nat) :
  data s = take (length (data s)) stream ->
  at_boundary stream (cursor s) (send_buffer s) ->
  next_newline (cursor s) (data s) = Some i ->
  at_boundary stream (cursor (extract_line i s)) (send_buffer (extract_line i s)).
Proof.
  intros Hpre Hb Hn. apply next_newline_inv in Hn as (Hci & Hi & Hno).
  pose proof (lookup_lt_Some _ _ _ Hi) as Hlt.
  set (line := Py.slice (cursor s) i (data s)).
  assert (Hline : NEWLINE ∉ line).
  { intros Hin. apply list_elem_of_lookup in Hin as [j Hj].
    unfold line, Py.slice in Hj. rewrite lookup_drop in Hj.
    destruct (decide (cursor s + j < i)) as [Hji|Hji].
    - rewrite lookup_take_lt in Hj by lia. apply (Hno (cursor s + j)); [lia|exact Hj].
    - rewrite lookup_take_ge in Hj by lia. discriminate. }
  assert (Htake : take (i + 1) stream = take (cursor s) stream ++ line ++ [NEWLINE]).
  { assert (Hd : take (i + 1) stream = take (i + 1) (data s)).
    { rewrite Hpre, take_take. f_equal. lia. }
    rewrite Hd. replace (i + 1) with (S i) by lia.
    rewrite (take_S_r (data s) i NEWLINE Hi).
    rewrite <- (take_drop (cursor s) (take i (data s))).
    rewrite take_take, <- app_assoc.
    replace (cursor s `min` i) with (cursor s) by lia.
    f_equal. rewrite Hpre, take_take. f_equal. lia. }
  unfold extract_line; simpl. fold line.
  intros r. rewrite Htake, <- !app_assoc. simpl.
  rewrite (Hb (line ++ NEWLINE :: r)).
  rewrite (reverse_lines_line line [] r Hline). simpl.
  repeat rewrite <- app_assoc. reflexivity.
Qed.

Lemma scan_boundary (stream : list bytes) (fuel : nat) :
  forall (s : Session) (out : list packet),
  data s = take (length (data s)) stream ->
  at_boundary stream (cursor s) (send_buffer s) ->
  at_boundary stream (cursor (fst (spec_extract_lines fuel s out)))
              (send_buffer (fst (spec_extract_lines fuel s out))).
Proof.
  induction fuel as [|f IH]; intros s out Hpre Hb; simpl; [exact Hb|].
  destruct (next_newline (cursor s) (data s)) as [i|] eqn:Hn; [|exact Hb].
  apply IH; [exact Hpre|]. now apply extract_line_boundary.
Qed.

Lemma handle_data_boundary (stream : list bytes) (s : Session) :
  length (data s) <= length stream ->
  (forall i x, data s !! i = Some x -> x <> EMPTY -> stream !! i = Some x) ->
  at_boundary stream (cursor s) (send_buffer s) ->
  at_boundary stream (cursor (fst (handle_data s)))
              (send_buffer (fst (handle_data s))).
Proof.
  intros Hlen Hsl Hb. destruct (decide (EMPTY ∈ data s)) as [H|H].
  - now rewrite (handle_data_hole s H).
  - rewrite (handle_data_scan s (length (data s)) H) by lia.
    apply scan_boundary; [|exact Hb].
    now apply full_buffer_is_prefix.
Qed.

(** ** Delivering the fragments of a stream *)

Lemma deliver_data (p : nat) (toks : list bytes) (s : Session) :
  fits (data s) -> (Z.of_nat (p + length toks) <= Py.max_list_len)%Z ->
  data (deliver p toks s)
  = list_inserts p toks
      (data s ++ replicate (p + length toks - length (data s)) EMPTY).
Proof.
  intros Hfit Hcap. unfold deliver.
  destruct (handle_data_frame (fst (add_data (Z.of_nat p) toks s)))
    as (_ & _ & Hd & _).
  rewrite Hd, add_data_nat by assumption. reflexivity.
Qed.

Lemma deliver_fills (p : nat) (toks : list bytes) (s : Session) :
  fits (data s) -> (Z.of_nat (p + length toks) <= Py.max_list_len)%Z ->
  forall j tok, toks !! j = Some tok ->
                data (deliver p toks s) !! (p + j) = Some tok.
Proof.
  intros Hfit Hcap j tok Hj. rewrite deliver_data by assumption.
  pose proof (lookup_lt_Some _ _ _ Hj) as Hlt.
  rewrite list_lookup_inserts.
  - replace (p + j - p) with j by lia. exact Hj.
  - lia.
  - rewrite length_app, length_replicate. lia.
Qed.

Lemma deliver_grows (p : nat) (toks : list bytes) (s : Session) :
  EMPTY ∉ toks -> grows s (deliver p toks s).
Proof.
  intros Hne. unfold deliver.
  eapply grows_trans; [apply (add_data_grows (Z.of_nat p) toks s Hne)|].
  apply handle_data_grows.
Qed.

Lemma scan_cursor_le (fuel : nat) :
  forall (s : Session) (out : list packet),
  cursor s <= length (data s) ->
  cursor (fst (spec_extract_lines fuel s out)) <= length (data s).
Proof.
  induction fuel as [|f IH]; intros s out Hc; simpl; [exact Hc|].
  destruct (next_newline (cursor s) (data s)) as [i|] eqn:Hn; [|exact Hc].
  apply next_newline_inv in Hn as (_ & Hi & _).
  apply lookup_lt_Some in Hi.
  apply (IH (extract_line i s)). simpl. lia.
Qed.

Lemma handle_data_cursor_le (s : Session) :
  cursor s <= length (data s) ->
  cursor (fst (handle_data s)) <= length (data s).
Proof.
  intros Hc. destruct (decide (EMPTY ∈ data s)) as [H|H].
  - now rewrite (handle_data_hole s H).
  - rewrite (handle_data_scan s (length (data s)) H) by lia.
    now apply scan_cursor_le.
Qed.

Lemma deliver_tracks (stream : list bytes) (p : nat) (toks : list bytes)
  (s : Session) :
  fits stream -> tracks stream s -> fragment_of stream p toks ->
  tracks stream (deliver p toks s).
Proof.
  intros Hcap (Hlen & Hsl & Hc & Hb & _ & Hopen) [Hfit Hfrag].
  unfold fits in Hcap.
  set (s1 := fst (add_data (Z.of_nat p) toks s)).
  destruct (add_data_fields (Z.of_nat p) toks s)
    as (_ & _ & Hc1 & _ & _ & Ho1 & Hb1).
  fold s1 in Hc1, Ho1, Hb1.
  assert (Hd1 : data s1
                = list_inserts p toks
                    (data s ++ replicate (p + length toks - length (data s)) EMPTY)).
  { unfold s1. rewrite add_data_nat by (unfold fits; lia). reflexivity. }
  assert (Hlen1 : length (data s1) <= length stream).
  { rewrite Hd1, length_inserts, length_app, length_replicate. lia. }
  assert (Hcs : cursor s1 <= length (data s1)).
  { rewrite Hc1, Hd1, length_inserts, length_app. lia. }
  assert (Hsl1 : forall i x, data s1 !! i = Some x -> x <> EMPTY ->
                             stream !! i = Some x).
  { intros i x Hx Hne. rewrite Hd1 in Hx.
    destruct (decide (i < p)) as [Hlo|Hlo].
    - rewrite list_lookup_inserts_lt in Hx by lia.
      apply lookup_app_Some in Hx as [Hx|[_ Hx]]; [now apply Hsl|].
      apply lookup_replicate in Hx as [-> _]. contradiction.
    - destruct (decide (p + length toks <= i)) as [Hhi|Hhi].
      + rewrite list_lookup_inserts_ge in Hx by lia.
        apply lookup_app_Some in Hx as [Hx|[_ Hx]]; [now apply Hsl|].
        apply lookup_replicate in Hx as [-> _]. contradiction.
      + assert (Hi : i < length (data s ++ replicate
                        (p + length toks - length (data s)) EMPTY))
          by (rewrite length_app, length_replicate; lia).
        rewrite list_lookup_inserts in Hx by (try exact Hi; lia).
        apply Hfrag in Hx. now replace (p + (i - p)) with i in Hx by lia. }
  destruct (handle_data_frame s1) as (_ & _ & Hd2 & _ & Ho2).
  unfold deliver. fold s1. unfold tracks. rewrite Hd2, Ho2, Ho1.
  split; [exact Hlen1|]. split; [exact Hsl1|].
  split; [now apply handle_data_cursor_le|].
  split; [|split; [apply handle_data_settled|exact Hopen]].
  apply handle_data_boundary; try assumption. now rewrite Hc1, Hb1.
Qed.

Lemma run_table_acc (es : list event) :
  forall (t : Sessions) (out out' : list packet),
  fst (foldl (fun '(t, out) e => let '(t', o) := step t e in (t', out ++ o))
             (t, out) es)
  = fst (foldl (fun '(t, out) e => let '(t', o) := step t e in (t', out ++ o))
               (t, out') es).
Proof.
  induction es as [|e es IH]; intros t out out'; [reflexivity|].
  simpl. destruct (step t e) as [t1 o1]. apply IH.
Qed.

Lemma run_cons (t : Sessions) (e : event) (es : list event) :
  fst (run t (e :: es)) = fst (run (fst (step t e)) es).
Proof.
  unfold run. simpl. destruct (step t e) as [t1 o1]. simpl.
  apply run_table_acc.
Qed.

(** An accepted data datagram stores the delivered session. *)
Lemma data_delivered (sid pos payload : bytes) (p : nat) (s : Session)
  (a : Addr) (t : Sessions) :
  SLASH ∉ sid -> Py.int pos = Some (Z.of_nat p) ->
  lookup sid t = Some s -> is_closed s = false ->
  B_SLASH ∉ split_data payload ->
  fits (data s) ->
  (Z.of_nat (p + length (split_data payload)) <= Py.max_list_len)%Z ->
  table (datagram_received (data_msg sid pos payload) a t)
  = store sid (deliver p (split_data payload) s) t.
Proof.
  intros Hsid Hp Hs Hopen Hbare Hfit Hcap.
  rewrite (data_open_received sid pos payload (Z.of_nat p) s a t) by assumption.
  unfold deliver. rewrite add_data_nat by assumption. reflexivity.
Qed.

Lemma fragment_no_bare_slash (stream toks : list bytes) (p : nat) :
  B_SLASH ∉ stream -> fragment_of stream p toks -> B_SLASH ∉ toks.
Proof.
  intros Hs [_ Hf] Hin. apply list_elem_of_lookup in Hin as [j Hj].
  apply Hs. apply list_elem_of_lookup. exists (p + j). now apply Hf.
Qed.

(** After any list of messages that carry fragments of the stream, the
    session still tracks the stream and holds every slot they carried. *)
Lemma run_tracks (stream : list bytes) (sid : bytes) (a : Addr) :
  SLASH ∉ sid -> B_SLASH ∉ stream -> fits stream ->
  forall (msgs : list (bytes * bytes)) (t : Sessions) (s : Session),
  lookup sid t = Some s -> tracks stream s ->
  Forall (fun m => exists p, carries stream m p) msgs ->
  exists s',
    lookup sid (fst (run t (data_events sid a msgs))) = Some s' /\
    tracks stream s' /\
    filled_preserved (data s) (data s') /\
    forall m p i, m ∈ msgs -> carries stream m p ->
      p <= i < p + length (split_data (snd m)) ->
      exists y, data s' !! i = Some y /\ y <> EMPTY.
Proof.
  intros Hsid Hstream Hcap.
  induction msgs as [|m msgs IH]; intros t s Hs Ht Hall.
  - exists s. split; [exact Hs|]. split; [exact Ht|].
    split; [apply filled_preserved_refl|].
    intros m p i Hin. now apply elem_of_nil in Hin.
  - apply Forall_cons in Hall as [(p & Hp & Hfrag) Hall].
    pose proof (fragment_no_bare_slash stream _ p Hstream Hfrag) as Hbare.
    destruct Ht as (Hl & Hsl & Hc & Hb & Hset & Hopen).
    assert (Hfs : fits (data s)) by (unfold fits in *; lia).
    assert (Hfp : (Z.of_nat (p + length (split_data (snd m)))
                   <= Py.max_list_len)%Z)
      by (destruct Hfrag as [Hfr _]; unfold fits in Hcap; lia).
    set (s1 := deliver p (split_data (snd m)) s).
    assert (Ht1 : tracks stream s1).
    { apply deliver_tracks; [exact Hcap| |exact Hfrag].
      repeat split; assumption. }
    assert (Hs1 : lookup sid (fst (step t (Datagram (data_msg sid (fst m) (snd m)) a)))
                  = Some s1).
    { simpl. rewrite (data_delivered sid (fst m) (snd m) p s a t) by assumption.
      apply (lookup_store_eq sid s1 s t Hs). }
    destruct (IH _ s1 Hs1 Ht1 Hall) as (s' & Hs' & Ht' & Hf' & Hfill).
    exists s'. unfold data_events. simpl map. rewrite run_cons.
    split; [exact Hs'|]. split; [exact Ht'|].
    pose proof (deliver_grows p (split_data (snd m)) s
                  (split_data_no_empty (snd m))) as (_ & Hf1 & _).
    fold s1 in Hf1.
    split; [eapply filled_preserved_trans; eauto|].
    intros m' p' i Hin Hcar Hi.
    apply elem_of_cons in Hin as [->|Hin]; [|eapply Hfill; eauto].
    destruct Hcar as [Hp' _].
    assert (p' = p) as -> by (rewrite Hp in Hp'; injection Hp'; lia).
    destruct (lookup_lt_is_Some_2 (split_data (snd m)) (i - p)) as [tok Htok];
      [lia|].
    pose proof (deliver_fills p _ s Hfs Hfp _ _ Htok) as Hd. fold s1 in Hd.
    replace (p + (i - p)) with i in Hd by lia.
    destruct Hf' as [_ Hf']. apply (Hf' i tok Hd).
    intros ->. apply (split_data_no_empty (snd m)).
    apply list_elem_of_lookup. eauto.
Qed.

(** Without empty slot, a session that tracks a stream holds a prefix of
    it, and its outbound buffer is the output for that prefix. *)
Lemma tracks_full (stream : list bytes) (s : Session) :
  tracks stream s -> EMPTY ∉ data s ->
  data s = take (length (data s)) stream /\
  send_buffer s = reverse_lines [] (data s).
Proof.
  intros (Hl & Hsl & Hc & Hb & Hset & _) Hfull.
  pose proof (full_buffer_is_prefix stream (data s) Hl Hsl Hfull) as Hpre.
  split; [exact Hpre|].
  destruct Hset as [H|Hno]; [contradiction|].
  rewrite <- (take_drop (cursor s) (data s)).
  assert (Htk : take (cursor s) (data s) = take (cursor s) stream).
  { rewrite Hpre, take_take. f_equal. lia. }
  rewrite Htk, (Hb (drop (cursor s) (data s))).
  rewrite (reverse_lines_tail _ [] Hno). now rewrite app_nil_r.
Qed.

Lemma new_session_tracks (stream : list bytes) (sid : bytes) (a : Addr) :
  tracks stream (new_session sid a).
Proof.
  unfold tracks, new_session; simpl.
  split; [lia|]. split; [intros i x Hx; discriminate Hx|]. split; [lia|].
  split; [|split; [right; apply not_elem_of_nil|reflexivity]].
  intros r. now rewrite take_0.
Qed.

(** X17: line extraction in slots. On a buffer without empty slot,
    [handle_data] is a scan over slots: for each slot equal to the one-byte
    newline token at or after the cursor, in order, the run of slots from
    the cursor to it is reversed and appended with a newline slot to the
    outbound buffer and the cursor moves past it, until no such slot is
    left. Consequently, for a freshly connected session and data datagrams
    that carry fragments of one stream of slots (of a length the
    interpreter holds), in any order and with any repetition: whenever the
    buffer has no empty slot it is a prefix of the stream and the outbound
    buffer holds, once each and in order, the reversed slot runs of that
    prefix; and when every position of the stream has been supplied, the
    buffer is the stream and the outbound buffer is its slot runs
    reversed. *)
Theorem X17_slot_lines_are_reversed_once :
  (forall s, EMPTY ∉ data s ->
     handle_data s = spec_extract_lines (length (data s)) s [] /\
     next_newline (cursor (fst (handle_data s))) (data s) = None) /\
  (forall stream sid a a0 t msgs,
     SLASH ∉ sid -> B_SLASH ∉ stream -> fits stream ->
     lookup sid t = Some (new_session sid a0) ->
     Forall (fun m => exists p, carries stream m p) msgs ->
     exists s',
       lookup sid (fst (run t (data_events sid a msgs))) = Some s' /\
       (EMPTY ∉ data s' ->
          data s' = take (length (data s')) stream /\
          send_buffer s' = reverse_lines [] (data s')) /\
       (covered stream msgs ->
          data s' = stream /\ send_buffer s' = reverse_lines [] stream)).
Proof.
  split.
  - intros s Hfull. split; [apply handle_data_scan; [exact Hfull|lia]|].
    rewrite (handle_data_scan s (length (data s)) Hfull) by lia.
    apply scan_settles. lia.
  - intros stream sid a a0 t msgs Hsid Hstream Hcap Hs Hall.
    destruct (run_tracks stream sid a Hsid Hstream Hcap msgs t _ Hs
                (new_session_tracks stream sid a0) Hall)
      as (s' & Hs' & Ht' & _ & Hfill).
    exists s'. split; [exact Hs'|]. split; [now apply tracks_full|].
    intros Hcov.
    assert (Hfilled : forall i, i < length stream ->
              exists y, data s' !! i = Some y /\ y <> EMPTY).
    { intros i Hi. destruct (Hcov i Hi) as (m & p & Hin & Hcar & Hr).
      exact (Hfill m p i Hin Hcar Hr). }
    pose proof Ht' as (Hl & _).
    assert (Hlen : length (data s') = length stream).
    { destruct (decide (length stream = 0)) as [H0|H0]; [lia|].
      destruct (Hfilled (length stream - 1)) as (y & Hy & _); [lia|].
      apply lookup_lt_Some in Hy. lia. }
    assert (Hfull : EMPTY ∉ data s').
    { intros Hin. apply list_elem_of_lookup in Hin as [i Hi].
      pose proof (lookup_lt_Some _ _ _ Hi) as Hlt.
      destruct (Hfilled i) as (y & Hy & Hne); [lia|]. congruence. }
    destruct (tracks_full stream s' Ht' Hfull) as [Hpre Hout].
    assert (Hd : data s' = stream).
    { rewrite Hpre. apply take_ge. lia. }
    split; [exact Hd|]. now rewrite Hout, Hd.
Qed.

Lemma X17_slot_lines_witness :
  let a : Addr := ("10.0.0.1"%string, 4000%Z) in
  let t := [(bs "7", new_session (bs "7") a)] in
  let msgs := [(bs "1", bs "i" ++ [LF]); (bs "0", bs "h");
               (bs "1", bs "i" ++ [LF])] in
  exists s',
    lookup (bs "7") (fst (run t (data_events (bs "7") a msgs))) = Some s' /\
    data s' = [bs "h"; bs "i"; NEWLINE] /\
    send_buffer s' = [bs "i"; bs "h"; NEWLINE].
Proof.
  intros a t msgs.
  destruct X17_slot_lines_are_reversed_once as [_ H].
  destruct (H [bs "h"; bs "i"; NEWLINE] (bs "7") a a t msgs)
    as (s' & Hs' & _ & Hcov).
  - apply (bool_decide_unpack _). vm_compute. exact I.
  - apply (bool_decide_unpack _). vm_compute. exact I.
  - unfold fits. vm_compute. discriminate.
  - reflexivity.
  - repeat constructor.
    + exists 1. split; [reflexivity|]. split; [vm_compute; lia|].
      intros [|[|j]] tok Hj; vm_compute in Hj |- *;
        try discriminate Hj; exact Hj.
    + exists 0. split; [reflexivity|]. split; [vm_compute; lia|].
      intros [|j] tok Hj; vm_compute in Hj |- *;
        try discriminate Hj; exact Hj.
    + exists 1. split; [reflexivity|]. split; [vm_compute; lia|].
      intros [|[|j]] tok Hj; vm_compute in Hj |- *;
        try discriminate Hj; exact Hj.
  - exists s'. split; [exact Hs'|]. apply Hcov.
    intros i Hi.
    assert (Hm1 : carries [bs "h"; bs "i"; NEWLINE] (bs "1", bs "i" ++ [LF]) 1).
    { split; [reflexivity|]. split; [vm_compute; lia|].
      intros [|[|j]] tok Hj; vm_compute in Hj |- *;
        try discriminate Hj; exact Hj. }
    assert (Hm0 : carries [bs "h"; bs "i"; NEWLINE] (bs "0", bs "h") 0).
    { split; [reflexivity|]. split; [vm_compute; lia|].
      intros [|j] tok Hj; vm_compute in Hj |- *;
        try discriminate Hj; exact Hj. }
    destruct i as [|i].
    + exists (bs "0", bs "h"), 0. split; [|split; [exact Hm0|vm_compute; lia]].
      apply list_elem_of_further, list_elem_of_here.
    + exists (bs "1", bs "i" ++ [LF]), 1.
      split; [apply list_elem_of_here|].
      split; [exact Hm1|]. simpl in Hi. vm_compute. lia.
Defined.

(** ** Scenarios *)

(** Connect, one line, close. *)
Example scenario_hello :
  let a : Addr := ("10.0.0.1"%string, 4000%Z) in
  snd (run [] [Datagram (bs "/connect/12345/") a;
               Datagram (bs "/data/12345/0/hello" ++ [LF] ++ bs "/") a;
               Datagram (bs "/close/12345/") a])
  = [(bs "/ack/12345/0/", a);
     (bs "/data/12345/0/olleh" ++ [LF] ++ bs "/", a);
     (bs "/ack/12345/6/", a);
     (bs "/close/12345/", a)].
Proof. vm_compute. reflexivity. Qed.

(** The second half of a line arrives first: nothing is acknowledged or
    extracted until the first half fills the gap; then the line goes out
    once, and a tick sends the whole buffer again. *)
Example scenario_out_of_order :
  let a : Addr := ("10.0.0.1"%string, 4000%Z) in
  snd (run [] [Datagram (bs "/connect/1/") a;
               Datagram (bs "/data/1/5/6789" ++ [LF] ++ bs "/") a;
               Datagram (bs "/data/1/0/12345/") a;
               Tick])
  = [(bs "/ack/1/0/", a);
     (bs "/ack/1/0/", a);
     (bs "/data/1/0/987654321" ++ [LF] ++ bs "/", a);
     (bs "/ack/1/10/", a);
     (bs "/data/1/0/987654321" ++ [LF] ++ bs "/", a)].
Proof. vm_compute. reflexivity. Qed.

(** An escaped slash is one slot and travels as the pair. *)
Example scenario_escaped_slash :
  let a : Addr := ("10.0.0.1"%string, 4000%Z) in
  snd (run [] [Datagram (bs "/connect/1/") a;
               Datagram (bs "/data/1/0/a\/b" ++ [LF] ++ bs "/") a])
  = [(bs "/ack/1/0/", a);
     (bs "/data/1/0/b\/a" ++ [LF] ++ bs "/", a);
     (bs "/ack/1/4/", a)].
Proof. vm_compute. reflexivity. Qed.

(** The output for three lines, the last one unterminated. *)
Example reverse_lines_sample :
  reverse_lines [] (split_data (bs "ab" ++ [LF] ++ bs "cde" ++ [LF] ++ bs "fg"))
  = split_data (bs "ba" ++ [LF] ++ bs "edc" ++ [LF]).
Proof. vm_compute. reflexivity. Qed.

(** A position beyond the index-sized integers, or beyond the longest
    list: the padding line raises, nothing is stored and nothing is sent. *)
Example scenario_position_out_of_range :
  let a : Addr := ("10.0.0.1"%string, 4000%Z) in
  let t := fst (run [] [Datagram (bs "/connect/1/") a]) in
  datagram_received (bs "/data/1/9223372036854775808/x/") a t
  = raises Py.OverflowError t [] /\
  datagram_received (bs "/data/1/-9223372036854775809//") a t
  = raises Py.OverflowError t [] /\
  datagram_received (bs "/data/1/1152921504606846976/x/") a t
  = raises Py.MemoryError t [] /\
  datagram_received (bs "/data/1/-9223372036854775809/x/") a t
  = raises Py.IndexError t [].
Proof. vm_compute. repeat split. Qed.

(** ** Adjacent line feeds *)

(** C5: lines are not extracted at every line feed byte. Two adjacent line
    feeds reach the buffer as one slot of two bytes, which is not the
    newline slot the scan looks for. The seven bytes [ab\n\ncd\n], that is
    the lines [ab], the empty line and [cd], fill six slots and are
    extracted as one line: [dc\n\nba\n] is sent and 6 is acknowledged,
    where line reversal on the bytes gives [ba\n\ndc\n]. After the four
    bytes [hi\n\n], two complete lines, the buffer has no empty slot and
    nothing has been extracted, where line reversal gives [ih\n\n]. *)
Theorem C5_adjacent_line_feeds_end_no_line (a : Addr) :
  let in1 := bs "ab" ++ [LF; LF] ++ bs "cd" ++ [LF] in
  let in2 := bs "hi" ++ [LF; LF] in
  let r1 := run [] [Datagram (bs "/connect/1/") a;
                    Datagram (bs "/data/1/0/" ++ in1 ++ bs "/") a] in
  let r2 := run [] [Datagram (bs "/connect/1/") a;
                    Datagram (bs "/data/1/0/" ++ in2 ++ bs "/") a] in
  snd r1 = [(bs "/ack/1/0/", a);
            (bs "/data/1/0/dc" ++ [LF; LF] ++ bs "ba" ++ [LF] ++ bs "/", a);
            (bs "/ack/1/6/", a)] /\
  spec_reverse_bytes [] in1 = bs "ba" ++ [LF; LF] ++ bs "dc" ++ [LF] /\
  snd r2 = [(bs "/ack/1/0/", a); (bs "/ack/1/3/", a)] /\
  (exists s, lookup (bs "1") (fst r2) = Some s /\
             data s = [bs "h"; bs "i"; [LF; LF]] /\
             cursor s = 0 /\ send_buffer s = []) /\
  spec_reverse_bytes [] in2 = bs "ih" ++ [LF; LF].
Proof.
  intros in1 in2 r1 r2.
  split; [vm_compute; reflexivity|]. split; [vm_compute; reflexivity|].
  split; [vm_compute; reflexivity|]. split; [|vm_compute; reflexivity].
  eexists. split; [vm_compute; reflexivity|].
  split; [reflexivity|]. split; reflexivity.
Qed.

(** C8: the pieces of a delivery are cut by slots, not by bytes. After the
    603 bytes [a..a\n\nb..b\n] (300 of each letter) the outbound buffer
    holds 603 bytes in 602 slots, the two adjacent line feeds in one.
    Delivery, after the extraction and at every tick, sends the first 512
    slots, 513 bytes, as the piece at offset 0 and the other 90 bytes as
    the piece at offset 512, though they start at byte 513; pieces of 512
    bytes are the bytes [[0, 512)] at 0 and [[512, 603)] at 512. *)
Theorem C8_piece_of_512_slots_holds_513_bytes (a : Addr) :
  let input := replicate 300 x61 ++ [LF; LF] ++ replicate 300 x62 ++ [LF] in
  let out := replicate 300 x62 ++ [LF; LF] ++ replicate 300 x61 ++ [LF] in
  let t := fst (run [] [Datagram (bs "/connect/1/") a;
                        Datagram (bs "/data/1/0/" ++ input ++ bs "/") a]) in
  exists s,
    lookup (bs "1") t = Some s /\ is_closed s = false /\
    length (send_buffer s) = 602 /\
    concat (send_buffer s) = out /\ length out = 603 /\
    send_data s = [(bs "/data/1/0/" ++ take 513 out ++ bs "/", a);
                   (bs "/data/1/512/" ++ drop 513 out ++ bs "/", a)] /\
    snd (step t Tick) = send_data s /\
    spec_pieces 603 512 0 out = [(0, take 512 out); (512, drop 512 out)].
Proof.
  intros input out t.
  eexists. split; [vm_compute; reflexivity|].
  split; [reflexivity|]. split; [vm_compute; reflexivity|].
  split; [vm_compute; reflexivity|]. split; [vm_compute; reflexivity|].
  split; [vm_compute; reflexivity|]. split; vm_compute; reflexivity.
Qed.

(** * Further properties of the session engine *)

(** ** What [add_data] writes *)

Lemma write_all_negative (toks : list bytes) :
  forall (buf : list bytes) (k : nat),
  length toks <= k <= length buf ->
  write_all buf (- Z.of_nat k) toks
  = (list_inserts (length buf - k) toks buf, None).
Proof.
  induction toks as [|v toks IH]; intros buf k Hk; simpl; [reflexivity|].
  simpl in Hk. unfold Py.setitem.
  destruct (decide (0 <= - Z.of_nat k < Z.of_nat (length buf))%Z); [lia|].
  destruct (decide (- Z.of_nat (length buf) <= - Z.of_nat k < 0)%Z); [|lia].
  replace (Z.to_nat (Z.of_nat (length buf) + - Z.of_nat k))
    with (length buf - k) by lia.
  replace (- Z.of_nat k + 1)%Z with (- Z.of_nat (k - 1))%Z by lia.
  rewrite IH by (rewrite length_insert; lia).
  rewrite length_insert.
  replace (length buf - (k - 1)) with (S (length buf - k)) by lia.
  f_equal. symmetry. apply list_insert_inserts_lt. lia.
Qed.

Lemma write_all_fails_first (toks : list bytes) (buf : list bytes) (i : Z) :
  toks <> [] -> (i < - Z.of_nat (length buf))%Z ->
  write_all buf i toks = (buf, Some Py.IndexError).
Proof.
  intros Hne Hlo. destruct toks as [|v toks]; [contradiction|]. simpl.
  unfold Py.setitem.
  destruct (decide (0 <= i < Z.of_nat (length buf))%Z); [lia|].
  destruct (decide (- Z.of_nat (length buf) <= i < 0)%Z); [lia|reflexivity].
Qed.

(** X1: a write at a position counted from the start, into a buffer the
    interpreter holds. When [add_data] returns, the buffer is as long as
    the larger of its old length and the end of the write, the written
    range holds the tokens, the slots of the old buffer outside the range
    are as before, the slots of the gap between the old end and the
    position are empty, and nothing else of the session has changed. It
    never raises [IndexError] and never leaves a half-written buffer: the
    only line that can raise is the padding line, with [OverflowError] when
    the padding count is not index-sized and [MemoryError] otherwise, and
    the session is then exactly as it was; a write that stays inside the
    buffer raises nothing. *)
Theorem X1_add_data_writes_in_place (p : nat) (toks : list bytes) (s : Session) :
  fits (data s) ->
  let count :=
    (Z.of_nat p + Z.of_nat (length toks) - Z.of_nat (length (data s)))%Z in
  match add_data (Z.of_nat p) toks s with
  | (s1, None) =>
      s1 = set_data (data s1) s /\
      length (data s1) = max (length (data s)) (p + length toks) /\
      fits (data s1) /\
      (forall j, j < length toks -> data s1 !! (p + j) = toks !! j) /\
      (forall i, i < length (data s) -> i < p \/ p + length toks <= i ->
                 data s1 !! i = data s !! i) /\
      (forall i, length (data s) <= i < p -> data s1 !! i = Some EMPTY)
  | (s1, Some x) =>
      s1 = s /\ length (data s) < p + length toks /\
      x = if decide (Py.maxsize < count)%Z then Py.OverflowError
          else Py.MemoryError
  end.
Proof.
  intros Hfit count.
  pose proof max_list_len_value as Hcap. pose proof maxsize_value as Hmax.
  pose proof (add_data_fits (Z.of_nat p) toks s Hfit) as Hfit1.
  unfold fits in Hfit.
  assert (Hw : written (Z.of_nat p) toks s
               = (set_data
                    (list_inserts p toks
                       (data s ++ replicate (p + length toks - length (data s))
                                            EMPTY)) s, None)).
  { unfold written.
    replace (Z.to_nat (Z.of_nat p + Z.of_nat (length toks)
                       - Z.of_nat (length (data s))))
      with (p + length toks - length (data s)) by lia.
    rewrite write_all_nat; [reflexivity|].
    rewrite length_app, length_replicate. lia. }
  destruct (add_data (Z.of_nat p) toks s) as [s1 [x|]] eqn:Hadd.
  - assert (Hx : x <> Py.IndexError).
    { destruct (add_data_unfold (Z.of_nat p) toks s) as [(y & Hy & Hyy)|Hy];
        rewrite Hy in Hadd; [|rewrite Hw in Hadd; discriminate Hadd].
      injection Hadd as _ <-. destruct Hyy as [-> | ->]; discriminate. }
    destruct (add_data_stops _ _ _ _ _ Hadd Hx) as [-> Hcase]. fold count in Hcase.
    split; [reflexivity|].
    destruct Hcase as [[-> Hc]|(-> & Hc & Hc')].
    + destruct (decide (Py.maxsize < count)%Z); [|lia].
      split; [lia|reflexivity].
    + destruct (decide (Py.maxsize < count)%Z); [lia|].
      split; [lia|reflexivity].
  - destruct (add_data_unfold (Z.of_nat p) toks s) as [(y & Hy & _)|Hy];
      rewrite Hy in Hadd; [discriminate Hadd|].
    rewrite Hw in Hadd. injection Hadd as <-. simpl in Hfit1 |- *.
    set (pad := replicate (p + length toks - length (data s)) EMPTY) in *.
    assert (Hlen : length (data s ++ pad)
                   = max (length (data s)) (p + length toks)).
    { unfold pad. rewrite length_app, length_replicate. lia. }
    split; [reflexivity|]. split; [now rewrite length_inserts|].
    split; [exact Hfit1|]. split; [|split].
    + intros j Hj. rewrite list_lookup_inserts by lia. f_equal. lia.
    + intros i Hi [Hlo|Hhi].
      * rewrite list_lookup_inserts_lt by lia. now apply lookup_app_l.
      * rewrite list_lookup_inserts_ge by lia. now apply lookup_app_l.
    + intros i Hi. rewrite list_lookup_inserts_lt by lia.
      rewrite lookup_app_r by lia. unfold pad.
      apply lookup_replicate_2. lia.
Qed.

Lemma X1_add_data_witness :
  let a : Addr := ("10.0.0.1"%string, 4000%Z) in
  let s := set_data [bs "a"] (new_session (bs "1") a) in
  fits (data s) /\
  data (fst (add_data 3 [bs "x"; bs "y"] s))
  = [bs "a"; EMPTY; EMPTY; bs "x"; bs "y"] /\
  length (data (fst (add_data 3 [bs "x"; bs "y"] s))) = 5.
Proof.
  intros a s.
  assert (Hfit : fits (data s)) by (unfold fits; vm_compute; discriminate).
  split; [exact Hfit|]. split; [reflexivity|].
  pose proof (X1_add_data_writes_in_place 3 [bs "x"; bs "y"] s Hfit) as H.
  vm_compute in H. destruct H as (_ & Hlen & _). exact Hlen.
Defined.

(** X2: a negative position is not refused: for [-k] with a payload of at
    most [k] tokens and a buffer of at least [k] slots (one the interpreter
    holds), the tokens overwrite the slots counted from the end of the
    buffer (Python's negative indices), nothing is padded and nothing is
    raised. *)
Theorem X2_add_data_negative_position_wraps
  (k : nat) (toks : list bytes) (s : Session) :
  fits (data s) ->
  length toks <= k -> k <= length (data s) ->
  add_data (- Z.of_nat k) toks s
  = (set_data (list_inserts (length (data s) - k) toks (data s)) s, None).
Proof.
  intros Hfit Hn Hk. unfold fits in Hfit.
  pose proof max_list_len_value as Hcap. pose proof maxsize_value as Hmax.
  rewrite add_data_pads by lia. unfold written.
  replace (Z.to_nat (- Z.of_nat k + Z.of_nat (length toks)
                     - Z.of_nat (length (data s)))) with 0 by lia.
  simpl replicate. rewrite app_nil_r.
  rewrite write_all_negative by lia. reflexivity.
Qed.

Lemma X2_negative_position_witness :
  let a : Addr := ("10.0.0.1"%string, 4000%Z) in
  let s := set_data [bs "a"; bs "b"; bs "c"] (new_session (bs "1") a) in
  data (fst (add_data (-2) [bs "x"; bs "y"] s)) = [bs "a"; bs "x"; bs "y"].
Proof.
  intros a s.
  assert (H0 : fits (data s)) by (unfold fits; vm_compute; discriminate).
  assert (H1 : length [bs "x"; bs "y"] <= 2) by (simpl; lia).
  assert (H2 : 2 <= length (data s)) by (simpl; lia).
  pose proof (X2_add_data_negative_position_wraps 2 [bs "x"; bs "y"] s H0 H1 H2)
    as H.
  change (- Z.of_nat 2)%Z with (-2)%Z in H. rewrite H. reflexivity.
Defined.

(** X3: what [add_data] raises at a negative position, for a buffer and a
    payload the interpreter holds. With [count = pos + len(tokens) -
    len(buffer)]: it raises [OverflowError] exactly when [count] is below
    the index-sized integers, at the padding line, and the session is as it
    was; it raises [IndexError] exactly when [count] is index-sized, there
    is a token to write and the position lies before the start of the
    padded buffer, which is as long as the larger of the old length and the
    end of the write: the exception comes from the first assignment, the
    buffer has been padded and nothing has been written; it never raises
    [MemoryError], and raises nothing in every other case. *)
Theorem X3_add_data_raises_before_the_start
  (p : Z) (toks : list bytes) (s : Session) :
  fits (data s) -> fits toks -> (p < 0)%Z ->
  let len := Z.of_nat (length (data s)) in
  let n := Z.of_nat (length toks) in
  let count := (p + n - len)%Z in
  (snd (add_data p toks s) = Some Py.OverflowError <->
   (count < - Py.maxsize - 1)%Z) /\
  (snd (add_data p toks s) = Some Py.IndexError <->
   (- Py.maxsize - 1 <= count)%Z /\ toks <> [] /\
   (p < - Z.max len (p + n))%Z) /\
  (forall x, snd (add_data p toks s) = Some x ->
     x = Py.OverflowError /\ add_data p toks s = (s, Some x) \/
     x = Py.IndexError /\
     add_data p toks s
     = (set_data (data s ++ replicate (Z.to_nat count) EMPTY) s, Some x)).
Proof.
  intros Hfit Hfn Hneg len n count. unfold fits in Hfit, Hfn.
  pose proof max_list_len_value as Hcap. pose proof maxsize_value as Hmax.
  destruct (decide (count < - Py.maxsize - 1)%Z) as [Hov|Hov].
  - assert (Hadd : add_data p toks s = (s, Some Py.OverflowError)).
    { unfold add_data, Py.repeat. fold len n count.
      destruct (decide (- Py.maxsize - 1 <= count <= Py.maxsize)%Z);
        [lia|reflexivity]. }
    rewrite Hadd. simpl. split; [tauto|]. split.
    + split; [discriminate|lia].
    + intros x [= <-]. now left.
  - rewrite add_data_pads by (fold len n count; lia).
    unfold written. fold len n count.
    set (padded := data s ++ replicate (Z.to_nat count) EMPTY).
    assert (Hlen : Z.of_nat (length padded) = Z.max len (p + n)).
    { unfold padded. rewrite length_app, length_replicate. lia. }
    destruct (decide (toks <> [] /\ (p < - Z.of_nat (length padded))%Z))
      as [[Hne Hlo]|Hok].
    + rewrite (write_all_fails_first toks padded p Hne Hlo). simpl.
      split; [split; [discriminate|lia]|]. split.
      * split; [intros _; split; [lia|split; [exact Hne|lia]]|reflexivity].
      * intros x [= <-]. right. split; reflexivity.
    + assert (Hnone : snd (write_all padded p toks) = None).
      { destruct toks as [|v toks']; [reflexivity|].
        apply write_all_ok; [|fold n; lia].
        destruct (decide (- Z.of_nat (length padded) <= p)%Z); [assumption|].
        exfalso. apply Hok. split; [discriminate|lia]. }
      rewrite Hnone. split; [split; [discriminate|lia]|]. split.
      * split; [discriminate|].
        intros (_ & Hne & Hlo). exfalso. apply Hok. split; [exact Hne|lia].
      * intros x Hx. discriminate Hx.
Qed.

Lemma X3_add_data_raises_witness :
  let a : Addr := ("10.0.0.1"%string, 4000%Z) in
  let s := new_session (bs "1") a in
  let toks := [bs "a"; bs "b"; bs "c"; bs "d"; bs "e"] in
  add_data (-3) toks s = (set_data [EMPTY; EMPTY] s, Some Py.IndexError) /\
  add_data (-9223372036854775809) [] s = (s, Some Py.OverflowError).
Proof.
  intros a s toks.
  assert (Hs : fits (data s)) by (unfold fits; vm_compute; discriminate).
  assert (Ht : fits toks) by (unfold fits; vm_compute; discriminate).
  assert (Hn : fits (@nil bytes)) by (unfold fits; vm_compute; discriminate).
  split.
  - destruct (X3_add_data_raises_before_the_start (-3) toks s Hs Ht eq_refl)
      as (_ & Hiff & Hfail).
    destruct (Hfail Py.IndexError) as [[Hx _]|[_ Hadd]];
      [|discriminate Hx|exact Hadd].
    apply Hiff. split; [vm_compute; discriminate|].
    split; [discriminate|reflexivity].
  - reflexivity.
Defined.

(** ** Invariants of the sessions the engine reaches *)

(** A property of fresh sessions that every operation keeps holds of every
    session of every table reached from the empty one. *)
Lemma reachable_sessions (P : bytes -> Session -> Prop) :
  (forall k a, P k (new_session k a)) ->
  (forall k s s', P k s -> session_step s s' -> P k s') ->
  forall es k s, lookup k (fst (run [] es)) = Some s -> P k s.
Proof.
  intros Hnew Hstep. induction es as [|e es IH] using rev_ind; intros k s.
  - discriminate.
  - rewrite run_snoc. simpl. destruct e as [d a|]; simpl; [|apply IH].
    destruct (received_table d a (fst (run [] es)))
      as [|k0 s0 s0' Hs0 Hst|k0 n Hs0 Hn]; [apply IH| |].
    + intros H. apply lookup_store_inv in H as [(-> & -> & _)|[_ H]].
      * eapply Hstep; [|exact Hst]. now apply IH.
      * now apply IH.
    + rewrite lookup_insert_new.
      destruct (lookup k (fst (run [] es))) eqn:Hk; [intros [= <-]; now apply IH|].
      destruct (decide (k0 = k)) as [->|]; [|discriminate].
      intros [= <-]. apply Hnew.
Qed.

Lemma ack_length_filled (buf : list bytes) (i : nat) :
  i < ack_length buf -> exists x, buf !! i = Some x /\ x <> EMPTY.
Proof.
  intros Hi. pose proof (ack_length_le buf) as Hle.
  destruct (lookup_lt_is_Some_2 buf i) as [x Hx]; [lia|].
  exists x. split; [exact Hx|]. intros ->.
  unfold ack_length in Hi.
  destruct (Py.index EMPTY buf) as [h|] eqn:Hh.
  - apply index_some in Hh as [_ Hmin]. now apply (Hmin i).
  - apply index_none in Hh. apply Hh. apply list_elem_of_lookup. eauto.
Qed.

Lemma ack_length_hole (buf : list bytes) :
  ack_length buf < length buf -> buf !! ack_length buf = Some EMPTY.
Proof.
  unfold ack_length. destruct (Py.index EMPTY buf) as [h|] eqn:Hh; [|lia].
  intros _. now apply index_some in Hh as [Hh _].
Qed.

Lemma ack_length_mono (buf buf' : list bytes) :
  filled_preserved buf buf' -> ack_length buf <= ack_length buf'.
Proof.
  intros [Hlen Hf].
  destruct (decide (ack_length buf <= ack_length buf')) as [|Hlt]; [assumption|].
  exfalso. pose proof (ack_length_le buf) as Hle.
  assert (Hhole : buf' !! ack_length buf' = Some EMPTY)
    by (apply ack_length_hole; lia).
  destruct (ack_length_filled buf (ack_length buf')) as (x & Hx & Hne); [lia|].
  destruct (Hf _ _ Hx Hne) as (y & Hy & Hyne). congruence.
Qed.

(** X4: the cumulative acknowledgment is sound and never goes back. After
    any event, datagram or tick, the length a session would acknowledge (the
    first empty slot, or the buffer length) is at least what it was before,
    it does not exceed the buffer, and every slot below it is filled. *)
Theorem X4_ack_length_is_sound_and_monotone
  (t : Sessions) (e : event) (k : bytes) (s : Session) :
  lookup k t = Some s ->
  exists s',
    lookup k (fst (step t e)) = Some s' /\
    ack_length (data s) <= ack_length (data s') /\
    ack_length (data s') <= length (data s') /\
    forall i, i < ack_length (data s') ->
              exists x, data s' !! i = Some x /\ x <> EMPTY.
Proof.
  intros Hs.
  assert (Hg : exists s', lookup k (fst (step t e)) = Some s' /\ grows s s').
  { destruct e as [d a|]; simpl.
    - exact (table_step_grows a t _ k s (received_table d a t) Hs).
    - exists s. split; [exact Hs|apply grows_refl]. }
  destruct Hg as (s' & Hs' & _ & Hf & _).
  exists s'. split; [exact Hs'|]. split; [now apply ack_length_mono|].
  split; [apply ack_length_le|apply ack_length_filled].
Qed.

Lemma X4_ack_length_witness :
  let a : Addr := ("10.0.0.1"%string, 4000%Z) in
  let s := set_data [bs "a"; EMPTY; bs "c"] (new_session (bs "1") a) in
  exists s',
    lookup (bs "1") (fst (step [(bs "1", s)] (Datagram (bs "/data/1/1/b/") a)))
    = Some s' /\
    ack_length (data s) <= ack_length (data s').
Proof.
  intros a s.
  destruct (X4_ack_length_is_sound_and_monotone [(bs "1", s)]
              (Datagram (bs "/data/1/1/b/") a) (bs "1") s eq_refl)
    as (s' & Hs' & Hm & _).
  exists s'. split; assumption.
Defined.

(** ** Bookkeeping *)

Lemma slice_length {A} (c i : nat) (l : list A) :
  c <= i <= length l -> length (Py.slice c i l) = i - c.
Proof.
  intros H. unfold Py.slice. rewrite length_drop, length_take. lia.
Qed.

Lemma extract_line_balanced (i : nat) (s : Session) :
  balanced s -> cursor s <= i -> i < length (data s) ->
  balanced (extract_line i s).
Proof.
  intros (Hc & Hsc & Hle) Hi Hlt. unfold balanced, extract_line. simpl.
  rewrite !length_app, length_rev, slice_length by lia. simpl. lia.
Qed.

Lemma scan_balanced (fuel : nat) :
  forall (s : Session) (out : list packet),
  balanced s -> balanced (fst (spec_extract_lines fuel s out)).
Proof.
  induction fuel as [|f IH]; intros s out Hb; simpl; [exact Hb|].
  destruct (next_newline (cursor s) (data s)) as [i|] eqn:Hn; [|exact Hb].
  apply next_newline_inv in Hn as (Hci & Hi & _).
  apply lookup_lt_Some in Hi.
  apply IH. now apply extract_line_balanced.
Qed.

Lemma handle_data_balanced (s : Session) :
  balanced s -> balanced (fst (handle_data s)).
Proof.
  intros Hb. destruct (decide (EMPTY ∈ data s)) as [H|H].
  - now rewrite (handle_data_hole s H).
  - rewrite (handle_data_scan s (length (data s)) H) by lia.
    now apply scan_balanced.
Qed.

Lemma add_data_balanced (p : Z) (toks : list bytes) (s : Session) :
  EMPTY ∉ toks -> balanced s -> balanced (fst (add_data p toks s)).
Proof.
  intros Hne (Hc & Hsc & Hle).
  destruct (add_data_fields p toks s) as (_ & _ & Hc1 & Hsc1 & _ & _ & Hb1).
  destruct (add_data_grows p toks s Hne) as (_ & [Hlen _] & _).
  unfold balanced. rewrite Hc1, Hsc1, Hb1. lia.
Qed.

Lemma session_step_balanced (s s' : Session) :
  balanced s -> session_step s s' -> balanced s'.
Proof.
  intros Hb Hst. revert Hb.
  destruct Hst as [n s0|s0|p toks s0 s1 x Hne Hadd|p toks s0 s1 Hne Hadd];
    intros Hb.
  - exact Hb.
  - apply handle_data_balanced. exact Hb.
  - replace s1 with (fst (add_data p toks s0)) by now rewrite Hadd.
    now apply add_data_balanced.
  - apply handle_data_balanced.
    replace s1 with (fst (add_data p toks s0)) by now rewrite Hadd.
    now apply add_data_balanced.
Qed.

Lemma reachable_balanced (es : list event) (k : bytes) (s : Session) :
  lookup k (fst (run [] es)) = Some s -> balanced s.
Proof.
  apply (reachable_sessions (fun _ s => balanced s)).
  - intros k0 a. unfold balanced; simpl; lia.
  - intros k0 s0 s0'. apply session_step_balanced.
Qed.

(** X5: in every table the engine reaches from the empty one, a session's
    read cursor, its [send_cursor] and the length of its outbound buffer are
    equal, and none exceeds the number of slots received: the service has
    produced exactly as many slots as it has consumed. *)
Theorem X5_output_equals_consumed_input
  (es : list event) (k : bytes) (s : Session) :
  lookup k (fst (run [] es)) = Some s ->
  cursor s = length (send_buffer s) /\
  send_cursor s = length (send_buffer s) /\
  length (send_buffer s) <= length (data s).
Proof.
  intros Hs. destruct (reachable_balanced es k s Hs) as (Hc & Hsc & Hle).
  lia.
Qed.

Lemma X5_output_witness :
  let a : Addr := ("10.0.0.1"%string, 4000%Z) in
  let es := [Datagram (bs "/connect/1/") a;
             Datagram (bs "/data/1/0/ab" ++ [LF] ++ bs "cd/") a] in
  exists s, lookup (bs "1") (fst (run [] es)) = Some s /\
            cursor s = 3 /\ length (send_buffer s) = 3 /\ length (data s) = 5.
Proof.
  intros a es.
  exists (mkSession (bs "1") a [bs "a"; bs "b"; NEWLINE; bs "c"; bs "d"]
                    3 3 0%Z false [bs "b"; bs "a"; NEWLINE]).
  assert (Hs : lookup (bs "1") (fst (run [] es))
               = Some (mkSession (bs "1") a
                         [bs "a"; bs "b"; NEWLINE; bs "c"; bs "d"]
                         3 3 0%Z false [bs "b"; bs "a"; NEWLINE]))
    by reflexivity.
  destruct (X5_output_equals_consumed_input es (bs "1") _ Hs) as (Hc & _ & _).
  split; [exact Hs|]. split; [exact Hc|]. split; reflexivity.
Defined.

(** X6: in a table the engine has reached, an ack whose LENGTH does not
    exceed the number of slots placed in the outbound buffer is never
    answered: the handler stores the position (whatever the one stored
    before) and sends nothing. *)
Theorem X6_honest_ack_is_never_answered
  (es : list event) (sid len : bytes) (n : Z) (s : Session) (a : Addr) :
  let t := fst (run [] es) in
  lookup sid t = Some s -> Py.int len = Some n ->
  (n <= Z.of_nat (length (send_buffer s)))%Z ->
  datagram_received (ack_msg sid len) a t
  = returns (store sid (set_acked_until n s) t) [].
Proof.
  intros t Hs Hn Hle.
  assert (Hsid : SLASH ∉ sid).
  { destruct (Py.int sid) as [m|] eqn:Hm; [exact (int_no_slash sid m Hm)|].
    exfalso. exact (reachable_keys_numeric es sid s Hs Hm). }
  rewrite (ack_received sid len n s a t Hsid Hn Hs).
  destruct (reachable_balanced es sid s Hs) as (Hc & Hsc & Hd).
  destruct (decide (n > Z.of_nat (length (data s)))%Z); [lia|reflexivity].
Qed.

Lemma X6_honest_ack_witness :
  let a : Addr := ("10.0.0.1"%string, 4000%Z) in
  let es := [Datagram (bs "/connect/1/") a;
             Datagram (bs "/data/1/0/ab" ++ [LF] ++ bs "cd/") a] in
  sent (datagram_received (bs "/ack/1/3/") a (fst (run [] es))) = [].
Proof.
  intros a es.
  assert (Hs : lookup (bs "1") (fst (run [] es))
               = Some (mkSession (bs "1") a
                         [bs "a"; bs "b"; NEWLINE; bs "c"; bs "d"]
                         3 3 0%Z false [bs "b"; bs "a"; NEWLINE]))
    by reflexivity.
  assert (Hle : (3 <= Z.of_nat (length [bs "b"; bs "a"; NEWLINE]))%Z)
    by (simpl; lia).
  exact (f_equal sent
           (X6_honest_ack_is_never_answered es (bs "1") (bs "3") 3 _ a Hs
              eq_refl Hle)).
Defined.

(** ** Closing *)

Lemma foldl_handle_index_closed (l : list nat) :
  forall acc : Session * list packet,
  is_closed (fst acc) = true ->
  snd (foldl handle_index acc l) = snd acc.
Proof.
  induction l as [|i l IH]; intros [s out] Hc; [reflexivity|].
  simpl foldl. simpl in Hc.
  assert (Hstep : snd (handle_index (s, out) i) = out).
  { destruct (decide (data s !! i = Some NEWLINE)) as [Hi|Hi].
    - rewrite (handle_index_newline s out i Hi). simpl.
      unfold send_data, extract_line. simpl. rewrite Hc. apply app_nil_r.
    - now rewrite (handle_index_other s out i Hi). }
  rewrite IH.
  - exact Hstep.
  - destruct (handle_index_frame (s, out) i) as (_ & _ & _ & _ & Hcl).
    simpl in Hcl. congruence.
Qed.

(** Line extraction on a closed session sends nothing. *)
Lemma handle_data_closed_silent (s : Session) :
  is_closed s = true -> snd (handle_data s) = [].
Proof.
  intros Hc. unfold handle_data.
  destruct (decide (EMPTY ∈ data s)); [reflexivity|].
  now rewrite foldl_handle_index_closed.
Qed.

Lemma set_is_closed_same (s : Session) :
  is_closed s = true -> set_is_closed true s = s.
Proof. destruct s; simpl; intros ->; reflexivity. Qed.

Lemma settled_set_is_closed (b : bool) (s : Session) :
  settled s -> settled (set_is_closed b s).
Proof. intros H; exact H. Qed.

(** X7: a close for a known session is answered with exactly one datagram,
    [/close/SESSION/] to the sender, and nothing else is sent: the session is
    marked closed before the last line extraction, whose lines go to the
    outbound buffer but not to the wire. The reassembly buffer is not
    changed, and a settled session (no complete line waiting) changes in its
    closed flag only. *)
Theorem X7_close_marks_and_answers_once
  (sid : bytes) (s : Session) (a : Addr) (t : Sessions) :
  SLASH ∉ sid -> lookup sid t = Some s ->
  let o := datagram_received (close_msg sid) a t in
  sent o = [(P_CLOSE ++ sid ++ B_SLASH, a)] /\ raised o = None /\
  (exists s', lookup sid (table o) = Some s' /\
              is_closed s' = true /\ data s' = data s) /\
  (settled s -> table o = store sid (set_is_closed true s) t).
Proof.
  intros Hsid Hs o. subst o. rewrite close_dispatch. unfold on_close.
  rewrite (split1_single sid Hsid), Hs.
  pose proof (handle_data_closed_silent (set_is_closed true s) eq_refl) as Hout.
  pose proof (handle_data_frame (set_is_closed true s)) as (_ & _ & Hd & _ & Hc).
  destruct (handle_data (set_is_closed true s)) as [s2 out] eqn:Hh.
  simpl in Hout, Hd, Hc. subst out. simpl.
  split; [reflexivity|]. split; [reflexivity|]. split.
  - exists s2. split; [apply (lookup_store_eq sid s2 s t Hs)|].
    split; [exact Hc|exact Hd].
  - intros Hset.
    pose proof (handle_data_noop (set_is_closed true s)
                  (settled_set_is_closed true s Hset)) as Hno.
    rewrite Hh in Hno. now injection Hno as ->.
Qed.

Lemma X7_close_witness :
  let a : Addr := ("10.0.0.1"%string, 4000%Z) in
  let t := [(bs "1", new_session (bs "1") a)] in
  sent (datagram_received (bs "/close/1/") a t) = [(bs "/close/1/", a)].
Proof.
  intros a t.
  assert (Hsid : SLASH ∉ bs "1")
    by (apply (bool_decide_unpack _); vm_compute; exact I).
  destruct (X7_close_marks_and_answers_once (bs "1") (new_session (bs "1") a)
              a t Hsid eq_refl) as (Hsent & _).
  exact Hsent.
Defined.

(** ** Closed sessions *)

Lemma closed_on_connect (rest : bytes) (a : Addr) (t : Sessions)
  (k : bytes) (s : Session) :
  lookup k t = Some s ->
  lookup k (table (on_connect rest a t)) = Some s.
Proof.
  intros Hs. unfold on_connect.
  destruct (Py.split SLASH 1 rest) as [|sid [|? ?]]; try exact Hs.
  destruct (Py.int sid) as [n|]; [|exact Hs].
  destruct (decide (n > 2 ^ 31)%Z); [exact Hs|]. simpl.
  destruct (lookup sid t); [exact Hs|].
  now rewrite lookup_insert_new, Hs.
Qed.

Lemma closed_on_data (rest : bytes) (a : Addr) (t : Sessions)
  (k : bytes) (s : Session) :
  lookup k t = Some s -> is_closed s = true ->
  lookup k (table (on_data rest a t)) = Some s.
Proof.
  intros Hs Hc. unfold on_data.
  destruct (Py.split SLASH 2 rest) as [|sid [|pos [|payload [|? ?]]]];
    try exact Hs.
  destruct (lookup sid t) as [s0|] eqn:Hs0; [|exact Hs].
  destruct (is_closed s0) eqn:Hc0; [exact Hs|].
  assert (Hne : sid <> k) by (intros ->; congruence).
  destruct (decide (B_SLASH ∈ split_data payload)); [exact Hs|].
  destruct (Py.int pos) as [p|]; [|exact Hs].
  destruct (add_data p (split_data payload) s0) as [s1 [x|]]; simpl.
  - now rewrite lookup_store_ne.
  - destruct (handle_data s1) as [s2 out]. simpl. now rewrite lookup_store_ne.
Qed.

Lemma closed_on_close (rest : bytes) (a : Addr) (t : Sessions)
  (k : bytes) (s : Session) :
  lookup k t = Some s ->
  exists s', lookup k (table (on_close rest a t)) = Some s' /\ closed_step s s'.
Proof.
  intros Hs. unfold on_close.
  destruct (Py.split SLASH 1 rest) as [|sid [|? ?]];
    try (exists s; split; [exact Hs|now left]).
  destruct (lookup sid t) as [s0|] eqn:Hs0;
    [|exists s; split; [exact Hs|now left]].
  destruct (handle_data (set_is_closed true s0)) as [s2 out] eqn:Hh. simpl.
  destruct (decide (sid = k)) as [->|Hne].
  - exists s2. split; [apply (lookup_store_eq k s2 s0 t Hs0)|].
    right; right. assert (s0 = s) as -> by congruence. now rewrite Hh.
  - exists s. split; [now rewrite lookup_store_ne|now left].
Qed.

Lemma closed_on_ack (rest : bytes) (a : Addr) (t : Sessions)
  (k : bytes) (s : Session) :
  lookup k t = Some s ->
  exists s', lookup k (table (on_ack rest a t)) = Some s' /\ closed_step s s'.
Proof.
  intros Hs. unfold on_ack.
  destruct (Py.split SLASH 2 rest) as [|sid [|len [|? ?]]];
    try (exists s; split; [exact Hs|now left]).
  destruct (lookup sid t) as [s0|] eqn:Hs0;
    [|exists s; split; [exact Hs|now left]].
  destruct (Py.int len) as [n|]; [|exists s; split; [exact Hs|now left]].
  simpl. destruct (decide (sid = k)) as [->|Hne].
  - exists (set_acked_until n s0).
    split; [apply (lookup_store_eq k _ s0 t Hs0)|].
    right; left. exists n. congruence.
  - exists s. split; [now rewrite lookup_store_ne|now left].
Qed.

Lemma closed_received (d : bytes) (a : Addr) (t : Sessions)
  (k : bytes) (s : Session) :
  lookup k t = Some s -> is_closed s = true ->
  exists s', lookup k (table (datagram_received d a t)) = Some s' /\
             closed_step s s'.
Proof.
  intros Hs Hc. unfold datagram_received.
  destruct (head d), (last d); try (exists s; split; [exact Hs|now left]).
  destruct (decide _); try (exists s; split; [exact Hs|now left]).
  destruct (Py.split SLASH 1 (Py.slice 1 (length d - 1) d))
    as [|kind [|rest [|? ?]]]; try (exists s; split; [exact Hs|now left]).
  unfold dispatch.
  destruct (decide (kind = B_CONNECT)).
  { exists s. split; [now apply closed_on_connect|now left]. }
  destruct (decide (kind = B_DATA)).
  { exists s. split; [now apply closed_on_data|now left]. }
  destruct (decide (kind = B_CLOSE)); [now apply closed_on_close|].
  destruct (decide (kind = B_ACK)); [now apply closed_on_ack|].
  exists s. split; [exact Hs|now left].
Qed.

(** X8: in a table the engine has reached, a closed session is frozen:
    whatever arrives next, it stays in the table, stays closed, and keeps
    its reassembly buffer, read cursor, send cursor and outbound buffer;
    only the stored ack position can still change. *)
Theorem X8_closed_session_is_frozen
  (es : list event) (e : event) (k : bytes) (s : Session) :
  let t := fst (run [] es) in
  lookup k t = Some s -> is_closed s = true ->
  exists s',
    lookup k (fst (step t e)) = Some s' /\
    is_closed s' = true /\ id s' = id s /\ addr s' = addr s /\
    data s' = data s /\ cursor s' = cursor s /\
    send_cursor s' = send_cursor s /\ send_buffer s' = send_buffer s.
Proof.
  intros t Hs Hc. destruct e as [d a|]; simpl.
  - destruct (closed_received d a t k s Hs Hc) as (s' & Hs' & Hstep).
    exists s'. split; [exact Hs'|].
    destruct Hstep as [E|[[n E]|E]]; subst s'.
    + repeat split; assumption.
    + repeat split; assumption.
    + rewrite (set_is_closed_same s Hc).
      rewrite (handle_data_noop s (reachable_settled es k s Hs)). simpl.
      repeat split; assumption.
  - exists s. repeat split; assumption.
Qed.

Lemma X8_closed_frozen_witness :
  let a : Addr := ("10.0.0.1"%string, 4000%Z) in
  let es := [Datagram (bs "/connect/1/") a; Datagram (bs "/close/1/") a] in
  exists s',
    lookup (bs "1")
      (fst (step (fst (run [] es)) (Datagram (bs "/data/1/0/hi/") a)))
    = Some s' /\ is_closed s' = true /\ data s' = [].
Proof.
  intros a es.
  destruct (X8_closed_session_is_frozen es (Datagram (bs "/data/1/0/hi/") a)
              (bs "1") (set_is_closed true (new_session (bs "1") a))
              eq_refl eq_refl)
    as (s' & Hs' & Hc & _ & _ & Hd & _).
  exists s'. split; [exact Hs'|]. split; [exact Hc|exact Hd].
Defined.

(** ** Identity of sessions *)

Lemma session_step_identity (s s' : Session) :
  session_step s s' ->
  id s' = id s /\ addr s' = addr s /\
  (is_closed s = true -> is_closed s' = true).
Proof.
  intros [n s0|s0|p toks s0 s1 x Hne Hadd|p toks s0 s1 Hne Hadd].
  - repeat split; auto.
  - destruct (handle_data_frame (set_is_closed true s0))
      as (Hi & Ha & _ & _ & Hc).
    repeat split; auto.
  - destruct (add_data_fields p toks s0) as (Hi & Ha & _ & _ & _ & Hc & _).
    rewrite Hadd in Hi, Ha, Hc. simpl in Hi, Ha, Hc.
    repeat split; congruence.
  - destruct (add_data_fields p toks s0) as (Hi & Ha & _ & _ & _ & Hc & _).
    rewrite Hadd in Hi, Ha, Hc. simpl in Hi, Ha, Hc.
    destruct (handle_data_frame s1) as (Hi2 & Ha2 & _ & _ & Hc2).
    repeat split; congruence.
Qed.

(** X9: no event removes, renames, re-addresses or reopens a session: a
    session of the table is still in it after any datagram or tick, with the
    same [id] and the same peer address (the one of the connect that created
    it), and closed if it was closed. *)
Theorem X9_sessions_are_never_removed_or_reopened
  (t : Sessions) (e : event) (k : bytes) (s : Session) :
  lookup k t = Some s ->
  exists s',
    lookup k (fst (step t e)) = Some s' /\
    id s' = id s /\ addr s' = addr s /\
    (is_closed s = true -> is_closed s' = true).
Proof.
  intros Hs. destruct e as [d a|]; simpl; [|exists s; auto].
  destruct (received_table d a t) as [|k0 s0 s0' Hs0 Hst|k0 n Hs0 Hn].
  - exists s; auto.
  - destruct (decide (k0 = k)) as [->|Hne].
    + exists s0'. split; [apply (lookup_store_eq k s0' s0 t Hs0)|].
      assert (s0 = s) as -> by congruence.
      now apply session_step_identity.
    + exists s. split; [now rewrite lookup_store_ne|auto].
  - exists s. split; [now rewrite lookup_insert_new, Hs|auto].
Qed.

Lemma X9_sessions_witness :
  let a : Addr := ("10.0.0.1"%string, 4000%Z) in
  let b : Addr := ("10.0.0.2"%string, 5000%Z) in
  let t := [(bs "1", new_session (bs "1") a)] in
  exists s',
    lookup (bs "1") (fst (step t (Datagram (bs "/connect/1/") b))) = Some s' /\
    addr s' = a.
Proof.
  intros a b t.
  destruct (X9_sessions_are_never_removed_or_reopened t
              (Datagram (bs "/connect/1/") b) (bs "1")
              (new_session (bs "1") a) eq_refl)
    as (s' & Hs' & _ & Ha & _).
  exists s'. split; [exact Hs'|exact Ha].
Defined.

(** ** The table as a registry *)

Lemma store_keys (k : bytes) (s : Session) (t : Sessions) :
  map fst (store k s t) = map fst t.
Proof.
  induction t as [|[k' s'] r IH]; simpl; [reflexivity|].
  destruct (decide (k' = k)); simpl; [reflexivity|now rewrite IH].
Qed.

Lemma lookup_none_keys (k : bytes) (t : Sessions) :
  lookup k t = None <-> k ∉ map fst t.
Proof.
  induction t as [|[k' s'] r IH]; simpl.
  - split; [intros _; apply not_elem_of_nil|reflexivity].
  - rewrite not_elem_of_cons. destruct (decide (k' = k)) as [->|Hne].
    + split; [discriminate|]. intros [H _]. contradiction.
    + rewrite IH. split; [intros H; split; [congruence|exact H]|tauto].
Qed.

(** X10: one datagram touches at most one session, and the table only
    grows at its end: apart from one key, every lookup gives what it gave
    before, and the list of keys is the old one, or the old one with one new
    key appended. *)
Theorem X10_one_datagram_touches_one_session
  (d : bytes) (a : Addr) (t : Sessions) :
  let t' := table (datagram_received d a t) in
  (exists k0, forall k, k <> k0 -> lookup k t' = lookup k t) /\
  (map fst t' = map fst t \/
   exists k0, (k0 ∉ map fst t) /\ map fst t' = map fst t ++ [k0]).
Proof.
  intros t'. subst t'.
  destruct (received_table d a t) as [|k0 s0 s0' Hs0 Hst|k0 n Hs0 Hn].
  - split; [exists []; reflexivity|now left].
  - split; [|left; apply store_keys].
    exists k0. intros k Hne. apply lookup_store_ne. congruence.
  - split.
    + exists k0. intros k Hne. rewrite lookup_insert_new.
      destruct (lookup k t); [reflexivity|].
      destruct (decide (k0 = k)); [congruence|reflexivity].
    + right. exists k0. split; [now apply lookup_none_keys|].
      unfold insert_new. now rewrite map_app.
Qed.

Lemma reachable_keys_distinct (es : list event) :
  NoDup (map fst (fst (run [] es))).
Proof.
  induction es as [|e es IH] using rev_ind; [constructor|].
  rewrite run_snoc. simpl. destruct e as [d a|]; simpl; [|exact IH].
  destruct (received_table d a (fst (run [] es)))
    as [|k0 s0 s0' Hs0 Hst|k0 n Hs0 Hn]; [exact IH| |].
  - now rewrite store_keys.
  - unfold insert_new. rewrite map_app. simpl.
    apply NoDup_app. split; [exact IH|]. split.
    + intros x Hx Hin. apply list_elem_of_singleton in Hin as ->.
      now apply lookup_none_keys in Hs0.
    + apply NoDup_singleton.
Qed.

(** X11: in every table the engine reaches from the empty one the keys are
    pairwise distinct, and each session carries its key in its [id] field,
    so the data datagrams of a session name the session they belong to. *)
Theorem X11_reachable_table_is_a_registry
  (es : list event) (k : bytes) (s : Session) :
  lookup k (fst (run [] es)) = Some s ->
  id s = k /\ NoDup (map fst (fst (run [] es))).
Proof.
  intros Hs. split; [|apply reachable_keys_distinct].
  revert es k s Hs. apply (reachable_sessions (fun k s => id s = k)).
  - reflexivity.
  - intros k s s' Hid Hst.
    destruct (session_step_identity s s' Hst) as (Hi & _). congruence.
Qed.

Lemma X11_registry_witness :
  let a : Addr := ("10.0.0.1"%string, 4000%Z) in
  let es := [Datagram (bs "/connect/7/") a; Datagram (bs "/connect/07/") a;
             Datagram (bs "/connect/7/") a] in
  map fst (fst (run [] es)) = [bs "7"; bs "07"] /\
  NoDup (map fst (fst (run [] es))).
Proof.
  intros a es. split; [reflexivity|].
  exact (proj2 (X11_reachable_table_is_a_registry es (bs "7")
                  (new_session (bs "7") a) eq_refl)).
Defined.

(** ** Connect *)

(** X12: a connect is accepted exactly when its SESSION field reads as an
    integer not above 2^31 (zero, negative and signed texts included): then
    it is answered with [/ack/SESSION/0/]; in every other case nothing is
    sent and the table is unchanged. *)
Theorem X12_connect_is_accepted_up_to_the_bound
  (sid : bytes) (a : Addr) (t : Sessions) :
  let o := datagram_received (connect_msg sid) a t in
  ((exists n, Py.int sid = Some n /\ (n <= 2 ^ 31)%Z) ->
   sent o = [(P_ACK ++ sid ++ S_ZERO, a)] /\
   exists s, lookup sid (table o) = Some s) /\
  (~ (exists n, Py.int sid = Some n /\ (n <= 2 ^ 31)%Z) -> dropped o t).
Proof.
  intros o. subst o. split.
  - intros (n & Hn & Hle). rewrite (connect_received sid n a t Hn).
    destruct (decide (n > 2 ^ 31)%Z); [lia|]. simpl.
    split; [reflexivity|].
    destruct (lookup sid t) as [s|] eqn:Hs; [eauto|].
    exists (new_session sid a). rewrite lookup_insert_new, Hs.
    destruct (decide (sid = sid)); [reflexivity|contradiction].
  - intros Hno. destruct (Py.int sid) as [n|] eqn:Hn.
    + rewrite (connect_received sid n a t Hn).
      destruct (decide (n > 2 ^ 31)%Z); [split; reflexivity|].
      exfalso. apply Hno. exists n. split; [reflexivity|lia].
    + now apply connect_non_numeric_dropped.
Qed.

Lemma X12_connect_witness :
  let a : Addr := ("10.0.0.1"%string, 4000%Z) in
  sent (datagram_received (bs "/connect/-5/") a []) = [(bs "/ack/-5/0/", a)] /\
  dropped (datagram_received (bs "/connect/4294967296/") a []) [].
Proof.
  intros a.
  destruct (X12_connect_is_accepted_up_to_the_bound (bs "-5") a [])
    as [Hyes _].
  destruct (X12_connect_is_accepted_up_to_the_bound (bs "4294967296") a [])
    as [_ Hno].
  split.
  - apply Hyes. exists (-5)%Z. split; [reflexivity|lia].
  - apply Hno. intros (n & Hn & Hle). vm_compute in Hn.
    injection Hn as <-. lia.
Defined.

(** ** The tokens of an escaped payload *)

Lemma no_adjacent_lf_tail (c : byte) (l : bytes) :
  no_adjacent_lf (c :: l) -> no_adjacent_lf l.
Proof. intros H i Hi. exact (H (S i) Hi). Qed.

Lemma escaped_tokens (l : bytes) :
  no_adjacent_lf l ->
  filter (fun x => x <> EMPTY) (Py.re_split [] (escape l))
  = map escape_byte l /\
  (head l <> Some LF ->
   filter (fun x => x <> EMPTY) (Py.re_split [LF] (escape l))
   = [LF] :: map escape_byte l).
Proof.
  induction l as [|c l IH]; intros Hadj; [split; reflexivity|].
  destruct (IH (no_adjacent_lf_tail c l Hadj)) as [IH0 IH1].
  unfold escape in *. cbn [map concat].
  destruct (decide (c = LF)) as [->|Hlf].
  - split; [|intros H; now contradiction H].
    assert (Hhead : head l <> Some LF).
    { intros Hh. apply (Hadj 0 eq_refl). destruct l; [discriminate|].
      simpl in Hh. simpl. congruence. }
    unfold escape_byte at 1 3.
    destruct (decide (LF = SLASH \/ LF = BACKSLASH)) as [[H|H]|_];
      [discriminate H|discriminate H|].
    simpl. destruct (decide (LF = LF)); [|contradiction].
    simpl. exact (IH1 Hhead).
  - assert (Hstep : forall pending,
              Py.re_split pending (escape_byte c ++ concat (map escape_byte l))
              = pending :: escape_byte c
                  :: Py.re_split [] (concat (map escape_byte l))).
    { intros pending. unfold escape_byte.
      destruct (decide (c = SLASH \/ c = BACKSLASH)) as [Hesc|Hplain].
      - simpl. destruct (decide (BACKSLASH = LF)) as [H|_]; [discriminate H|].
        destruct (decide (BACKSLASH = BACKSLASH)); [|contradiction].
        destruct (decide (c = LF)); [contradiction|]. reflexivity.
      - simpl. destruct (decide (c = LF)); [contradiction|].
        destruct (decide (c = BACKSLASH)) as [->|_];
          [exfalso; apply Hplain; now right|reflexivity]. }
    assert (Hne : escape_byte c <> EMPTY).
    { unfold escape_byte. destruct (decide _); discriminate. }
    split; [|intros _]; rewrite Hstep, !filter_cons.
    + destruct (decide ([] <> EMPTY)) as [H|_]; [now contradiction H|].
      destruct (decide (escape_byte c <> EMPTY)); [|contradiction].
      now rewrite IH0.
    + destruct (decide ([LF] <> EMPTY)) as [_|H]; [|exfalso; apply H; discriminate].
      destruct (decide (escape_byte c <> EMPTY)); [|contradiction].
      now rewrite IH0.
Qed.

(** X13: the tokens of a properly escaped payload are its logical bytes,
    one slot each: a slash or a backslash with the backslash before it, any
    other byte alone; so positions count logical bytes, and no token is a
    bare slash. This needs that no two line feeds are adjacent in the
    payload. *)
Theorem X13_escaped_payload_has_one_slot_per_byte (l : bytes) :
  no_adjacent_lf l ->
  split_data (escape l) = map escape_byte l /\
  length (split_data (escape l)) = length l /\
  B_SLASH ∉ split_data (escape l).
Proof.
  intros Hadj. destruct (escaped_tokens l Hadj) as [H _].
  unfold split_data. rewrite H. split; [reflexivity|].
  split; [apply length_map|].
  intros Hin. apply list_elem_of_fmap in Hin as (c & Hc & _).
  unfold escape_byte in Hc.
  destruct (decide (c = SLASH \/ c = BACKSLASH)) as [Hesc|Hplain];
    [discriminate Hc|].
  injection Hc as <-. apply Hplain. now left.
Qed.

Lemma X13_escaped_payload_witness :
  split_data (bs "a\/b\\c") = [bs "a"; bs "\/"; bs "b"; bs "\\"; bs "c"].
Proof.
  assert (Hadj : no_adjacent_lf (bs "a/b\c")).
  { intros i Hi.
    do 5 (destruct i as [|i]; [discriminate Hi|]). discriminate Hi. }
  exact (proj1 (X13_escaped_payload_has_one_slot_per_byte (bs "a/b\c") Hadj)).
Defined.

(** ** Runs of line feeds *)

Lemma re_split_lfs (m : nat) :
  forall pending, Py.re_split pending (replicate m LF)
                  = [pending ++ replicate m LF].
Proof.
  induction m as [|m IH]; intros pending; simpl.
  - now rewrite app_nil_r.
  - destruct (decide (LF = LF)); [|contradiction].
    rewrite IH, <- app_assoc. reflexivity.
Qed.

(** Line feeds appended to a payload only extend the text after the last
    match. *)
Lemma re_split_trailing_lfs (m k : nat) :
  forall pre pending, length pre <= k ->
  exists init fin,
    Py.re_split pending pre = init ++ [fin] /\
    Py.re_split pending (pre ++ replicate m LF) = init ++ [fin ++ replicate m LF] /\
    (pre <> [] -> last pre <> Some LF -> fin = []) /\
    (pre = [] -> fin = pending).
Proof.
  induction k as [|k IH]; intros [|c rest] pending Hlen; simpl in Hlen; try lia.
  1,2: exists [], pending; simpl; rewrite re_split_lfs;
       repeat split; try reflexivity; intros H; now contradiction H.
  assert (Hlast : rest <> [] -> last (c :: rest) = last rest).
  { destruct rest; [intros H; now contradiction H|reflexivity]. }
  assert (Hplain : forall tok rest1, length rest1 <= k ->
            (rest1 = [] \/ last (c :: rest) = last rest1) ->
            exists init fin,
              pending :: tok :: Py.re_split [] rest1 = init ++ [fin] /\
              pending :: tok :: Py.re_split [] (rest1 ++ replicate m LF)
              = init ++ [fin ++ replicate m LF] /\
              (c :: rest <> [] -> last (c :: rest) <> Some LF -> fin = []) /\
              (c :: rest = [] -> fin = pending)).
  { intros tok rest1 Hl1 Hl.
    destruct (IH rest1 [] Hl1) as (init & fin & H1 & H2 & H3 & H4).
    exists (pending :: tok :: init), fin. rewrite H1, H2.
    repeat split; try reflexivity; [|discriminate].
    intros _ Hne. destruct Hl as [->|Hl]; [now apply H4|].
    destruct rest1 as [|x r1]; [now apply H4|].
    apply H3; [discriminate|congruence]. }
  cbn [app Py.re_split].
  destruct (decide (c = LF)) as [->|Hc].
  - destruct (IH rest (pending ++ [LF]) ltac:(lia))
      as (init & fin & H1 & H2 & H3 & H4).
    exists init, fin. repeat split; try assumption; [|discriminate].
    intros _ Hne. destruct rest as [|x r]; [now contradiction Hne|].
    apply H3; [discriminate|]. rewrite <- Hlast by discriminate. exact Hne.
  - destruct (decide (c = BACKSLASH)) as [->|Hb].
    + destruct rest as [|d rest'].
      * destruct m as [|m].
        -- simpl. exists [pending; [BACKSLASH]], [].
           repeat split; try reflexivity. discriminate.
        -- simpl. destruct (decide (LF = LF)); [|contradiction].
           change (LF :: replicate m LF) with (replicate (S m) LF).
           rewrite re_split_lfs.
           exists [pending; [BACKSLASH]], [].
           repeat split; try reflexivity. discriminate.
      * cbn [app]. destruct (decide (d = LF)) as [->|Hd].
        -- apply (Hplain [BACKSLASH] (LF :: rest')); [simpl in *; lia|].
           right. now apply Hlast.
        -- apply (Hplain [BACKSLASH; d] rest'); [simpl in *; lia|].
           destruct rest' as [|x r]; [now left|right; reflexivity].
    + apply (Hplain [c] rest); [lia|].
      destruct rest as [|x r]; [now left|right; reflexivity].
Qed.

Lemma filter_nonempty_snoc (init : list bytes) (fin : bytes) :
  filter (fun x => x <> EMPTY) (init ++ [fin])
  = filter (fun x => x <> EMPTY) init ++ (if decide (fin <> EMPTY) then [fin] else []).
Proof.
  rewrite filter_app, filter_cons, filter_nil.
  destruct (decide (fin <> EMPTY)); reflexivity.
Qed.

(** X14: a run of line feeds at the end of a payload is one token, however
    long: the pattern's dot matches no line feed, so the whole run is the
    text after the last match. A payload without other line feeds that ends
    in two or more of them therefore holds no newline slot: it completes no
    line and fills one slot for the whole run. *)
Theorem X14_trailing_line_feeds_are_one_token (pre : bytes) (m : nat) :
  last pre <> Some LF ->
  split_data (pre ++ replicate (S m) LF)
  = split_data pre ++ [replicate (S m) LF] /\
  (LF ∉ pre -> 1 <= m -> NEWLINE ∉ split_data (pre ++ replicate (S m) LF)).
Proof.
  intros Hlast.
  assert (Heq : split_data (pre ++ replicate (S m) LF)
                = split_data pre ++ [replicate (S m) LF]).
  { destruct (re_split_trailing_lfs (S m) (length pre) pre [] (le_n _))
      as (init & fin & H1 & H2 & H3 & H4).
    assert (fin = []) as ->.
    { destruct pre; [now apply H4|apply H3; [discriminate|exact Hlast]]. }
    unfold split_data. rewrite H1, H2, !filter_nonempty_snoc.
    destruct (decide (@nil byte <> EMPTY)) as [H|_]; [now contradiction H|].
    rewrite app_nil_r.
    destruct (decide ([] ++ replicate (S m) LF <> EMPTY)) as [_|H];
      [reflexivity|exfalso; apply H; discriminate]. }
  split; [exact Heq|].
  intros Hno Hm. rewrite Heq. intros Hin.
  apply elem_of_app in Hin as [Hin|Hin].
  - apply Hno. rewrite <- (split_data_concat pre).
    apply list_elem_of_In, in_concat. exists NEWLINE.
    split; [now apply list_elem_of_In|now left].
  - apply list_elem_of_singleton in Hin.
    destruct m as [|m]; [lia|discriminate Hin].
Qed.

Lemma X14_trailing_line_feeds_witness :
  split_data (bs "hi" ++ [LF; LF]) = [bs "h"; bs "i"; [LF; LF]] /\
  NEWLINE ∉ split_data (bs "hi" ++ [LF; LF]).
Proof.
  assert (Hlast : last (bs "hi") <> Some LF) by discriminate.
  destruct (X14_trailing_line_feeds_are_one_token (bs "hi") 1 Hlast)
    as [Heq Hno].
  split; [exact Heq|]. apply Hno; [|lia].
  apply (bool_decide_unpack _). vm_compute. exact I.
Defined.

(** ** How much [send_data] sends, and where to *)

Lemma chunks_length (fuel : nat) (it : list bytes) (cur : nat) :
  length it < fuel ->
  length (chunks fuel 512 cur it) = (length it + 511) / 512.
Proof.
  intros Hf.
  pose proof (Nat.div_mod_eq (length it + 511) 512) as Hdm.
  assert (Hr : (length it + 511) mod 512 < 512)
    by (apply Nat.mod_upper_bound; lia).
  set (m := (length it + 511) / 512) in *.
  set (r := (length it + 511) mod 512) in *.
  assert (Hpos : 0 < 512) by lia.
  assert (Hnone : chunks fuel 512 cur it !! m = None).
  { rewrite (chunks_lookup fuel 512 Hpos m cur it Hf).
    destruct (decide (m * 512 < length it)); [|reflexivity].
    exfalso. lia. }
  apply lookup_ge_None in Hnone.
  destruct (decide (m = 0)) as [H0|H0].
  - lia.
  - assert (Hsome : is_Some (chunks fuel 512 cur it !! (m - 1))).
    { rewrite (chunks_lookup fuel 512 Hpos (m - 1) cur it Hf).
      destruct (decide ((m - 1) * 512 < length it)); [eauto|].
      exfalso. lia. }
    apply lookup_lt_is_Some in Hsome. lia.
Qed.

(** X15: an open session with [n] slots in its outbound buffer sends
    [ceil(n / 512)] data datagrams per delivery, none for an empty buffer,
    and no datagram carries an empty chunk or more than 512 slots. *)
Theorem X15_send_data_count (s : Session) :
  is_closed s = false ->
  length (send_data s) = (length (send_buffer s) + 511) / 512 /\
  forall k pkt, send_data s !! k = Some pkt ->
    let sl := Py.slice (k * 512) (k * 512 + 512) (send_buffer s) in
    pkt = (data_datagram (id s) (k * 512) sl, addr s) /\
    1 <= length sl <= 512.
Proof.
  intros Hopen. split.
  - unfold send_data. rewrite Hopen, length_map.
    apply chunks_length. lia.
  - intros k pkt Hk sl. rewrite (send_data_lookup s k Hopen) in Hk.
    change CHUNK_SIZE with 512 in Hk.
    destruct (decide (k * 512 < length (send_buffer s))); [|discriminate Hk].
    injection Hk as <-. split; [reflexivity|].
    unfold sl, Py.slice. rewrite length_drop, length_take. lia.
Qed.

Lemma X15_send_data_count_witness :
  let a : Addr := ("10.0.0.1"%string, 4000%Z) in
  let s := set_send_buffer (replicate 1025 (bs "x")) (new_session (bs "1") a) in
  length (send_data s) = 3.
Proof.
  intros a s.
  exact (proj1 (X15_send_data_count s eq_refl)).
Defined.

Lemma handle_index_addr (acc : Session * list packet) (i : nat) (a : Addr) :
  addr (fst acc) = a ->
  Forall (fun pkt => snd pkt = a) (snd acc) ->
  Forall (fun pkt => snd pkt = a) (snd (handle_index acc i)).
Proof.
  destruct acc as [s out]. intros Ha Hout. cbn [fst snd] in Ha, Hout.
  destruct (decide (data s !! i = Some NEWLINE)) as [Hi|Hi].
  - rewrite (handle_index_newline s out i Hi). cbn [fst snd].
    apply Forall_app. split; [exact Hout|].
    unfold send_data. destruct (is_closed (extract_line i s)); [constructor|].
    apply Forall_forall. intros pkt Hin.
    apply list_elem_of_fmap in Hin as ([cur sl] & -> & _). exact Ha.
  - now rewrite (handle_index_other s out i Hi).
Qed.

Lemma foldl_handle_index_addr (l : list nat) (a : Addr) :
  forall acc : Session * list packet,
  addr (fst acc) = a ->
  Forall (fun pkt => snd pkt = a) (snd acc) ->
  Forall (fun pkt => snd pkt = a) (snd (foldl handle_index acc l)).
Proof.
  induction l as [|i l IH]; intros acc Ha Hout; [exact Hout|].
  simpl. apply IH.
  - destruct (handle_index_frame acc i) as (_ & Hadr & _). congruence.
  - now apply handle_index_addr.
Qed.

(** What line extraction sends goes to the address stored in the session. *)
Lemma handle_data_addr (s : Session) :
  Forall (fun pkt => snd pkt = addr s) (snd (handle_data s)).
Proof.
  unfold handle_data. destruct (decide (EMPTY ∈ data s)); [constructor|].
  apply foldl_handle_index_addr; [reflexivity|constructor].
Qed.

(** X16: every datagram the engine sends while handling a datagram goes
    either to the sender of that datagram (the acks and closes) or to the
    address stored in a session of the table when it was created (the data
    datagrams of line extraction), even if the datagram handled came from
    another address. *)
Theorem X16_replies_to_sender_data_to_stored_address
  (d : bytes) (a : Addr) (t : Sessions) (pkt : packet) :
  pkt ∈ sent (datagram_received d a t) ->
  snd pkt = a \/ exists k s, lookup k t = Some s /\ snd pkt = addr s.
Proof.
  assert (Hnil : pkt ∈ @nil packet ->
            snd pkt = a \/ exists k s, lookup k t = Some s /\ snd pkt = addr s)
    by (intros H; now apply elem_of_nil in H).
  assert (Hone : forall m : bytes, pkt ∈ [(m, a)] ->
            snd pkt = a \/ exists k s, lookup k t = Some s /\ snd pkt = addr s)
    by (intros m H; apply list_elem_of_singleton in H as ->; now left).
  unfold datagram_received.
  destruct (head d) as [c0|]; [|exact Hnil].
  destruct (last d) as [c1|]; [|exact Hnil].
  destruct (decide (c0 <> SLASH \/ c1 <> SLASH)) as [Hfr|Hfr]; [exact Hnil|].
  destruct (Py.split SLASH 1 (Py.slice 1 (length d - 1) d))
    as [|kind [|rest [|? ?]]]; try exact Hnil.
  unfold dispatch.
  destruct (decide (kind = B_CONNECT)) as [Hk1|Hk1].
  { unfold on_connect.
    destruct (Py.split SLASH 1 rest) as [|sid [|? ?]]; try exact Hnil.
    destruct (Py.int sid) as [v|]; [|exact Hnil].
    destruct (decide (v > 2 ^ 31)%Z) as [Hv|Hv]; [exact Hnil|].
    apply Hone. }
  destruct (decide (kind = B_DATA)) as [Hk2|Hk2].
  { unfold on_data.
    destruct (Py.split SLASH 2 rest) as [|sid [|pos [|payload [|? ?]]]];
      try exact Hnil.
    destruct (lookup sid t) as [s|] eqn:Hs; [|apply Hone].
    destruct (is_closed s); [apply Hone|].
    destruct (decide (B_SLASH ∈ split_data payload)) as [Hb|Hb];
      [exact Hnil|].
    destruct (Py.int pos) as [p|]; [|exact Hnil].
    destruct (add_data_fields p (split_data payload) s) as (_ & Ha1 & _).
    destruct (add_data p (split_data payload) s) as [s1 [x|]];
      [exact Hnil|].
    cbn [fst] in Ha1. pose proof (handle_data_addr s1) as Hout.
    destruct (handle_data s1) as [s2 out]. cbn [fst snd] in Hout.
    cbn [sent returns]. intros H. apply elem_of_app in H as [H|H].
    - right. exists sid, s. split; [exact Hs|].
      rewrite Forall_forall in Hout. rewrite (Hout pkt H). exact Ha1.
    - exact (Hone _ H). }
  destruct (decide (kind = B_CLOSE)) as [Hk3|Hk3].
  { unfold on_close.
    destruct (Py.split SLASH 1 rest) as [|sid [|? ?]]; try exact Hnil.
    destruct (lookup sid t) as [s|] eqn:Hs; [|exact Hnil].
    pose proof (handle_data_addr (set_is_closed true s)) as Hout.
    destruct (handle_data (set_is_closed true s)) as [s2 out].
    cbn [fst snd] in Hout. cbn [sent returns].
    intros H. apply elem_of_app in H as [H|H].
    - right. exists sid, s. split; [exact Hs|].
      rewrite Forall_forall in Hout. exact (Hout pkt H).
    - exact (Hone _ H). }
  destruct (decide (kind = B_ACK)) as [Hk4|Hk4]; [|exact Hnil].
  unfold on_ack.
  destruct (Py.split SLASH 2 rest) as [|sid [|len [|? ?]]]; try exact Hnil.
  destruct (lookup sid t) as [s|]; [|exact Hnil].
  destruct (Py.int len) as [v|]; [|exact Hnil].
  cbn [sent returns].
  destruct (decide (acked_until (set_acked_until v s)
                    > Z.of_nat (length (data (set_acked_until v s))))%Z)
    as [Hg|Hg]; [apply Hone|exact Hnil].
Qed.

Lemma X16_addresses_witness :
  let a : Addr := ("10.0.0.1"%string, 4000%Z) in
  let b : Addr := ("10.0.0.2"%string, 5000%Z) in
  let t := [(bs "1", new_session (bs "1") a)] in
  sent (datagram_received (bs "/data/1/0/hi" ++ [LF] ++ bs "/") b t)
  = [(bs "/data/1/0/ih" ++ [LF] ++ bs "/", a); (bs "/ack/1/3/", b)] /\
  (snd (bs "/ack/1/3/", b) = b \/
   exists k s, lookup k t = Some s /\ snd (bs "/ack/1/3/", b) = addr s).
Proof.
  intros a b t. split; [reflexivity|].
  apply (X16_replies_to_sender_data_to_stored_address
           (bs "/data/1/0/hi" ++ [LF] ++ bs "/") b t).
  apply list_elem_of_further, list_elem_of_here.
Defined.
